(** * ClueBoardGameFHE: batch lifecycle and commit-bound disclosure

  A shallow embedding of the Solidity contract [ClueBoardGameFHE]
  (pragma ^0.8.24) and the properties of its batch / disclosure
  protocol.

  - contract storage is the record [State]; Solidity mappings are
    finite maps read with the type's zero value as default;
  - a transaction is a function from the pre-state to an [outcome]:
    either [Return (s', logs)] (new storage and emitted events) or
    [Revert e], in which case storage is untouched and nothing is logged;
  - [uint256] arithmetic is checked (Solidity 0.8): overflow reverts
    with [Error.Panic];
  - the fhEVM library (FHE.add, FHE.eq, the decryption oracle, keccak256,
    abi.decode) is outside the contract: it is the interface [FHEVM];
  - the pure computations of the web client (App.tsx) are the module
    [Frontend], over the interface [JSRuntime] of the JavaScript
    built-ins it calls. *)

From stdpp Require Import gmap list strings pretty.
From Stdlib Require Import NArith ZArith Lia.

Local Open Scope N_scope.

(** ** Value types *)

Abbreviation uint256 := N (only parsing).
Abbreviation address := N (only parsing).
Abbreviation bytes32 := N (only parsing).
(** [euint32] and [ebool] are user-defined value types over a bytes32
  handle; a storage slot never written holds the handle 0. *)
Abbreviation euint32 := N (only parsing).
Abbreviation ebool := N (only parsing).
Abbreviation bytes := (list N) (only parsing).

Definition MAX_UINT256 : uint256 := 2 ^ 256 - 1.
Definition MAX_BATCH_SIZE : uint256 := 10.

(** Checked addition of Solidity 0.8: [None] stands for Panic(0x11). *)
Definition checked_add (a b : uint256) : option uint256 :=
  if a + b <=? MAX_UINT256 then Some (a + b) else None.

(** ** Errors and events *)

Module Error.
(** The ten custom errors of the contract, the arithmetic panic of
    checked arithmetic, and a revert propagated from the fhEVM library
    (FHE.checkSignatures) or from abi.decode. *)
Inductive t : Set :=
| NotOwner | NotProvider | Paused | InvalidState | RateLimited
| BatchClosed | BatchFull | InvalidBatch | StaleVersion | AlreadyProcessed
| Panic | ForeignRevert.

#[global] Instance eq_dec : EqDecision t.
Proof. solve_decision. Defined.
End Error.

Module Event.
Inductive t : Set :=
| ProviderAdded (provider : address)
| ProviderRemoved (provider : address)
| Paused
| Unpaused
| CooldownUpdated (newCooldown : uint256)
| BatchOpened (batchId : uint256)
| BatchClosed (batchId : uint256)
| Submission (player : address) (batchId : uint256)
             (encryptedWeapon encryptedRoom encryptedSuspect : bytes32)
| DecryptionRequested (requestId batchId : uint256) (stateHash : bytes32)
| DecryptionComplete (requestId batchId : uint256)
                     (solution : uint256 * uint256 * uint256)
| Accusation (player : address) (batchId : uint256) (isCorrect : bool).
End Event.

(** ** Outcome of a call: an error monad *)

Inductive outcome (A : Type) : Type :=
| Return (a : A)
| Revert (e : Error.t).
Arguments Return {A} a.
Arguments Revert {A} e.

#[global] Instance outcome_ret : MRet outcome := @Return.
#[global] Instance outcome_bind : MBind outcome := fun A B f m =>
  match m with
  | Return a => f a
  | Revert e => Revert e
  end.

(** [require c e] is the Solidity idiom [if (!c) revert e();]. *)
Definition require (c : bool) (e : Error.t) : outcome unit :=
  if c then Return tt else Revert e.

(** ** Storage *)

Record Batch : Type := mkBatch {
  isOpen : bool;
  submissionCount : uint256;
  encryptedWeapon : euint32;
  encryptedRoom : euint32;
  encryptedSuspect : euint32;
  submitted : gmap N bool
}.

Module DecryptionContext.
Record t : Type := mk {
  batchId : uint256;
  modelVersion : uint256;
  stateHash : bytes32;
  processed : bool
}.
(** What a mapping read returns for a key never written. *)
Definition zero : t := mk 0 0 0 false.
End DecryptionContext.

Definition Batch_zero : Batch := mkBatch false 0 0 0 0 ∅.

Record State : Type := mkState {
  owner : address;
  paused : bool;
  cooldownSeconds : uint256;
  currentBatchId : uint256;
  modelVersion : uint256;
  providers : gmap N bool;
  lastSubmissionAt : gmap N N;
  lastRequestAt : gmap N N;
  batches : gmap N Batch;
  decryptionContexts : gmap N DecryptionContext.t;
  (* mapping(uint256 => mapping(address => bool)): one slot per pair *)
  hasSubmitted : gmap (N * N) bool;
  hasRequested : gmap (N * N) bool
}.

(** Reading a Solidity mapping: the zero value where nothing was written. *)
Definition read {K V : Type} `{Countable K} (zero : V) (m : gmap K V) (k : K) : V :=
  default zero (m !! k).

Definition batch_at (s : State) (batchId : uint256) : Batch :=
  read Batch_zero (batches s) batchId.
Definition context_at (s : State) (requestId : uint256) : DecryptionContext.t :=
  read DecryptionContext.zero (decryptionContexts s) requestId.
Definition has_submitted (s : State) (batchId : uint256) (a : address) : bool :=
  read false (hasSubmitted s) (batchId, a).
Definition has_requested (s : State) (batchId : uint256) (a : address) : bool :=
  read false (hasRequested s) (batchId, a).
Definition is_provider (s : State) (a : address) : bool :=
  read false (providers s) a.

(** Field updates.  They take the record apart once, so that a chain of
  updates stays linear in size. *)
Definition set_paused (v : bool) (s : State) : State :=
  let 'mkState f0 _ f2 f3 f4 f5 f6 f7 f8 f9 f10 f11 := s in
  mkState f0 v f2 f3 f4 f5 f6 f7 f8 f9 f10 f11.
Definition set_cooldownSeconds (v : uint256) (s : State) : State :=
  let 'mkState f0 f1 _ f3 f4 f5 f6 f7 f8 f9 f10 f11 := s in
  mkState f0 f1 v f3 f4 f5 f6 f7 f8 f9 f10 f11.
Definition set_currentBatchId (v : uint256) (s : State) : State :=
  let 'mkState f0 f1 f2 _ f4 f5 f6 f7 f8 f9 f10 f11 := s in
  mkState f0 f1 f2 v f4 f5 f6 f7 f8 f9 f10 f11.
Definition set_providers (v : gmap N bool) (s : State) : State :=
  let 'mkState f0 f1 f2 f3 f4 _ f6 f7 f8 f9 f10 f11 := s in
  mkState f0 f1 f2 f3 f4 v f6 f7 f8 f9 f10 f11.
Definition set_lastSubmissionAt (v : gmap N N) (s : State) : State :=
  let 'mkState f0 f1 f2 f3 f4 f5 _ f7 f8 f9 f10 f11 := s in
  mkState f0 f1 f2 f3 f4 f5 v f7 f8 f9 f10 f11.
Definition set_lastRequestAt (v : gmap N N) (s : State) : State :=
  let 'mkState f0 f1 f2 f3 f4 f5 f6 _ f8 f9 f10 f11 := s in
  mkState f0 f1 f2 f3 f4 f5 f6 v f8 f9 f10 f11.
Definition set_batches (v : gmap N Batch) (s : State) : State :=
  let 'mkState f0 f1 f2 f3 f4 f5 f6 f7 _ f9 f10 f11 := s in
  mkState f0 f1 f2 f3 f4 f5 f6 f7 v f9 f10 f11.
Definition set_decryptionContexts (v : gmap N DecryptionContext.t) (s : State) : State :=
  let 'mkState f0 f1 f2 f3 f4 f5 f6 f7 f8 _ f10 f11 := s in
  mkState f0 f1 f2 f3 f4 f5 f6 f7 f8 v f10 f11.
Definition set_hasSubmitted (v : gmap (N * N) bool) (s : State) : State :=
  let 'mkState f0 f1 f2 f3 f4 f5 f6 f7 f8 f9 _ f11 := s in
  mkState f0 f1 f2 f3 f4 f5 f6 f7 f8 f9 v f11.
Definition set_hasRequested (v : gmap (N * N) bool) (s : State) : State :=
  let 'mkState f0 f1 f2 f3 f4 f5 f6 f7 f8 f9 f10 _ := s in
  mkState f0 f1 f2 f3 f4 f5 f6 f7 f8 f9 f10 v.

Definition set_isOpen (v : bool) (b : Batch) : Batch :=
  let 'mkBatch _ f1 f2 f3 f4 f5 := b in
  mkBatch v f1 f2 f3 f4 f5.
Definition set_submissionCount (v : uint256) (b : Batch) : Batch :=
  let 'mkBatch f0 _ f2 f3 f4 f5 := b in
  mkBatch f0 v f2 f3 f4 f5.
Definition set_encryptedWeapon (v : euint32) (b : Batch) : Batch :=
  let 'mkBatch f0 f1 _ f3 f4 f5 := b in
  mkBatch f0 f1 v f3 f4 f5.
Definition set_encryptedRoom (v : euint32) (b : Batch) : Batch :=
  let 'mkBatch f0 f1 f2 _ f4 f5 := b in
  mkBatch f0 f1 f2 v f4 f5.
Definition set_encryptedSuspect (v : euint32) (b : Batch) : Batch :=
  let 'mkBatch f0 f1 f2 f3 _ f5 := b in
  mkBatch f0 f1 f2 f3 v f5.
Definition set_processed (v : bool) (c : DecryptionContext.t) : DecryptionContext.t :=
  let 'DecryptionContext.mk f0 f1 f2 _ := c in
  DecryptionContext.mk f0 f1 f2 v.

(** [batches[batchId].f = ...]: a write through the mapping. *)
Definition update_batch (batchId : uint256) (f : Batch → Batch) (s : State) : State :=
  set_batches (<[batchId := f (batch_at s batchId)]> (batches s)) s.

(** ** The fhEVM library and the transaction environment *)

(** The operations the contract imports.  Handles are opaque; nothing is
  assumed about these functions unless a theorem says so. *)
Class FHEVM : Type := {
  FHE_add : euint32 → euint32 → euint32;
  FHE_eq : euint32 → euint32 → ebool;
  FHE_and : ebool → ebool → ebool;
  FHE_asEuint32 : uint256 → euint32;
  FHE_asEbool : bool → ebool;
  FHE_isInitialized : euint32 → bool;
  FHE_toBytes32 : N → bytes32;
(** [FHE.checkSignatures]: [false] stands for the library reverting. *)
  FHE_checkSignatures : uint256 → bytes → bytes → bool;
(** [keccak256(abi.encode(cts, addr))]. *)
  keccak256_encode : list bytes32 → address → bytes32;
  abi_decode_bool : bytes → option bool;
  abi_decode_uint256x3 : bytes → option (uint256 * uint256 * uint256);
(** [address(this)]. *)
  address_this : address
}.

(** What a transaction sees of its environment.  [oracle_requestId] is
  the id [FHE.requestDecryption] hands back if the call issues a
  request. *)
Record Env : Type := mkEnv {
  msg_sender : address;
  block_timestamp : uint256;
  oracle_requestId : uint256
}.

Abbreviation Result := (outcome (State * list Event.t)) (only parsing).

(** ** The contract *)

Section Contract.
Context {fhe : FHEVM}.

(** *** Modifiers *)

Definition onlyOwner (env : Env) (s : State) : outcome unit :=
  require (msg_sender env =? owner s) Error.NotOwner.

Definition onlyProvider (env : Env) (s : State) : outcome unit :=
  require (is_provider s (msg_sender env)) Error.NotProvider.

Definition whenNotPaused (s : State) : outcome unit :=
  require (negb (paused s)) Error.Paused.

Definition checkCooldown (env : Env) (s : State) (caller : address)
    (lastAction : gmap N N) : outcome unit :=
  match checked_add (read 0 lastAction caller) (cooldownSeconds s) with
  | None => Revert Error.Panic
  | Some deadline => require (negb (block_timestamp env <? deadline)) Error.RateLimited
  end.

(** *** Constructor *)

Definition constructor (deployer : address) : State :=
  mkState deployer false 30 0 1 ∅ ∅ ∅ ∅ ∅ ∅ ∅.

(** *** Internal helpers *)

Definition _hashCiphertexts (cts : list bytes32) : bytes32 :=
  keccak256_encode cts address_this.

Definition _initIfNeeded (x : euint32) : euint32 :=
  if FHE_isInitialized x then x else FHE_asEuint32 0.

Definition _requireInitialized (x : euint32) : outcome unit :=
  require (FHE_isInitialized x) Error.InvalidState.

Definition _rebuildIsCorrect (s : State) (batchId : uint256) : outcome ebool :=
  _requireInitialized (encryptedWeapon (batch_at s batchId));;
  _requireInitialized (encryptedRoom (batch_at s batchId));;
  _requireInitialized (encryptedSuspect (batch_at s batchId));;
  Return (FHE_asEbool false).

Definition _rebuildBatchSolution (s : State) (batchId : uint256)
    : outcome (euint32 * euint32 * euint32) :=
  _requireInitialized (encryptedWeapon (batch_at s batchId));;
  _requireInitialized (encryptedRoom (batch_at s batchId));;
  _requireInitialized (encryptedSuspect (batch_at s batchId));;
  Return (encryptedWeapon (batch_at s batchId),
          encryptedRoom (batch_at s batchId),
          encryptedSuspect (batch_at s batchId)).

(** *** Admin functions *)

Definition addProvider (env : Env) (provider : address) (s : State) : Result :=
  onlyOwner env s;;
  Return (set_providers (<[provider := true]> (providers s)) s,
          [Event.ProviderAdded provider]).

Definition removeProvider (env : Env) (provider : address) (s : State) : Result :=
  onlyOwner env s;;
  Return (set_providers (<[provider := false]> (providers s)) s,
          [Event.ProviderRemoved provider]).

Definition pause (env : Env) (s : State) : Result :=
  onlyOwner env s;;
  Return (set_paused true s, [Event.Paused]).

Definition unpause (env : Env) (s : State) : Result :=
  onlyOwner env s;;
  Return (set_paused false s, [Event.Unpaused]).

Definition setCooldown (env : Env) (newCooldown : uint256) (s : State) : Result :=
  onlyOwner env s;;
  Return (set_cooldownSeconds newCooldown s, [Event.CooldownUpdated newCooldown]).

(** *** Batch management *)

Definition openBatch (env : Env) (s : State) : Result :=
  onlyOwner env s;;
  match checked_add (currentBatchId s) 1 with
  | None => Revert Error.Panic
  | Some id =>
      let s1 := set_currentBatchId id s in
      let s2 := update_batch id (set_isOpen true) s1 in
      Return (s2, [Event.BatchOpened id])
  end.

Definition closeBatch (env : Env) (batchId : uint256) (s : State) : Result :=
  onlyOwner env s;;
  require (isOpen (batch_at s batchId)) Error.BatchClosed;;
  Return (update_batch batchId (set_isOpen false) s, [Event.BatchClosed batchId]).

(** *** Player actions *)

Definition submitEncryptedGuess (env : Env) (batchId : uint256)
    (encWeapon encRoom encSuspect : euint32) (s : State) : Result :=
  whenNotPaused s;;
  checkCooldown env s (msg_sender env) (lastSubmissionAt s);;
  require (isOpen (batch_at s batchId)) Error.BatchClosed;;
  require (negb (MAX_BATCH_SIZE <=? submissionCount (batch_at s batchId))) Error.BatchFull;;
  require (negb (has_submitted s batchId (msg_sender env))) Error.InvalidState;;
  (* the three results of _initIfNeeded are dropped: storage is not written *)
  let _ := _initIfNeeded (encryptedWeapon (batch_at s batchId)) in
  let _ := _initIfNeeded (encryptedRoom (batch_at s batchId)) in
  let _ := _initIfNeeded (encryptedSuspect (batch_at s batchId)) in
  let s1 := update_batch batchId (fun b =>
              set_encryptedWeapon (FHE_add (encryptedWeapon b) encWeapon) b) s in
  let s2 := update_batch batchId (fun b =>
              set_encryptedRoom (FHE_add (encryptedRoom b) encRoom) b) s1 in
  let s3 := update_batch batchId (fun b =>
              set_encryptedSuspect (FHE_add (encryptedSuspect b) encSuspect) b) s2 in
  match checked_add (submissionCount (batch_at s3 batchId)) 1 with
  | None => Revert Error.Panic
  | Some n =>
      let s4 := update_batch batchId (set_submissionCount n) s3 in
      let s5 := set_hasSubmitted
                  (<[(batchId, msg_sender env) := true]> (hasSubmitted s4)) s4 in
      let s6 := set_lastSubmissionAt
                  (<[msg_sender env := block_timestamp env]> (lastSubmissionAt s5)) s5 in
      Return (s6, [Event.Submission (msg_sender env) batchId
                     (FHE_toBytes32 encWeapon) (FHE_toBytes32 encRoom)
                     (FHE_toBytes32 encSuspect)])
  end.

Definition makeAccusation (env : Env) (batchId : uint256)
    (encWeapon encRoom encSuspect : euint32) (s : State) : Result :=
  whenNotPaused s;;
  checkCooldown env s (msg_sender env) (lastSubmissionAt s);;
  require (isOpen (batch_at s batchId)) Error.BatchClosed;;
  require (negb (has_submitted s batchId (msg_sender env))) Error.InvalidState;;
  let _ := _initIfNeeded (encryptedWeapon (batch_at s batchId)) in
  let _ := _initIfNeeded (encryptedRoom (batch_at s batchId)) in
  let _ := _initIfNeeded (encryptedSuspect (batch_at s batchId)) in
  let weaponMatch := FHE_eq (encryptedWeapon (batch_at s batchId)) encWeapon in
  let roomMatch := FHE_eq (encryptedRoom (batch_at s batchId)) encRoom in
  let suspectMatch := FHE_eq (encryptedSuspect (batch_at s batchId)) encSuspect in
  let isCorrect := FHE_and (FHE_and weaponMatch roomMatch) suspectMatch in
  let cts := [FHE_toBytes32 isCorrect] in
  let stateHash := _hashCiphertexts cts in
  let requestId := oracle_requestId env in
  let s1 := set_decryptionContexts
              (<[requestId := DecryptionContext.mk batchId (modelVersion s) stateHash false]>
                 (decryptionContexts s)) s in
  let s2 := set_hasSubmitted
              (<[(batchId, msg_sender env) := true]> (hasSubmitted s1)) s1 in
  let s3 := set_lastSubmissionAt
              (<[msg_sender env := block_timestamp env]> (lastSubmissionAt s2)) s2 in
  Return (s3, [Event.DecryptionRequested requestId batchId stateHash]).

Definition requestBatchSolution (env : Env) (batchId : uint256) (s : State) : Result :=
  whenNotPaused s;;
  checkCooldown env s (msg_sender env) (lastRequestAt s);;
  require (negb (submissionCount (batch_at s batchId) =? 0)) Error.InvalidBatch;;
  require (negb (has_requested s batchId (msg_sender env))) Error.InvalidState;;
  let cts := [FHE_toBytes32 (encryptedWeapon (batch_at s batchId));
              FHE_toBytes32 (encryptedRoom (batch_at s batchId));
              FHE_toBytes32 (encryptedSuspect (batch_at s batchId))] in
  let stateHash := _hashCiphertexts cts in
  let requestId := oracle_requestId env in
  let s1 := set_decryptionContexts
              (<[requestId := DecryptionContext.mk batchId (modelVersion s) stateHash false]>
                 (decryptionContexts s)) s in
  let s2 := set_hasRequested
              (<[(batchId, msg_sender env) := true]> (hasRequested s1)) s1 in
  let s3 := set_lastRequestAt
              (<[msg_sender env := block_timestamp env]> (lastRequestAt s2)) s2 in
  Return (s3, [Event.DecryptionRequested requestId batchId stateHash]).

(** *** Callbacks *)

(** [decryptionContexts[requestId].processed = true]. *)
Definition mark_processed (requestId : uint256) (s : State) : State :=
  set_decryptionContexts
    (<[requestId := set_processed true (context_at s requestId)]>
       (decryptionContexts s)) s.

Definition handleAccusationCallback (env : Env) (requestId : uint256)
    (cleartexts proof : bytes) (s : State) : Result :=
  let context := context_at s requestId in
  require (negb (DecryptionContext.processed context)) Error.AlreadyProcessed;;
  require (DecryptionContext.modelVersion context =? modelVersion s) Error.StaleVersion;;
  isCorrect ← _rebuildIsCorrect s (DecryptionContext.batchId context);
  let cts := [FHE_toBytes32 isCorrect] in
  let currHash := _hashCiphertexts cts in
  require (currHash =? DecryptionContext.stateHash context) Error.InvalidState;;
  require (FHE_checkSignatures requestId cleartexts proof) Error.ForeignRevert;;
  match abi_decode_bool cleartexts with
  | None => Revert Error.ForeignRevert
  | Some result =>
      Return (mark_processed requestId s,
              [Event.Accusation (msg_sender env) (DecryptionContext.batchId context) result])
  end.

Definition handleBatchSolutionCallback (env : Env) (requestId : uint256)
    (cleartexts proof : bytes) (s : State) : Result :=
  let context := context_at s requestId in
  require (negb (DecryptionContext.processed context)) Error.AlreadyProcessed;;
  require (DecryptionContext.modelVersion context =? modelVersion s) Error.StaleVersion;;
  '(weapon, room, suspect) ← _rebuildBatchSolution s (DecryptionContext.batchId context);
  let cts := [FHE_toBytes32 weapon; FHE_toBytes32 room; FHE_toBytes32 suspect] in
  let currHash := _hashCiphertexts cts in
  require (currHash =? DecryptionContext.stateHash context) Error.InvalidState;;
  require (FHE_checkSignatures requestId cleartexts proof) Error.ForeignRevert;;
  match abi_decode_uint256x3 cleartexts with
  | None => Revert Error.ForeignRevert
  | Some solution =>
      Return (mark_processed requestId s,
              [Event.DecryptionComplete requestId (DecryptionContext.batchId context) solution])
  end.

(** *** The external interface as one transition function *)

Inductive Call : Type :=
| AddProvider (provider : address)
| RemoveProvider (provider : address)
| Pause
| Unpause
| SetCooldown (newCooldown : uint256)
| OpenBatch
| CloseBatch (batchId : uint256)
| SubmitEncryptedGuess (batchId : uint256) (encWeapon encRoom encSuspect : euint32)
| MakeAccusation (batchId : uint256) (encWeapon encRoom encSuspect : euint32)
| RequestBatchSolution (batchId : uint256)
| HandleAccusationCallback (requestId : uint256) (cleartexts proof : bytes)
| HandleBatchSolutionCallback (requestId : uint256) (cleartexts proof : bytes).

Definition exec (env : Env) (c : Call) (s : State) : Result :=
  match c with
  | AddProvider p => addProvider env p s
  | RemoveProvider p => removeProvider env p s
  | Pause => pause env s
  | Unpause => unpause env s
  | SetCooldown n => setCooldown env n s
  | OpenBatch => openBatch env s
  | CloseBatch id => closeBatch env id s
  | SubmitEncryptedGuess id w r su => submitEncryptedGuess env id w r su s
  | MakeAccusation id w r su => makeAccusation env id w r su s
  | RequestBatchSolution id => requestBatchSolution env id s
  | HandleAccusationCallback rid ct pf => handleAccusationCallback env rid ct pf s
  | HandleBatchSolutionCallback rid ct pf => handleBatchSolutionCallback env rid ct pf s
  end.

(** Storage after a transaction: a revert rolls everything back. *)
Definition commit (s : State) (r : Result) : State :=
  match r with
  | Return (s', _) => s'
  | Revert _ => s
  end.

(** Events a transaction leaves in the log. *)
Definition emitted (r : Result) : list Event.t :=
  match r with
  | Return (_, logs) => logs
  | Revert _ => []
  end.

(** Running a list of transactions from a state. *)
Fixpoint run (txs : list (Env * Call)) (s : State) : State :=
  match txs with
  | [] => s
  | (env, c) :: rest => run rest (commit s (exec env c s))
  end.

(** States the deployed contract can be in. *)
Inductive reachable : State → Prop :=
| reachable_deploy (deployer : address) : reachable (constructor deployer)
| reachable_step (s s' : State) (env : Env) (c : Call) (logs : list Event.t) :
    reachable s → exec env c s = Return (s', logs) → reachable s'.

End Contract.

(** ** Classifying calls and outcomes *)

(** Ways a settlement can fail, as the specification lists them: the errors
  of the contract, and the unknown-request condition of step 1 of [settle]. *)
Inductive SettleFailure : Set :=
| UnknownRequest
| ContractError (e : Error.t).

(** The failure a callback's outcome amounts to, if it is one. *)
Definition failure_of (r : Result) : option SettleFailure :=
  match r with
  | Return _ => None
  | Revert e => Some (ContractError e)
  end.

(** Step 1 of [settle] in the specification's words: look the context up by
  request id and fail with the unknown-request condition if it is absent. *)
Definition spec_settle_lookup (s : State) (requestId : uint256) : option SettleFailure :=
  match decryptionContexts s !! requestId with
  | None => Some UnknownRequest
  | Some _ => None
  end.

(** The two action categories, each with a ledger of its own. *)
Inductive Category : Set := SubmissionAction | RequestAction.

(** The ledger of a category, and the other category. *)
Definition ledger (cat : Category) (s : State) : gmap N N :=
  match cat with
  | SubmissionAction => lastSubmissionAt s
  | RequestAction => lastRequestAt s
  end.

Definition other (cat : Category) : Category :=
  match cat with
  | SubmissionAction => RequestAction
  | RequestAction => SubmissionAction
  end.

(** The ledger named in a call's [checkCooldown] modifier, if it carries one. *)
Definition category_of (c : Call) : option Category :=
  match c with
  | SubmitEncryptedGuess _ _ _ _ | MakeAccusation _ _ _ _ => Some SubmissionAction
  | RequestBatchSolution _ => Some RequestAction
  | _ => None
  end.

(** The request id a callback settles. *)
Definition settles (c : Call) : option uint256 :=
  match c with
  | HandleAccusationCallback requestId _ _
  | HandleBatchSolutionCallback requestId _ _ => Some requestId
  | _ => None
  end.

(** Calls that ask the oracle for a request id. *)
Definition issues_request (c : Call) : bool :=
  match c with
  | MakeAccusation _ _ _ _ | RequestBatchSolution _ => true
  | _ => false
  end.

(** Two storages that agree on everything but the providers mapping. *)
Definition providers_aside (s1 s2 : State) : Prop :=
  set_providers (providers s2) s1 = s2.

(** Same error, or same events and storages that agree but for providers. *)
Definition same_outcome (r1 r2 : Result) : Prop :=
  match r1, r2 with
  | Return (s1, logs1), Return (s2, logs2) => providers_aside s1 s2 ∧ logs1 = logs2
  | Revert e1, Revert e2 => e1 = e2
  | _, _ => False
  end.

(** ** What the protocol leaves in storage, and predicates on it *)

Section Derived.
Context {fhe : FHEVM}.

(** Storage after an accepted submission. *)
Definition submit_post (env : Env) (batchId : uint256)
    (encWeapon encRoom encSuspect : euint32) (s : State) : State :=
  let b := batch_at s batchId in
  mkState (owner s) (paused s) (cooldownSeconds s) (currentBatchId s) (modelVersion s)
    (providers s)
    (<[msg_sender env := block_timestamp env]> (lastSubmissionAt s))
    (lastRequestAt s)
    (<[batchId := mkBatch (isOpen b) (submissionCount b + 1)
                    (FHE_add (encryptedWeapon b) encWeapon)
                    (FHE_add (encryptedRoom b) encRoom)
                    (FHE_add (encryptedSuspect b) encSuspect)
                    (submitted b)]> (batches s))
    (decryptionContexts s)
    (<[(batchId, msg_sender env) := true]> (hasSubmitted s))
    (hasRequested s).

(** The context a disclosure request stores under the oracle's request id. *)
Definition new_context (s : State) (batchId : uint256) (cts : list bytes32)
    : DecryptionContext.t :=
  DecryptionContext.mk batchId (modelVersion s) (_hashCiphertexts cts) false.

(** The ciphertext handles a request commits to: the encrypted verdict of
    an accusation, the three aggregates of a solution request. *)
Definition accusation_cts (s : State) (batchId : uint256)
    (encWeapon encRoom encSuspect : euint32) : list bytes32 :=
  let b := batch_at s batchId in
  [FHE_toBytes32 (FHE_and (FHE_and (FHE_eq (encryptedWeapon b) encWeapon)
                                   (FHE_eq (encryptedRoom b) encRoom))
                          (FHE_eq (encryptedSuspect b) encSuspect))].

Definition solution_cts (s : State) (batchId : uint256) : list bytes32 :=
  let b := batch_at s batchId in
  [FHE_toBytes32 (encryptedWeapon b); FHE_toBytes32 (encryptedRoom b);
   FHE_toBytes32 (encryptedSuspect b)].

(** Storage after an accepted accusation. *)
Definition accuse_post (env : Env) (batchId : uint256)
    (encWeapon encRoom encSuspect : euint32) (s : State) : State :=
  mkState (owner s) (paused s) (cooldownSeconds s) (currentBatchId s) (modelVersion s)
    (providers s)
    (<[msg_sender env := block_timestamp env]> (lastSubmissionAt s))
    (lastRequestAt s) (batches s)
    (<[oracle_requestId env :=
         new_context s batchId (accusation_cts s batchId encWeapon encRoom encSuspect)]>
       (decryptionContexts s))
    (<[(batchId, msg_sender env) := true]> (hasSubmitted s))
    (hasRequested s).

(** Storage after an accepted solution request. *)
Definition request_post (env : Env) (batchId : uint256) (s : State) : State :=
  mkState (owner s) (paused s) (cooldownSeconds s) (currentBatchId s) (modelVersion s)
    (providers s) (lastSubmissionAt s)
    (<[msg_sender env := block_timestamp env]> (lastRequestAt s))
    (batches s)
    (<[oracle_requestId env := new_context s batchId (solution_cts s batchId)]>
       (decryptionContexts s))
    (hasSubmitted s)
    (<[(batchId, msg_sender env) := true]> (hasRequested s)).

(** Every stored context was written under the current version. *)
Definition contexts_current (s : State) : Prop :=
  ∀ requestId ctx, decryptionContexts s !! requestId = Some ctx →
    DecryptionContext.modelVersion ctx = modelVersion s.

(** Every batch holds at most MAX_BATCH_SIZE submissions. *)
Definition within_capacity (s : State) : Prop :=
  ∀ batchId, submissionCount (batch_at s batchId) ≤ MAX_BATCH_SIZE.

(** The processed flag read through the mapping. *)
Definition is_processed (s : State) (requestId : uint256) : bool :=
  DecryptionContext.processed (context_at s requestId).

(** The oracle hands out request ids that are unique and never reused:
    along a run, every id it returns is one under which no context is
    stored yet. *)
Fixpoint oracle_fresh (txs : list (Env * Call)) (s : State) : Prop :=
  match txs with
  | [] => True
  | (env, c) :: rest =>
      (issues_request c = true → decryptionContexts s !! oracle_requestId env = None) ∧
      oracle_fresh rest (commit s (exec env c s))
  end.

(** What the protocol expects of the imported primitives: the digest has
    no collisions, a handle is determined by its bytes32 form, and
    combining contributions into a handle, however many, never gives that
    handle back (the handle of a result is a new one). *)
Definition collision_free : Prop :=
  ∀ cts cts' : list bytes32, _hashCiphertexts cts = _hashCiphertexts cts' → cts = cts'.

Definition handles_faithful : Prop :=
  ∀ h h' : N, FHE_toBytes32 h = FHE_toBytes32 h' → h = h'.

Definition combine_acyclic : Prop :=
  ∀ (a : euint32) (cs : list euint32), cs ≠ [] → foldl FHE_add a cs ≠ a.



(** A solution request that a submission has overtaken: the context is
    stored unprocessed, under the current version, with the digest of the
    aggregates [w0], [r0], [su0] the request saw, and contributions have
    been combined into the weapon aggregate since. *)
Definition overtaken (requestId batchId : uint256) (w0 r0 su0 : euint32) (s : State)
    : Prop :=
  decryptionContexts s !! requestId
    = Some (DecryptionContext.mk batchId (modelVersion s)
              (_hashCiphertexts [FHE_toBytes32 w0; FHE_toBytes32 r0; FHE_toBytes32 su0])
              false) ∧
  ∃ cs, cs ≠ [] ∧ encryptedWeapon (batch_at s batchId) = foldl FHE_add w0 cs.

End Derived.

(** The pause gate and the submission cooldown gate let [who] through at
    time [now]. *)
Definition gates_open (s : State) (who : address) (now : uint256) : Prop :=
  paused s = false ∧ now ≤ MAX_UINT256 ∧
  read 0 (lastSubmissionAt s) who + cooldownSeconds s ≤ now.

(** ** Vocabulary of the further properties *)

(** The seven functions that carry [onlyOwner]. *)
Definition is_admin (c : Call) : bool :=
  match c with
  | AddProvider _ | RemoveProvider _ | Pause | Unpause | SetCooldown _
  | OpenBatch | CloseBatch _ => true
  | _ => false
  end.

(** The errors a function can revert with, as its modifiers and body list
    them. *)
Definition may_raise (c : Call) : list Error.t :=
  match c with
  | AddProvider _ | RemoveProvider _ | Pause | Unpause | SetCooldown _ =>
      [Error.NotOwner]
  | OpenBatch => [Error.NotOwner; Error.Panic]
  | CloseBatch _ => [Error.NotOwner; Error.BatchClosed]
  | SubmitEncryptedGuess _ _ _ _ =>
      [Error.Paused; Error.Panic; Error.RateLimited; Error.BatchClosed;
       Error.BatchFull; Error.InvalidState]
  | MakeAccusation _ _ _ _ =>
      [Error.Paused; Error.Panic; Error.RateLimited; Error.BatchClosed;
       Error.InvalidState]
  | RequestBatchSolution _ =>
      [Error.Paused; Error.Panic; Error.RateLimited; Error.InvalidBatch;
       Error.InvalidState]
  | HandleAccusationCallback _ _ _ | HandleBatchSolutionCallback _ _ _ =>
      [Error.AlreadyProcessed; Error.StaleVersion; Error.InvalidState;
       Error.ForeignRevert]
  end.

(** Two storages that agree on everything but the pause flag. *)
Definition paused_aside (s1 s2 : State) : Prop :=
  set_paused (paused s2) s1 = s2.

(** Same error, or same events and storages that agree but for the pause flag. *)
Definition same_outcome_paused_aside (r1 r2 : Result) : Prop :=
  match r1, r2 with
  | Return (s1, logs1), Return (s2, logs2) => paused_aside s1 s2 ∧ logs1 = logs2
  | Revert e1, Revert e2 => e1 = e2
  | _, _ => False
  end.

(** A call is a submission to the given batch. *)
Definition submits_to (batchId : uint256) (c : Call) : bool :=
  match c with
  | SubmitEncryptedGuess id _ _ _ => id =? batchId
  | _ => false
  end.

(** Batch ids are handed out from 1 upwards: batch 0 and the batches past
    [currentBatchId] have never been written. *)
Definition ids_allocated (s : State) : Prop :=
  ∀ batchId, batchId = 0 ∨ currentBatchId s < batchId → batch_at s batchId = Batch_zero.

(** The pause gate and the request cooldown gate let [who] through at time
    [now]. *)
Definition request_gates_open (s : State) (who : address) (now : uint256) : Prop :=
  paused s = false ∧ now ≤ MAX_UINT256 ∧
  read 0 (lastRequestAt s) who + cooldownSeconds s ≤ now.

(** A run that neither submits to the batch nor settles the request. *)
Definition quiet (batchId requestId : uint256) (txs : list (Env * Call)) : Prop :=
  Forall (fun tx : Env * Call =>
            submits_to batchId tx.2 = false ∧ settles tx.2 ≠ Some requestId) txs.

(** Two contexts that differ at most in the processed flag, which does not
    go back from true to false. *)
Definition same_commitment (c1 c2 : DecryptionContext.t) : Prop :=
  DecryptionContext.batchId c2 = DecryptionContext.batchId c1 ∧
  DecryptionContext.modelVersion c2 = DecryptionContext.modelVersion c1 ∧
  DecryptionContext.stateHash c2 = DecryptionContext.stateHash c1 ∧
  (DecryptionContext.processed c1 = true → DecryptionContext.processed c2 = true).

(** The handle of the encrypted verdict [makeAccusation] computes. *)
Definition verdict {fhe : FHEVM} (s : State) (batchId : uint256)
    (encWeapon encRoom encSuspect : euint32) : ebool :=
  let b := batch_at s batchId in
  FHE_and (FHE_and (FHE_eq (encryptedWeapon b) encWeapon)
                   (FHE_eq (encryptedRoom b) encRoom))
          (FHE_eq (encryptedSuspect b) encSuspect).

(** The three aggregates of a batch are initialised handles. *)
Definition aggregates_initialized {fhe : FHEVM} (s : State) (batchId : uint256) : Prop :=
  FHE_isInitialized (encryptedWeapon (batch_at s batchId)) = true ∧
  FHE_isInitialized (encryptedRoom (batch_at s batchId)) = true ∧
  FHE_isInitialized (encryptedSuspect (batch_at s batchId)) = true.

(** A batch id that [openBatch] has handed out. *)
Definition allocated (s : State) (batchId : uint256) : Prop :=
  1 ≤ batchId ≤ currentBatchId s.

(** Every dedup mark and every stored context refers to an allocated batch. *)
Definition refers_to_allocated (s : State) : Prop :=
  (∀ batchId a, has_submitted s batchId a = true → allocated s batchId) ∧
  (∀ batchId a, has_requested s batchId a = true → allocated s batchId) ∧
  (∀ requestId ctx, decryptionContexts s !! requestId = Some ctx →
     allocated s (DecryptionContext.batchId ctx)).

(** The addresses marked as having submitted to (or accused on) a batch. *)
Definition marked (s : State) (batchId : uint256) : gmap (N * N) bool :=
  filter (fun kv : (N * N) * bool => kv.1.1 = batchId ∧ kv.2 = true) (hasSubmitted s).

(** The callback that does not belong to a request: the solution callback
    for an accusation, the accusation callback for a solution request. *)
Definition other_callback (c : Call) (requestId : uint256) (cleartexts proof : bytes)
    : Call :=
  match c with
  | MakeAccusation _ _ _ _ => HandleBatchSolutionCallback requestId cleartexts proof
  | _ => HandleAccusationCallback requestId cleartexts proof
  end.

(** Where the digest of a stored context comes from: the encrypted verdict
    of an accusation, or the three handles of a solution request. *)
Definition from_accusation {fhe : FHEVM} (ctx : DecryptionContext.t) : Prop :=
  ∃ a w b r c su : euint32,
    DecryptionContext.stateHash ctx
    = _hashCiphertexts [FHE_toBytes32 (FHE_and (FHE_and (FHE_eq a w) (FHE_eq b r))
                                               (FHE_eq c su))].

Definition from_solution_request {fhe : FHEVM} (ctx : DecryptionContext.t) : Prop :=
  ∃ x y z : bytes32, DecryptionContext.stateHash ctx = _hashCiphertexts [x; y; z].

Definition contexts_have_origin {fhe : FHEVM} (s : State) : Prop :=
  ∀ requestId ctx, decryptionContexts s !! requestId = Some ctx →
    from_accusation ctx ∨ from_solution_request ctx.

(** The handle of an encrypted verdict is never the handle of the
    constant false. *)
Definition verdicts_fresh {fhe : FHEVM} : Prop :=
  ∀ a w b r c su : euint32,
    FHE_and (FHE_and (FHE_eq a w) (FHE_eq b r)) (FHE_eq c su) ≠ FHE_asEbool false.

(** An Accusation event. *)
Definition is_Accusation (e : Event.t) : bool :=
  match e with
  | Event.Accusation _ _ _ => true
  | _ => false
  end.

(** ** The web client (App.tsx): the pure computations of the component

  The component keeps the game in a key-value store behind an ethers
  contract handle and draws it with React; what is embedded here are the
  computations it performs on the stored values.  JavaScript strings are
  [string]; the number type and the built-ins [toString], [parseFloat],
  [btoa] and [atob] are the interface [JSRuntime]. *)

Module Frontend.

Definition SUSPECTS : list string :=
  ["Miss Scarlet"; "Colonel Mustard"; "Mrs. White"; "Mr. Green"; "Mrs. Peacock";
   "Professor Plum"]%string.
Definition WEAPONS : list string :=
  ["Candlestick"; "Dagger"; "Lead Pipe"; "Revolver"; "Rope"; "Wrench"]%string.
Definition ROOMS : list string :=
  ["Kitchen"; "Ballroom"; "Conservatory"; "Dining Room"; "Billiard Room"; "Library";
   "Lounge"; "Hall"; "Study"]%string.

Record EncryptedGameState : Type := mkGame {
  murderer : string;
  game_weapon : string;
  game_room : string
}.

Record PlayerAccusation : Type := mkAccusation {
  player : string;
  suspect : string;
  weapon : string;
  room : string;
  timestamp : Z;
  (* boolean | null *)
  isCorrect : option bool
}.

(** The built-ins the component calls.  [None] stands for a call that
    throws. *)
Class JSRuntime : Type := {
  number : Type;
(** An integer as a number. *)
  Number_of_Z : Z → number;
(** [===] on numbers. *)
  strict_eq : number → number → bool;
  Number_toString : number → string;
  parseFloat : string → number;
  btoa : string → option string;
  atob : string → option string
}.

Section Client.
Context {js : JSRuntime}.

(** [`FHE-${btoa(value.toString())}`]. *)
Definition FHEEncryptNumber (value : number) : option string :=
  b ← btoa (Number_toString value);
  Some ("FHE-" +:+ b).

(** [encryptedData.substring(4)]. *)
Definition substring_from (n : nat) (s : string) : string :=
  String.substring n (String.length s - n) s.

Definition FHEDecryptNumber (encryptedData : string) : option number :=
  if String.prefix "FHE-" encryptedData then
    s ← atob (substring_from 4 encryptedData);
    Some (parseFloat s)
  else Some (parseFloat encryptedData).

(** [arr.indexOf(x)]: the first position of [x], or -1. *)
Fixpoint indexOf (arr : list string) (x : string) : Z :=
  match arr with
  | [] => -1
  | y :: rest =>
      if decide (y = x) then 0
      else let i := indexOf rest x in if decide (i = -1) then -1 else (1 + i)
  end%Z.

(** The statistics drawn by [renderStats]. *)
Definition correctCount (accusations : list PlayerAccusation) : nat :=
  length (filter (λ a, isCorrect a = Some true) accusations).
Definition incorrectCount (accusations : list PlayerAccusation) : nat :=
  length (filter (λ a, isCorrect a = Some false) accusations).
Definition pendingCount (accusations : list PlayerAccusation) : nat :=
  length (filter (λ a, isCorrect a = None) accusations).

(** The solution [initializeGame] stores for the names it drew. *)
Definition encrypt_solution (randomMurderer randomWeapon randomRoom : string)
    : option EncryptedGameState :=
  encryptedMurderer ← FHEEncryptNumber (Number_of_Z (indexOf SUSPECTS randomMurderer));
  encryptedWeapon ← FHEEncryptNumber (Number_of_Z (indexOf WEAPONS randomWeapon));
  encryptedRoom ← FHEEncryptNumber (Number_of_Z (indexOf ROOMS randomRoom));
  Some (mkGame encryptedMurderer encryptedWeapon encryptedRoom).

(** What [submitAccusation] stores under the key accusations, the wallet
    and the store answering: nothing ([None]) when the wallet is not
    connected or a part of the accusation has not been chosen (an empty
    string); otherwise the list read from the store with a pending entry
    pushed on it.  [address] is the connected account, if any; [accList]
    is the list read from the store (empty when nothing is stored or it
    does not parse); [now] is Math.floor(Date.now() / 1000). *)
Definition submitted (isConnected : bool) (address : option string)
    (newSuspect newWeapon newRoom : string) (accList : list PlayerAccusation) (now : Z)
    : option (list PlayerAccusation) :=
  if negb isConnected then None
  else if bool_decide (newSuspect = "") || bool_decide (newWeapon = "")
          || bool_decide (newRoom = "") then None
  else Some (accList ++
             [mkAccusation (default "" address) newSuspect newWeapon newRoom now None]).

(** The verdict [verifyAccusation] computes; [&&] evaluates its right
    operand only when the left one is true. *)
Definition verdict_of (game : EncryptedGameState) (acc : PlayerAccusation)
    : option bool :=
  let suspectIndex := Number_of_Z (indexOf SUSPECTS (suspect acc)) in
  let weaponIndex := Number_of_Z (indexOf WEAPONS (weapon acc)) in
  let roomIndex := Number_of_Z (indexOf ROOMS (room acc)) in
  m ← FHEDecryptNumber (murderer game);
  if strict_eq m suspectIndex then
    w ← FHEDecryptNumber (game_weapon game);
    if strict_eq w weaponIndex then
      r ← FHEDecryptNumber (game_room game);
      Some (strict_eq r roomIndex)
    else Some false
  else Some false.

(** [accList[index].isCorrect = isCorrect]. *)
Definition set_isCorrect (v : bool) (acc : PlayerAccusation) : PlayerAccusation :=
  mkAccusation (player acc) (suspect acc) (weapon acc) (room acc) (timestamp acc) (Some v).

(** What [verifyAccusation] stores back under the key accusations, the
    wallet and the store answering: nothing ([None]) when the wallet is
    not connected, when a part of the solution is missing from the store
    (an empty string), when [accList[index]] does not exist, or when
    decrypting throws. *)
Definition verified (isConnected : bool) (game : EncryptedGameState)
    (accList : list PlayerAccusation) (index : nat) : option (list PlayerAccusation) :=
  if negb isConnected then None
  else if bool_decide (murderer game = "") || bool_decide (game_weapon game = "")
          || bool_decide (game_room game = "") then None
  else acc ← accList !! index;
       v ← verdict_of game acc;
       Some (<[index := set_isCorrect v acc]> accList).

(** What the component expects of the built-ins on the indices it
    encodes: base64 and the decimal numeral of an index can be read back,
    and [===] on indices is equality. *)
Definition indices_round_trip : Prop :=
  ∀ i : Z, (-1 ≤ i < 9)%Z →
    (∃ b, btoa (Number_toString (Number_of_Z i)) = Some b ∧
          atob b = Some (Number_toString (Number_of_Z i))) ∧
    parseFloat (Number_toString (Number_of_Z i)) = Number_of_Z i ∧
    ∀ j : Z, (-1 ≤ j < 9)%Z →
      strict_eq (Number_of_Z i) (Number_of_Z j) = bool_decide (i = j).

End Client.

(** A test double of the built-ins: numbers are integers or NaN, base64
    is the identity. *)
Module PlainJS.
Definition read_index (s : string) : option Z :=
  snd <$> list_find (λ i : Z, pretty i = s) (seqZ (-1) 10).

#[local] Instance js : JSRuntime := {|
  number := option Z;
  Number_of_Z i := Some i;
  strict_eq a b := match a, b with Some x, Some y => bool_decide (x = y) | _, _ => false end;
  Number_toString v := match v with Some i => pretty i | None => "NaN"%string end;
  parseFloat := read_index;
  btoa s := Some s;
  atob s := Some s
|}.
End PlainJS.

End Frontend.

(** ** A plaintext test double of the fhEVM library

  Handles are plain numbers; 0 is the handle of a slot never written.
  Every operation returns a handle strictly above its operands, the
  digest is an injective encoding, and every proof verifies. *)

Module Plain.
Definition digest (cts : list N) (a : N) : N := Npos (encode (cts, a)).

Definition decode_bool (bs : list N) : option bool :=
  match bs with
  | [b] => Some (negb (b =? 0))
  | _ => None
  end.

Definition decode_uint256x3 (bs : list N) : option (N * N * N) :=
  match bs with
  | [a; b; c] => Some (a, b, c)
  | _ => None
  end.

#[local] Instance fhe : FHEVM := {|
  FHE_add a b := a + b + 1;
  FHE_eq a b := a + b + 1;
  FHE_and a b := a + b + 1;
  FHE_asEuint32 v := v + 1;
  FHE_asEbool b := if b then 2 else 1;
  FHE_isInitialized x := negb (x =? 0);
  FHE_toBytes32 h := h;
  FHE_checkSignatures _ _ _ := true;
  keccak256_encode := digest;
  abi_decode_bool := decode_bool;
  abi_decode_uint256x3 := decode_uint256x3;
  address_this := 4096
|}.
End Plain.

(** ** The test double with the library's treatment of unset operands

  As [Plain], but [FHE.add] replaces an operand that is not initialised
  by the handle of FHE.asEuint32(0) before it combines. *)

Module Normalising.
Definition initialised (x : N) : N := if x =? 0 then 1 else x.

#[local] Instance fhe : FHEVM := {|
  FHE_add a b := initialised a + initialised b + 1;
  FHE_eq a b := a + b + 1;
  FHE_and a b := a + b + 1;
  FHE_asEuint32 v := v + 1;
  FHE_asEbool b := if b then 2 else 1;
  FHE_isInitialized x := negb (x =? 0);
  FHE_toBytes32 h := h;
  FHE_checkSignatures _ _ _ := true;
  keccak256_encode := Plain.digest;
  abi_decode_bool := Plain.decode_bool;
  abi_decode_uint256x3 := Plain.decode_uint256x3;
  address_this := 4096
|}.
End Normalising.

(** ** Concrete runs used as examples *)

Module Scenario.
Definition admin : address := 1.
Definition alice : address := 2.
Definition bob : address := 3.

(** Batch 1 freshly opened by the owner at time 1000. *)
Definition opened {fhe : FHEVM} : State :=
  run [(mkEnv admin 1000 0, OpenBatch)] (constructor admin).

(** Alice has contributed (5, 6, 7) to batch 1 at time 2000. *)
Definition one_submission {fhe : FHEVM} : State :=
  run [(mkEnv alice 2000 0, SubmitEncryptedGuess 1 5 6 7)] opened.

(** Bob has asked for the solution of batch 1 at time 2000; the oracle
    answered with request id 77. *)
Definition solution_requested {fhe : FHEVM} : State :=
  run [(mkEnv bob 2000 77, RequestBatchSolution 1)] one_submission.

(** Ten distinct players have filled batch 1. *)
Definition full {fhe : FHEVM} : State :=
  run (map (fun who => (mkEnv who 2000 0, SubmitEncryptedGuess 1 5 6 7))
           [2; 3; 4; 5; 6; 7; 8; 9; 10; 11]) opened.

Definition carol : address := 4.
Definition oracle_node : address := 9.

(** The owner pauses the contract after batch 1 was opened. *)
Definition opened_paused {fhe : FHEVM} : State := run [(mkEnv admin 1500 0, Pause)] opened.
(** The owner pauses the contract five seconds after Alice's submission. *)
Definition one_submission_paused {fhe : FHEVM} : State :=
  run [(mkEnv admin 2005 0, Pause)] one_submission.
(** The owner sets the largest cooldown a uint256 can hold. *)
Definition one_submission_max_cooldown {fhe : FHEVM} : State :=
  run [(mkEnv admin 2005 0, SetCooldown MAX_UINT256)] one_submission.
(** The owner closes batch 1 after Alice's submission. *)
Definition one_submission_closed {fhe : FHEVM} : State :=
  run [(mkEnv admin 2100 0, CloseBatch 1)] one_submission.
(** The owner pauses the contract once batch 1 is full. *)
Definition full_paused {fhe : FHEVM} : State := run [(mkEnv admin 2500 0, Pause)] full.
(** Carol contributes to batch 1 after Bob's request went out. *)
Definition submission_after_request {fhe : FHEVM} : State :=
  run [(mkEnv carol 2500 0, SubmitEncryptedGuess 1 1 2 3)] solution_requested.
(** Bob's request is settled by the oracle's callback. *)
Definition settled {fhe : FHEVM} : State :=
  run [(mkEnv oracle_node 3000 0, HandleBatchSolutionCallback 77 [1; 2; 3] [])]
      solution_requested.
(** What happens after the settlement: Alice requests the solution too
    (request id 78) and the owner closes the batch. *)
Definition afterwards : list (Env * Call) :=
  [(mkEnv alice 5000 78, RequestBatchSolution 1); (mkEnv admin 6000 0, CloseBatch 1)].

(** The owner registers provider 7 after opening batch 1. *)
Definition with_provider {fhe : FHEVM} : State :=
  run [(mkEnv admin 1200 0, AddProvider 7)] opened.
(** Bob accuses on batch 1 after Alice's submission; the oracle answered
    with request id 80. *)
Definition accused {fhe : FHEVM} : State :=
  run [(mkEnv bob 2000 80, MakeAccusation 1 5 6 7)] one_submission.
(** After Bob's request: Carol accuses (request id 81), the owner closes
    the batch and pauses the contract. *)
Definition meanwhile : list (Env * Call) :=
  [(mkEnv carol 2500 81, MakeAccusation 1 1 2 3);
   (mkEnv admin 2600 0, CloseBatch 1);
   (mkEnv admin 2700 0, Pause)].
(** After closing: the owner opens batch 2 and Bob tries to submit to
    batch 1. *)
Definition after_closing : list (Env * Call) :=
  [(mkEnv admin 3000 0, OpenBatch);
   (mkEnv bob 3100 0, SubmitEncryptedGuess 1 5 6 7)].
(** After Carol's submission: Alice tries to settle Bob's request with
    the accusation callback, a fifth player contributes, and the oracle
    tries to settle the request. *)
Definition after_submission : list (Env * Call) :=
  [(mkEnv alice 2550 0, HandleAccusationCallback 77 [1] []);
   (mkEnv 5 2600 0, SubmitEncryptedGuess 1 4 4 4);
   (mkEnv oracle_node 2700 0, HandleBatchSolutionCallback 77 [1; 2; 3] [])].
End Scenario.

(** * Proofs *)

(** ** Basic facts *)

Section Facts.
Context {fhe : FHEVM}.

Lemma read_insert_eq {K V : Type} `{Countable K} (zero v : V) (m : gmap K V) (k : K) :
  read zero (<[k := v]> m) k = v.
Proof. unfold read. by rewrite lookup_insert_eq. Qed.

Lemma read_insert_ne {K V : Type} `{Countable K} (zero v : V) (m : gmap K V) (k k' : K) :
  k ≠ k' → read zero (<[k := v]> m) k' = read zero m k'.
Proof. intros Hne. unfold read. by rewrite lookup_insert_ne. Qed.

Lemma read_absent {K V : Type} `{Countable K} (zero : V) (m : gmap K V) (k : K) :
  m !! k = None → read zero m k = zero.
Proof. intros Hk. unfold read. by rewrite Hk. Qed.

Lemma bind_Return {A B : Type} (m : outcome A) (k : A → outcome B) (b : B) :
  m ≫= k = Return b ↔ ∃ a, m = Return a ∧ k a = Return b.
Proof.
  destruct m as [a|e]; simpl; split.
  - intros Hk. by exists a.
  - intros (a' & Ha & Hk). by simplify_eq.
  - discriminate.
  - intros (a' & Ha & _). discriminate.
Qed.

Lemma require_Return (c : bool) (e : Error.t) (u : unit) :
  require c e = Return u ↔ c = true.
Proof. destruct c, u; simpl; split; (done || discriminate). Qed.

Lemma require_Revert (c : bool) (e e' : Error.t) :
  require c e = Revert e' ↔ c = false ∧ e = e'.
Proof.
  destruct c; simpl; split; try discriminate.
  - intros [? _]. discriminate.
  - intros [=]. done.
  - intros [_ ->]. done.
Qed.

Lemma checked_add_Some (a b n : N) :
  checked_add a b = Some n ↔ a + b ≤ MAX_UINT256 ∧ n = a + b.
Proof.
  unfold checked_add. destruct (N.leb_spec (a + b) MAX_UINT256); split.
  - intros [=]. done.
  - intros [_ ->]. done.
  - discriminate.
  - intros [? _]. lia.
Qed.

Lemma checked_add_None (a b : N) :
  checked_add a b = None ↔ MAX_UINT256 < a + b.
Proof.
  unfold checked_add. destruct (N.leb_spec (a + b) MAX_UINT256); split;
    (done || discriminate || lia).
Qed.

(** The cooldown gate, read off the modifier. *)
Lemma checkCooldown_Return env s caller ledger u :
  checkCooldown env s caller ledger = Return u ↔
  read 0 ledger caller + cooldownSeconds s ≤ MAX_UINT256 ∧
  read 0 ledger caller + cooldownSeconds s ≤ block_timestamp env.
Proof.
  unfold checkCooldown.
  destruct (checked_add _ _) as [d|] eqn:Hd.
  - apply checked_add_Some in Hd as [Hle ->].
    rewrite require_Return, negb_true_iff, N.ltb_ge.
    split; [intros Hnow; split; assumption | intros [_ Hnow]; assumption].
  - apply checked_add_None in Hd. split; [discriminate | lia].
Qed.

Lemma checkCooldown_Revert env s caller ledger e :
  checkCooldown env s caller ledger = Revert e ↔
  (MAX_UINT256 < read 0 ledger caller + cooldownSeconds s ∧ e = Error.Panic) ∨
  (read 0 ledger caller + cooldownSeconds s ≤ MAX_UINT256 ∧
   block_timestamp env < read 0 ledger caller + cooldownSeconds s ∧
   e = Error.RateLimited).
Proof.
  unfold checkCooldown.
  destruct (checked_add _ _) as [d|] eqn:Hd.
  - apply checked_add_Some in Hd as [Hle ->].
    rewrite require_Revert, negb_false_iff, N.ltb_lt. split.
    + intros [? <-]. right. done.
    + intros [[? _] | (_ & ? & ->)]; [lia | done].
  - apply checked_add_None in Hd. split.
    + intros [= <-]. left. done.
    + intros [[_ ->] | (? & _)]; [done | lia].
Qed.

End Facts.

(** ** What each transaction does when it goes through *)

(** Reduce projections applied to record constructors, and nothing else. *)
Ltac fields :=
  cbn [owner paused cooldownSeconds currentBatchId modelVersion providers
     lastSubmissionAt lastRequestAt batches decryptionContexts hasSubmitted
     hasRequested isOpen submissionCount encryptedWeapon encryptedRoom
     encryptedSuspect submitted DecryptionContext.batchId
     DecryptionContext.modelVersion DecryptionContext.stateHash
     DecryptionContext.processed
     set_paused set_cooldownSeconds set_currentBatchId set_providers
     set_lastSubmissionAt set_lastRequestAt set_batches set_decryptionContexts
     set_hasSubmitted set_hasRequested set_isOpen set_submissionCount
     set_encryptedWeapon set_encryptedRoom set_encryptedSuspect set_processed] in *.

(** Peel the guards off a successful call, first to last. *)
Ltac peel H :=
  repeat match type of H with
  | _ ≫= _ = Return _ =>
    let u := fresh "u" in
    let Hg := fresh "Hg" in
    apply bind_Return in H as (u & Hg & H)
  end.

Section Transitions.
Context {fhe : FHEVM}.

Lemma batch_at_submit_post env batchId w r su s :
  batch_at (submit_post env batchId w r su s) batchId =
  mkBatch (isOpen (batch_at s batchId)) (submissionCount (batch_at s batchId) + 1)
    (FHE_add (encryptedWeapon (batch_at s batchId)) w)
    (FHE_add (encryptedRoom (batch_at s batchId)) r)
    (FHE_add (encryptedSuspect (batch_at s batchId)) su)
    (submitted (batch_at s batchId)).
Proof. unfold batch_at at 1, submit_post. fields. by rewrite read_insert_eq. Qed.

Lemma batch_at_submit_post_ne env batchId batchId' w r su s :
  batchId ≠ batchId' →
  batch_at (submit_post env batchId w r su s) batchId' = batch_at s batchId'.
Proof.
  intros Hne. unfold batch_at at 1, submit_post. fields. by rewrite read_insert_ne.
Qed.

Lemma whenNotPaused_Return s u : whenNotPaused s = Return u ↔ paused s = false.
Proof. unfold whenNotPaused. by rewrite require_Return, negb_true_iff. Qed.

Lemma onlyOwner_Return env s u : onlyOwner env s = Return u ↔ msg_sender env = owner s.
Proof. unfold onlyOwner. by rewrite require_Return, N.eqb_eq. Qed.

Lemma submitEncryptedGuess_Return env batchId w r su s s' logs :
  submitEncryptedGuess env batchId w r su s = Return (s', logs) →
  paused s = false ∧
  read 0 (lastSubmissionAt s) (msg_sender env) + cooldownSeconds s ≤ block_timestamp env ∧
  isOpen (batch_at s batchId) = true ∧
  submissionCount (batch_at s batchId) < MAX_BATCH_SIZE ∧
  has_submitted s batchId (msg_sender env) = false ∧
  s' = submit_post env batchId w r su s.
Proof.
  unfold submitEncryptedGuess. intros H. peel H.
  apply whenNotPaused_Return in Hg.
  apply checkCooldown_Return in Hg0 as [_ Hcd].
  apply require_Return in Hg1, Hg2, Hg3.
  apply negb_true_iff in Hg2, Hg3. apply N.leb_gt in Hg2.
  destruct (checked_add _ _) as [n|] eqn:Hn; [|discriminate].
  apply checked_add_Some in Hn as [_ ->].
  injection H as <- <-.
  repeat split; try done.
  clear. destruct s. unfold submit_post, update_batch, batch_at.
  fields. rewrite !read_insert_eq. fields.
  destruct (read Batch_zero _ batchId). fields.
  rewrite !insert_insert_eq. reflexivity.
Qed.

Lemma makeAccusation_Return env batchId w r su s s' logs :
  makeAccusation env batchId w r su s = Return (s', logs) →
  paused s = false ∧
  read 0 (lastSubmissionAt s) (msg_sender env) + cooldownSeconds s ≤ block_timestamp env ∧
  isOpen (batch_at s batchId) = true ∧
  has_submitted s batchId (msg_sender env) = false ∧
  s' = accuse_post env batchId w r su s.
Proof.
  unfold makeAccusation. intros H. peel H.
  apply whenNotPaused_Return in Hg.
  apply checkCooldown_Return in Hg0 as [_ Hcd].
  apply require_Return in Hg1, Hg2.
  apply negb_true_iff in Hg2.
  injection H as <- <-. repeat split; try done.
  clear. by destruct s.
Qed.

Lemma requestBatchSolution_Return env batchId s s' logs :
  requestBatchSolution env batchId s = Return (s', logs) →
  paused s = false ∧
  read 0 (lastRequestAt s) (msg_sender env) + cooldownSeconds s ≤ block_timestamp env ∧
  submissionCount (batch_at s batchId) ≠ 0 ∧
  has_requested s batchId (msg_sender env) = false ∧
  s' = request_post env batchId s.
Proof.
  unfold requestBatchSolution. intros H. peel H.
  apply whenNotPaused_Return in Hg.
  apply checkCooldown_Return in Hg0 as [_ Hcd].
  apply require_Return in Hg1, Hg2.
  apply negb_true_iff in Hg1, Hg2. apply N.eqb_neq in Hg1.
  injection H as <- <-. repeat split; try done.
  clear. by destruct s.
Qed.

Lemma handleAccusationCallback_Return env requestId cleartexts proof s s' logs :
  handleAccusationCallback env requestId cleartexts proof s = Return (s', logs) →
  DecryptionContext.processed (context_at s requestId) = false ∧
  DecryptionContext.modelVersion (context_at s requestId) = modelVersion s ∧
  s' = mark_processed requestId s.
Proof.
  unfold handleAccusationCallback. intros H. peel H.
  apply require_Return in Hg, Hg0.
  apply negb_true_iff in Hg. apply N.eqb_eq in Hg0.
  destruct (abi_decode_bool _); [|discriminate].
  injection H as <- <-. done.
Qed.

Lemma handleBatchSolutionCallback_Return env requestId cleartexts proof s s' logs :
  handleBatchSolutionCallback env requestId cleartexts proof s = Return (s', logs) →
  DecryptionContext.processed (context_at s requestId) = false ∧
  DecryptionContext.modelVersion (context_at s requestId) = modelVersion s ∧
  s' = mark_processed requestId s.
Proof.
  unfold handleBatchSolutionCallback. intros H. peel H.
  apply require_Return in Hg, Hg0.
  apply negb_true_iff in Hg. apply N.eqb_eq in Hg0.
  destruct u1 as [[weapon room] suspect].
  peel H.
  destruct (abi_decode_uint256x3 _); [|discriminate].
  injection H as <- <-. done.
Qed.

(** Owner-only calls. *)
Lemma owner_call_Return env (s s1 s' : State) (logs logs' : list Event.t) :
  (onlyOwner env s;; Return (s1, logs)) = Return (s', logs') →
  msg_sender env = owner s ∧ s' = s1.
Proof.
  intros H. peel H. apply onlyOwner_Return in Hg. injection H as <- <-. done.
Qed.

Lemma openBatch_Return env s s' logs :
  openBatch env s = Return (s', logs) →
  msg_sender env = owner s ∧
  s' = update_batch (currentBatchId s + 1) (set_isOpen true)
         (set_currentBatchId (currentBatchId s + 1) s).
Proof.
  unfold openBatch. intros H. peel H. apply onlyOwner_Return in Hg.
  destruct (checked_add _ _) as [n|] eqn:Hn; [|discriminate].
  apply checked_add_Some in Hn as [_ ->]. injection H as <- <-. done.
Qed.

Lemma closeBatch_Return env batchId s s' logs :
  closeBatch env batchId s = Return (s', logs) →
  msg_sender env = owner s ∧ isOpen (batch_at s batchId) = true ∧
  s' = update_batch batchId (set_isOpen false) s.
Proof.
  unfold closeBatch. intros H. peel H. apply onlyOwner_Return in Hg.
  apply require_Return in Hg0. injection H as <- <-. done.
Qed.

End Transitions.

(** ** Guards that let a call through, guards that stop it *)

Section Guards.
Context {fhe : FHEVM}.

Lemma require_true (c : bool) (e : Error.t) : c = true → require c e = Return tt.
Proof. by intros ->. Qed.

Lemma require_false (c : bool) (e : Error.t) : c = false → require c e = Revert e.
Proof. by intros ->. Qed.

Lemma whenNotPaused_pass s : paused s = false → whenNotPaused s = Return tt.
Proof. intros Hp. by apply whenNotPaused_Return. Qed.

Lemma whenNotPaused_stop s : paused s = true → whenNotPaused s = Revert Error.Paused.
Proof. unfold whenNotPaused. by intros ->. Qed.

Lemma checkCooldown_pass env s caller ledger :
  block_timestamp env ≤ MAX_UINT256 →
  read 0 ledger caller + cooldownSeconds s ≤ block_timestamp env →
  checkCooldown env s caller ledger = Return tt.
Proof. intros Hnow Hcd. apply checkCooldown_Return. split; lia. Qed.

Lemma checkCooldown_stop env s caller ledger :
  read 0 ledger caller + cooldownSeconds s ≤ MAX_UINT256 →
  block_timestamp env < read 0 ledger caller + cooldownSeconds s →
  checkCooldown env s caller ledger = Revert Error.RateLimited.
Proof. intros Hfit Hcd. apply checkCooldown_Revert. right. done. Qed.

Lemma batch_at_update_batch_eq s batchId f :
  batch_at (update_batch batchId f s) batchId = f (batch_at s batchId).
Proof. destruct s. unfold batch_at, update_batch. fields. by rewrite read_insert_eq. Qed.

Lemma batch_at_update_batch_ne s batchId batchId' f :
  batchId ≠ batchId' →
  batch_at (update_batch batchId f s) batchId' = batch_at s batchId'.
Proof.
  intros Hne. destruct s. unfold batch_at, update_batch. fields.
  by rewrite read_insert_ne.
Qed.

(** Both callbacks stop at the same two guards before looking at anything else. *)
Lemma callbacks_already_processed env requestId cleartexts proof s :
  DecryptionContext.processed (context_at s requestId) = true →
  handleAccusationCallback env requestId cleartexts proof s = Revert Error.AlreadyProcessed ∧
  handleBatchSolutionCallback env requestId cleartexts proof s = Revert Error.AlreadyProcessed.
Proof.
  intros Hp. unfold handleAccusationCallback, handleBatchSolutionCallback.
  rewrite Hp. done.
Qed.

Lemma callbacks_stale env requestId cleartexts proof s :
  DecryptionContext.processed (context_at s requestId) = false →
  DecryptionContext.modelVersion (context_at s requestId) ≠ modelVersion s →
  handleAccusationCallback env requestId cleartexts proof s = Revert Error.StaleVersion ∧
  handleBatchSolutionCallback env requestId cleartexts proof s = Revert Error.StaleVersion.
Proof.
  intros Hp Hv. apply N.eqb_neq in Hv.
  unfold handleAccusationCallback, handleBatchSolutionCallback.
  rewrite Hp, Hv. done.
Qed.

End Guards.

(** ** Invariants of the reachable states *)

Section Invariants.
Context {fhe : FHEVM}.

(** No transaction writes [modelVersion]. *)
Lemma exec_modelVersion env c s s' logs :
  exec env c s = Return (s', logs) → modelVersion s' = modelVersion s.
Proof.
  destruct c; simpl; intros H.
  1-5: by apply owner_call_Return in H as [_ ->]; destruct s.
  - by apply openBatch_Return in H as [_ ->]; destruct s.
  - by apply closeBatch_Return in H as (_ & _ & ->); destruct s.
  - by apply submitEncryptedGuess_Return in H as (_ & _ & _ & _ & _ & ->).
  - by apply makeAccusation_Return in H as (_ & _ & _ & _ & ->).
  - by apply requestBatchSolution_Return in H as (_ & _ & _ & _ & ->).
  - by apply handleAccusationCallback_Return in H as (_ & _ & ->); destruct s.
  - by apply handleBatchSolutionCallback_Return in H as (_ & _ & ->); destruct s.
Qed.

Lemma reachable_modelVersion s : reachable s → modelVersion s = 1.
Proof.
  induction 1 as [deployer | s s' env c logs _ IH Hstep]; [done|].
  by rewrite (exec_modelVersion _ _ _ _ _ Hstep).
Qed.

Lemma contexts_current_insert s requestId ctx s' :
  contexts_current s →
  DecryptionContext.modelVersion ctx = modelVersion s →
  modelVersion s' = modelVersion s →
  decryptionContexts s' = <[requestId := ctx]> (decryptionContexts s) →
  contexts_current s'.
Proof.
  intros Hs Hctx Hv Hd rid ctx'. rewrite Hd, Hv.
  destruct (decide (requestId = rid)) as [->|Hne].
  - rewrite lookup_insert_eq. by intros [= <-].
  - rewrite lookup_insert_ne by done. apply Hs.
Qed.

Lemma contexts_current_frame s s' :
  decryptionContexts s' = decryptionContexts s →
  modelVersion s' = modelVersion s →
  contexts_current s → contexts_current s'.
Proof. intros Hd Hv Hs rid ctx. rewrite Hd, Hv. apply Hs. Qed.

Lemma exec_contexts_current env c s s' logs :
  contexts_current s → exec env c s = Return (s', logs) → contexts_current s'.
Proof.
  intros Hs. destruct c; simpl; intros H.
  1-5: apply owner_call_Return in H as [_ ->];
       by apply (contexts_current_frame s); [destruct s..|].
  - apply openBatch_Return in H as [_ ->].
    by apply (contexts_current_frame s); [destruct s..|].
  - apply closeBatch_Return in H as (_ & _ & ->).
    by apply (contexts_current_frame s); [destruct s..|].
  - apply submitEncryptedGuess_Return in H as (_ & _ & _ & _ & _ & ->).
    by apply (contexts_current_frame s).
  - apply makeAccusation_Return in H as (_ & _ & _ & _ & ->).
    by eapply (contexts_current_insert s (oracle_requestId env) (new_context s batchId _)).
  - apply requestBatchSolution_Return in H as (_ & _ & _ & _ & ->).
    by eapply (contexts_current_insert s (oracle_requestId env) (new_context s batchId _)).
  - apply handleAccusationCallback_Return in H as (_ & Hv & ->).
    apply (contexts_current_insert s requestId
             (set_processed true (context_at s requestId))); [done | | |].
    + by destruct (context_at s requestId).
    + by destruct s.
    + by destruct s.
  - apply handleBatchSolutionCallback_Return in H as (_ & Hv & ->).
    apply (contexts_current_insert s requestId
             (set_processed true (context_at s requestId))); [done | | |].
    + by destruct (context_at s requestId).
    + by destruct s.
    + by destruct s.
Qed.

Lemma reachable_contexts_current s : reachable s → contexts_current s.
Proof.
  induction 1 as [deployer | s s' env c logs _ IH Hstep].
  - intros rid ctx. simpl. by rewrite lookup_empty.
  - by eapply exec_contexts_current.
Qed.

Lemma within_capacity_update s batchId f :
  within_capacity s →
  submissionCount (f (batch_at s batchId)) ≤ MAX_BATCH_SIZE →
  within_capacity (update_batch batchId f s).
Proof.
  intros Hs Hf id. destruct (decide (batchId = id)) as [<-|Hne].
  - by rewrite batch_at_update_batch_eq.
  - rewrite batch_at_update_batch_ne by done. apply Hs.
Qed.

Lemma within_capacity_frame s s' :
  batches s' = batches s → within_capacity s → within_capacity s'.
Proof. intros Hb Hs id. unfold batch_at. rewrite Hb. apply Hs. Qed.

Lemma exec_within_capacity env c s s' logs :
  within_capacity s → exec env c s = Return (s', logs) → within_capacity s'.
Proof.
  intros Hs. destruct c; simpl; intros H.
  1-5: apply owner_call_Return in H as [_ ->];
       by apply (within_capacity_frame s); [destruct s|].
  - apply openBatch_Return in H as [_ ->].
    apply within_capacity_update.
    + by apply (within_capacity_frame s); [destruct s|].
    + replace (batch_at (set_currentBatchId _ s)) with (batch_at s)
        by (by destruct s).
      destruct (batch_at s _) eqn:Hb. fields.
      specialize (Hs (currentBatchId s + 1)). by rewrite Hb in Hs.
  - apply closeBatch_Return in H as (_ & _ & ->).
    apply within_capacity_update; [done|].
    destruct (batch_at s _) eqn:Hb. fields.
    specialize (Hs batchId). by rewrite Hb in Hs.
  - apply submitEncryptedGuess_Return in H as (_ & _ & _ & Hlt & _ & ->).
    intros id. destruct (decide (batchId = id)) as [<-|Hne].
    + rewrite batch_at_submit_post. fields. unfold MAX_BATCH_SIZE in *. lia.
    + rewrite batch_at_submit_post_ne by done. apply Hs.
  - apply makeAccusation_Return in H as (_ & _ & _ & _ & ->).
    by apply (within_capacity_frame s).
  - apply requestBatchSolution_Return in H as (_ & _ & _ & _ & ->).
    by apply (within_capacity_frame s).
  - apply handleAccusationCallback_Return in H as (_ & _ & ->).
    by apply (within_capacity_frame s); [destruct s|].
  - apply handleBatchSolutionCallback_Return in H as (_ & _ & ->).
    by apply (within_capacity_frame s); [destruct s|].
Qed.

Lemma reachable_within_capacity s : reachable s → within_capacity s.
Proof.
  induction 1 as [deployer | s s' env c logs _ IH Hstep].
  - intros id. unfold batch_at, read; simpl. rewrite lookup_empty. simpl.
    unfold MAX_BATCH_SIZE. lia.
  - by eapply exec_within_capacity.
Qed.

(** A reverted transaction leaves a reachable state where it was. *)
Lemma reachable_commit env c s : reachable s → reachable (commit s (exec env c s)).
Proof.
  intros Hs. destruct (exec env c s) as [[s' logs]|e] eqn:Hstep; simpl; [|done].
  by eapply reachable_step.
Qed.

Lemma reachable_run txs s : reachable s → reachable (run txs s).
Proof.
  revert s. induction txs as [|[env c] rest IH]; intros s Hs; simpl; [done|].
  apply IH. by apply reachable_commit.
Qed.

End Invariants.

(** * Properties of the protocol *)

(** ** The version counter and unknown request ids *)

Section Versioning.
Context {fhe : FHEVM}.

(** C3 (amended).  No transaction changes the version counter, so it is 1
    in every reachable state and every stored context carries that same
    version; there is no administrative bump.  The guard itself is in
    place: whenever an unprocessed context records a version other than the
    current one, both callbacks fail with StaleVersion. *)
Theorem C3_version_fixed_and_guard_compares (env : Env) (s : State) :
  (∀ c s' logs, exec env c s = Return (s', logs) → modelVersion s' = modelVersion s) ∧
  (reachable s → modelVersion s = 1 ∧ contexts_current s) ∧
  (∀ requestId cleartexts proof,
     DecryptionContext.processed (context_at s requestId) = false →
     DecryptionContext.modelVersion (context_at s requestId) ≠ modelVersion s →
     handleAccusationCallback env requestId cleartexts proof s
       = Revert Error.StaleVersion ∧
     handleBatchSolutionCallback env requestId cleartexts proof s
       = Revert Error.StaleVersion).
Proof.
  split; [|split].
  - intros c s' logs. apply exec_modelVersion.
  - intros Hs. split; [by apply reachable_modelVersion | by apply reachable_contexts_current].
  - intros requestId cleartexts proof. apply callbacks_stale.
Qed.

(** C4 (amended).  In a reachable state, a callback for a request id under
    which nothing was stored reads the all-zero context, passes the
    processed guard, and fails at the version guard with StaleVersion (the
    zero context has version 0, the contract version 1). *)
Theorem C4_unknown_request_fails_as_stale (env : Env) (requestId : uint256)
    (cleartexts proof : bytes) (s : State) :
  reachable s →
  decryptionContexts s !! requestId = None →
  context_at s requestId = DecryptionContext.zero ∧
  handleAccusationCallback env requestId cleartexts proof s
    = Revert Error.StaleVersion ∧
  handleBatchSolutionCallback env requestId cleartexts proof s
    = Revert Error.StaleVersion.
Proof.
  intros Hs Habsent.
  assert (Hzero : context_at s requestId = DecryptionContext.zero)
    by (by apply read_absent).
  split; [done|].
  apply callbacks_stale; rewrite Hzero; [done|].
  rewrite (reachable_modelVersion s Hs). done.
Qed.

End Versioning.

(** ** Capacity of a batch *)

Section Capacity.
Context {fhe : FHEVM}.

(** C7 (amended).  In every reachable state every batch holds at most
    MAX_BATCH_SIZE = 10 submissions, and every transaction keeps it so.  A
    submission to an open batch that already holds MAX_BATCH_SIZE always
    reverts (storage is left as it was); the error is BatchFull when the
    contract is not paused and the caller's cooldown has elapsed. *)
Theorem C7_submission_count_bounded (s : State) :
  reachable s →
  (∀ batchId, submissionCount (batch_at s batchId) ≤ MAX_BATCH_SIZE) ∧
  (∀ env c s' logs, exec env c s = Return (s', logs) →
     ∀ batchId, submissionCount (batch_at s' batchId) ≤ MAX_BATCH_SIZE) ∧
  (∀ env batchId w r su,
     isOpen (batch_at s batchId) = true →
     submissionCount (batch_at s batchId) = MAX_BATCH_SIZE →
     let res := submitEncryptedGuess env batchId w r su s in
     (∃ e, res = Revert e) ∧ commit s res = s ∧
     (paused s = false →
      block_timestamp env ≤ MAX_UINT256 →
      read 0 (lastSubmissionAt s) (msg_sender env) + cooldownSeconds s
        ≤ block_timestamp env →
      res = Revert Error.BatchFull)).
Proof.
  intros Hs. pose proof (reachable_within_capacity s Hs) as Hcap.
  split; [exact Hcap | split].
  - intros env c s' logs Hstep. by apply (exec_within_capacity env c s s' logs).
  - intros env batchId w r su Hopen Hfull res.
    assert (Hrev : ∃ e, res = Revert e).
    { destruct res as [[s' logs]|e] eqn:Hres; [|by exists e].
      apply submitEncryptedGuess_Return in Hres as (_ & _ & _ & Hlt & _).
      rewrite Hfull in Hlt. lia. }
    split; [exact Hrev | split].
    + destruct Hrev as [e ->]. done.
    + intros Hp Hnow Hcd. subst res. unfold submitEncryptedGuess.
      rewrite whenNotPaused_pass, checkCooldown_pass by done.
      rewrite Hopen, Hfull. done.
Qed.

End Capacity.

(** ** Calls that go through *)

Section Accepting.
Context {fhe : FHEVM}.

Lemma MAX_UINT256_roomy : 1000 ≤ MAX_UINT256.
Proof. apply N.leb_le. vm_compute. reflexivity. Qed.

Lemma checked_add_fits (a b : uint256) :
  a + b ≤ MAX_UINT256 → checked_add a b = Some (a + b).
Proof. intros Hfit. by apply checked_add_Some. Qed.

Lemma bind_pass {B : Type} (k : unit → outcome B) : Return tt ≫= k = k tt.
Proof. reflexivity. Qed.

Lemma submitEncryptedGuess_accepts env batchId w r su s :
  paused s = false →
  block_timestamp env ≤ MAX_UINT256 →
  read 0 (lastSubmissionAt s) (msg_sender env) + cooldownSeconds s ≤ block_timestamp env →
  isOpen (batch_at s batchId) = true →
  submissionCount (batch_at s batchId) < MAX_BATCH_SIZE →
  has_submitted s batchId (msg_sender env) = false →
  submitEncryptedGuess env batchId w r su s =
  Return (submit_post env batchId w r su s,
          [Event.Submission (msg_sender env) batchId
             (FHE_toBytes32 w) (FHE_toBytes32 r) (FHE_toBytes32 su)]).
Proof.
  intros Hp Hnow Hcd Hopen Hlt Hnew.
  assert (∃ s', submitEncryptedGuess env batchId w r su s =
                Return (s', [Event.Submission (msg_sender env) batchId
                   (FHE_toBytes32 w) (FHE_toBytes32 r) (FHE_toBytes32 su)]))
    as [s' Hres].
  { unfold submitEncryptedGuess.
    rewrite whenNotPaused_pass, checkCooldown_pass by done.
    rewrite Hopen, Hnew. apply N.leb_gt in Hlt as Hlt'. rewrite Hlt'.
    cbn [require negb mbind outcome_bind].
    rewrite !batch_at_update_batch_eq.
    destruct (batch_at s batchId) as [o n ew er es sub]. fields.
    rewrite checked_add_fits.
    - eexists. reflexivity.
    - pose proof MAX_UINT256_roomy. unfold MAX_BATCH_SIZE in Hlt. lia. }
  rewrite Hres. by apply submitEncryptedGuess_Return in Hres as (_ & _ & _ & _ & _ & ->).
Qed.

Lemma makeAccusation_accepts env batchId w r su s :
  paused s = false →
  block_timestamp env ≤ MAX_UINT256 →
  read 0 (lastSubmissionAt s) (msg_sender env) + cooldownSeconds s ≤ block_timestamp env →
  isOpen (batch_at s batchId) = true →
  has_submitted s batchId (msg_sender env) = false →
  makeAccusation env batchId w r su s =
  Return (accuse_post env batchId w r su s,
          [Event.DecryptionRequested (oracle_requestId env) batchId
             (_hashCiphertexts (accusation_cts s batchId w r su))]).
Proof.
  intros Hp Hnow Hcd Hopen Hnew.
  assert (∃ s', makeAccusation env batchId w r su s =
                Return (s', [Event.DecryptionRequested (oracle_requestId env) batchId
                               (_hashCiphertexts (accusation_cts s batchId w r su))]))
    as [s' Hres].
  { unfold makeAccusation.
    rewrite whenNotPaused_pass, checkCooldown_pass by done.
    rewrite Hopen, Hnew. cbn [require negb mbind outcome_bind].
    eexists. reflexivity. }
  rewrite Hres. by apply makeAccusation_Return in Hres as (_ & _ & _ & _ & ->).
Qed.

Lemma requestBatchSolution_accepts env batchId s :
  paused s = false →
  block_timestamp env ≤ MAX_UINT256 →
  read 0 (lastRequestAt s) (msg_sender env) + cooldownSeconds s ≤ block_timestamp env →
  submissionCount (batch_at s batchId) ≠ 0 →
  has_requested s batchId (msg_sender env) = false →
  requestBatchSolution env batchId s =
  Return (request_post env batchId s,
          [Event.DecryptionRequested (oracle_requestId env) batchId
             (_hashCiphertexts (solution_cts s batchId))]).
Proof.
  intros Hp Hnow Hcd Hcount Hnew.
  assert (∃ s', requestBatchSolution env batchId s =
                Return (s', [Event.DecryptionRequested (oracle_requestId env) batchId
                               (_hashCiphertexts (solution_cts s batchId))]))
    as [s' Hres].
  { unfold requestBatchSolution.
    rewrite whenNotPaused_pass, checkCooldown_pass by done.
    apply N.eqb_neq in Hcount. rewrite Hcount, Hnew.
    cbn [require negb mbind outcome_bind].
    eexists. reflexivity. }
  rewrite Hres. by apply requestBatchSolution_Return in Hres as (_ & _ & _ & _ & ->).
Qed.

End Accepting.

(** ** The checks of a submission, in order *)

Section SubmissionChecks.
Context {fhe : FHEVM}.

(** C6 (amended).  Once the pause gate and the caller's cooldown gate have
    let the call through, [submitEncryptedGuess] fails with BatchClosed if
    the batch is not open, else with BatchFull if submissionCount has
    reached MAX_BATCH_SIZE, else with InvalidState if the caller is already
    in the batch's submitted set; otherwise it goes through, raises
    submissionCount by exactly one and puts the caller in the submitted
    set. *)
Theorem C6_submission_checks_in_order (env : Env) (batchId : uint256)
    (w r su : euint32) (s : State) :
  paused s = false →
  block_timestamp env ≤ MAX_UINT256 →
  read 0 (lastSubmissionAt s) (msg_sender env) + cooldownSeconds s ≤ block_timestamp env →
  let b := batch_at s batchId in
  let res := submitEncryptedGuess env batchId w r su s in
  (isOpen b = false → res = Revert Error.BatchClosed) ∧
  (isOpen b = true → MAX_BATCH_SIZE ≤ submissionCount b → res = Revert Error.BatchFull) ∧
  (isOpen b = true → submissionCount b < MAX_BATCH_SIZE →
   has_submitted s batchId (msg_sender env) = true → res = Revert Error.InvalidState) ∧
  (isOpen b = true → submissionCount b < MAX_BATCH_SIZE →
   has_submitted s batchId (msg_sender env) = false →
   (∃ logs, res = Return (commit s res, logs)) ∧
   submissionCount (batch_at (commit s res) batchId) = submissionCount b + 1 ∧
   has_submitted (commit s res) batchId (msg_sender env) = true).
Proof.
  intros Hp Hnow Hcd b res. subst b res.
  split; [|split; [|split]].
  - intros Hopen. unfold submitEncryptedGuess.
    rewrite whenNotPaused_pass, checkCooldown_pass by done.
    by rewrite Hopen.
  - intros Hopen Hfull. unfold submitEncryptedGuess.
    rewrite whenNotPaused_pass, checkCooldown_pass by done.
    apply N.leb_le in Hfull. by rewrite Hopen, Hfull.
  - intros Hopen Hlt Hdup. unfold submitEncryptedGuess.
    rewrite whenNotPaused_pass, checkCooldown_pass by done.
    apply N.leb_gt in Hlt. by rewrite Hopen, Hlt, Hdup.
  - intros Hopen Hlt Hnew.
    rewrite submitEncryptedGuess_accepts by done. cbn [commit].
    split; [by eexists | split].
    + by rewrite batch_at_submit_post.
    + unfold has_submitted, submit_post. fields. by rewrite read_insert_eq.
Qed.

End SubmissionChecks.

(** ** The cooldown ledger *)

(** Split on the guards of a call from the first on; every guard that stops
  the call does so with an error of its own. *)
Ltac guards :=
  repeat match goal with
  | |- context [require ?c _] =>
    destruct c; cbn [require negb mbind outcome_bind]
  | |- context [match checked_add ?a ?b with _ => _ end] =>
    destruct (checked_add a b)
  | |- context [match abi_decode_bool ?x with _ => _ end] =>
    destruct (abi_decode_bool x)
  | |- context [match abi_decode_uint256x3 ?x with _ => _ end] =>
    destruct (abi_decode_uint256x3 x)
  end.

Section Cooldown.
Context {fhe : FHEVM}.

(** Behind the two gates, a gated call never fails with RateLimited. *)
Lemma gated_body_not_RateLimited env c cat s :
  category_of c = Some cat →
  whenNotPaused s = Return tt →
  checkCooldown env s (msg_sender env) (ledger cat s) = Return tt →
  exec env c s ≠ Revert Error.RateLimited.
Proof.
  intros Hcat Hgate Hcd.
  destruct c; try discriminate; injection Hcat as <-; cbn [exec ledger] in *.
  - unfold submitEncryptedGuess. rewrite Hgate, Hcd. rewrite !bind_pass.
    guards; discriminate.
  - unfold makeAccusation. rewrite Hgate, Hcd. rewrite !bind_pass.
    guards; discriminate.
  - unfold requestBatchSolution. rewrite Hgate, Hcd. rewrite !bind_pass.
    guards; discriminate.
Qed.

(** A gated call starts with the pause gate, then the cooldown gate. *)
Lemma gated_call_gates env c cat s :
  category_of c = Some cat →
  (whenNotPaused s = Revert Error.Paused → exec env c s = Revert Error.Paused) ∧
  (∀ e, whenNotPaused s = Return tt →
        checkCooldown env s (msg_sender env) (ledger cat s) = Revert e →
        exec env c s = Revert e).
Proof.
  intros Hcat.
  destruct c; try discriminate; injection Hcat as <-; cbn [exec ledger] in *.
  - unfold submitEncryptedGuess. split; [by intros ->|by intros e -> ->].
  - unfold makeAccusation. split; [by intros ->|by intros e -> ->].
  - unfold requestBatchSolution. split; [by intros ->|by intros e -> ->].
Qed.

(** An accepted gated call stamps the caller's entry in its own ledger
    and nothing else in either ledger. *)
Lemma gated_call_stamps env c cat s s' logs :
  category_of c = Some cat →
  exec env c s = Return (s', logs) →
  ledger cat s' = <[msg_sender env := block_timestamp env]> (ledger cat s) ∧
  ledger (other cat) s' = ledger (other cat) s.
Proof.
  intros Hcat Hres.
  destruct c; try discriminate; injection Hcat as <-; cbn [exec ledger other] in *.
  - by apply submitEncryptedGuess_Return in Hres as (_ & _ & _ & _ & _ & ->).
  - by apply makeAccusation_Return in Hres as (_ & _ & _ & _ & ->).
  - by apply requestBatchSolution_Return in Hres as (_ & _ & _ & _ & ->).
Qed.

(** C8 (amended).  For a call gated by [checkCooldown] on the ledger of
    its category (submissions and accusations on one, solution requests
    on the other):
    - it fails with RateLimited only if now < lastAction + cooldownSeconds;
    - when the contract is not paused and lastAction + cooldownSeconds
      fits in a uint256, it fails with RateLimited exactly when
      now < lastAction + cooldownSeconds;
    - when it goes through, the caller's entry in that ledger becomes now,
      every other entry of it and the whole ledger of the other category
      stay as they were;
    - when it fails, for whatever reason, both ledgers stay as they were. *)
Theorem C8_cooldown_gate (env : Env) (c : Call) (cat : Category) (s : State) :
  category_of c = Some cat →
  let last := read 0 (ledger cat s) (msg_sender env) in
  let res := exec env c s in
  (res = Revert Error.RateLimited → block_timestamp env < last + cooldownSeconds s) ∧
  (paused s = false → last + cooldownSeconds s ≤ MAX_UINT256 →
   (res = Revert Error.RateLimited ↔ block_timestamp env < last + cooldownSeconds s)) ∧
  (∀ s' logs, res = Return (s', logs) →
     read 0 (ledger cat s') (msg_sender env) = block_timestamp env ∧
     (∀ a, a ≠ msg_sender env → read 0 (ledger cat s') a = read 0 (ledger cat s) a) ∧
     ledger (other cat) s' = ledger (other cat) s) ∧
  (∀ e, res = Revert e →
     ledger cat (commit s res) = ledger cat s ∧
     ledger (other cat) (commit s res) = ledger (other cat) s).
Proof.
  intros Hcat last res. subst last res.
  pose proof (gated_call_gates env c cat s Hcat) as [Hpaused Hcool].
  assert (Honly : exec env c s = Revert Error.RateLimited →
                  block_timestamp env
                  < read 0 (ledger cat s) (msg_sender env) + cooldownSeconds s).
  { intros Hres. destruct (paused s) eqn:Hp.
    - rewrite Hpaused in Hres by (by apply whenNotPaused_stop). discriminate.
    - apply whenNotPaused_pass in Hp.
      destruct (checkCooldown env s (msg_sender env) (ledger cat s)) as [[]|e] eqn:Hcd.
      + by destruct (gated_body_not_RateLimited env c cat s).
      + rewrite (Hcool e Hp eq_refl) in Hres. injection Hres as ->.
        apply checkCooldown_Revert in Hcd as [[_ ?]|(_ & ? & _)]; [discriminate|done]. }
  split; [exact Honly | split; [|split]].
  - intros Hp Hfit. split; [exact Honly|]. intros Hearly.
    apply Hcool; [by apply whenNotPaused_pass | by apply checkCooldown_stop].
  - intros s' logs Hres.
    apply (gated_call_stamps env c cat s s' logs Hcat) in Hres as [-> ->].
    split; [by rewrite read_insert_eq | split; [|done]].
    intros a Ha. by rewrite read_insert_ne.
  - intros e ->. done.
Qed.

End Cooldown.

(** ** Contribution and accusation share one dedup set *)

Section Dedup.
Context {fhe : FHEVM}.

Lemma read_insert_true {K : Type} `{Countable K} (m : gmap K bool) (k k' : K) :
  read false m k' = true → read false (<[k := true]> m) k' = true.
Proof.
  intros Hk. destruct (decide (k = k')) as [->|Hne].
  - by rewrite read_insert_eq.
  - by rewrite read_insert_ne.
Qed.

(** No transaction takes an address out of a batch's submitted set. *)
Lemma exec_has_submitted env c s s' logs batchId a :
  exec env c s = Return (s', logs) →
  has_submitted s batchId a = true → has_submitted s' batchId a = true.
Proof.
  unfold has_submitted. destruct c; simpl; intros H Hin.
  1-5: by apply owner_call_Return in H as [_ ->]; destruct s.
  - by apply openBatch_Return in H as [_ ->]; destruct s.
  - by apply closeBatch_Return in H as (_ & _ & ->); destruct s.
  - apply submitEncryptedGuess_Return in H as (_ & _ & _ & _ & _ & ->).
    unfold submit_post. fields. by apply read_insert_true.
  - apply makeAccusation_Return in H as (_ & _ & _ & _ & ->).
    unfold accuse_post. fields. by apply read_insert_true.
  - by apply requestBatchSolution_Return in H as (_ & _ & _ & _ & ->).
  - by apply handleAccusationCallback_Return in H as (_ & _ & ->); destruct s.
  - by apply handleBatchSolutionCallback_Return in H as (_ & _ & ->); destruct s.
Qed.

Lemma run_has_submitted txs s batchId a :
  has_submitted s batchId a = true → has_submitted (run txs s) batchId a = true.
Proof.
  revert s. induction txs as [|[env c] rest IH]; intros s Hin; simpl; [done|].
  apply IH. destruct (exec env c s) as [[s' logs]|e] eqn:Hstep; simpl; [|done].
  by eapply exec_has_submitted.
Qed.

(** An address in the submitted set can neither contribute nor accuse. *)
Lemma submitted_address_rejected env batchId w r su s :
  has_submitted s batchId (msg_sender env) = true →
  (∃ e, submitEncryptedGuess env batchId w r su s = Revert e) ∧
  (∃ e, makeAccusation env batchId w r su s = Revert e).
Proof.
  intros Hin. split.
  - destruct (submitEncryptedGuess _ _ _ _ _ _) as [[s' logs]|e] eqn:Hres; [|by exists e].
    apply submitEncryptedGuess_Return in Hres as (_ & _ & _ & _ & Hnew & _). congruence.
  - destruct (makeAccusation _ _ _ _ _ _) as [[s' logs]|e] eqn:Hres; [|by exists e].
    apply makeAccusation_Return in Hres as (_ & _ & _ & Hnew & _). congruence.
Qed.

(** C9 (amended).  For every batch and every address, a successful
    contribution and a successful accusation exclude each other: each
    requires the batch open and the caller absent from the one submitted
    set, each puts the caller into that set, no transaction ever takes an
    address out of it, and a caller in the set can neither contribute nor
    accuse, whatever happens in between.  The rejection is InvalidState
    when the call gets as far as the dedup check: contract not paused,
    caller's cooldown elapsed, batch open and (for a contribution) not
    full. *)
Theorem C9_contribution_accusation_exclusive (env : Env) (batchId : uint256)
    (w r su : euint32) (s : State) :
  let a := msg_sender env in
  (∀ s' logs, submitEncryptedGuess env batchId w r su s = Return (s', logs) →
     isOpen (batch_at s batchId) = true ∧ has_submitted s batchId a = false ∧
     has_submitted s' batchId a = true) ∧
  (∀ s' logs, makeAccusation env batchId w r su s = Return (s', logs) →
     isOpen (batch_at s batchId) = true ∧ has_submitted s batchId a = false ∧
     has_submitted s' batchId a = true) ∧
  (has_submitted s batchId a = true →
   ∀ txs env' w' r' su', msg_sender env' = a →
     has_submitted (run txs s) batchId a = true ∧
     (∃ e, submitEncryptedGuess env' batchId w' r' su' (run txs s) = Revert e) ∧
     (∃ e, makeAccusation env' batchId w' r' su' (run txs s) = Revert e)) ∧
  (has_submitted s batchId a = true →
   paused s = false →
   block_timestamp env ≤ MAX_UINT256 →
   read 0 (lastSubmissionAt s) a + cooldownSeconds s ≤ block_timestamp env →
   isOpen (batch_at s batchId) = true →
   makeAccusation env batchId w r su s = Revert Error.InvalidState ∧
   (submissionCount (batch_at s batchId) < MAX_BATCH_SIZE →
    submitEncryptedGuess env batchId w r su s = Revert Error.InvalidState)).
Proof.
  intros a. subst a. split; [|split; [|split]].
  - intros s' logs Hres.
    apply submitEncryptedGuess_Return in Hres as (_ & _ & Hopen & _ & Hnew & ->).
    repeat split; try done.
    unfold has_submitted, submit_post. fields. by rewrite read_insert_eq.
  - intros s' logs Hres.
    apply makeAccusation_Return in Hres as (_ & _ & Hopen & Hnew & ->).
    repeat split; try done.
    unfold has_submitted, accuse_post. fields. by rewrite read_insert_eq.
  - intros Hin txs env' w' r' su' Hsender.
    pose proof (run_has_submitted txs s _ _ Hin) as Hlater.
    split; [done|]. apply submitted_address_rejected. by rewrite Hsender.
  - intros Hin Hp Hnow Hcd Hopen. split.
    + unfold makeAccusation.
      rewrite whenNotPaused_pass, checkCooldown_pass by done.
      by rewrite Hopen, Hin.
    + intros Hlt. unfold submitEncryptedGuess.
      rewrite whenNotPaused_pass, checkCooldown_pass by done.
      apply N.leb_gt in Hlt. by rewrite Hopen, Hlt, Hin.
Qed.

End Dedup.

(** ** Settlement happens once *)

Section Settlement.
Context {fhe : FHEVM}.

Lemma is_processed_stored s requestId :
  is_processed s requestId = true → decryptionContexts s !! requestId ≠ None.
Proof.
  unfold is_processed, context_at, read. intros Hp Habsent.
  rewrite Habsent in Hp. discriminate.
Qed.

Lemma is_processed_insert_ne s s' requestId requestId' ctx :
  decryptionContexts s' = <[requestId' := ctx]> (decryptionContexts s) →
  requestId' ≠ requestId →
  is_processed s' requestId = is_processed s requestId.
Proof.
  intros Hd Hne. unfold is_processed, context_at. rewrite Hd.
  by rewrite read_insert_ne.
Qed.

Lemma is_processed_mark s requestId requestId' :
  is_processed s requestId = true →
  is_processed (mark_processed requestId' s) requestId = true.
Proof.
  intros Hp. unfold is_processed, context_at at 1, mark_processed.
  destruct s; fields.
  destruct (decide (requestId' = requestId)) as [->|Hne].
  - rewrite read_insert_eq. by destruct (context_at _ _).
  - by rewrite read_insert_ne.
Qed.

Lemma is_processed_mark_eq s requestId :
  is_processed (mark_processed requestId s) requestId = true.
Proof.
  unfold is_processed, context_at at 1, mark_processed.
  destruct s; fields. rewrite read_insert_eq. by destruct (context_at _ _).
Qed.

(** One transaction never clears a processed flag. *)
Lemma exec_is_processed env c s s' logs requestId :
  (issues_request c = true → decryptionContexts s !! oracle_requestId env = None) →
  exec env c s = Return (s', logs) →
  is_processed s requestId = true → is_processed s' requestId = true.
Proof.
  intros Hfresh H Hp.
  assert (Hframe : decryptionContexts s' = decryptionContexts s →
                   is_processed s' requestId = true).
  { intros Hd. unfold is_processed, context_at. rewrite Hd. exact Hp. }
  destruct c; simpl in H.
  1-5: by apply owner_call_Return in H as [_ ->]; apply Hframe; destruct s.
  - by apply openBatch_Return in H as [_ ->]; apply Hframe; destruct s.
  - by apply closeBatch_Return in H as (_ & _ & ->); apply Hframe; destruct s.
  - by apply submitEncryptedGuess_Return in H as (_ & _ & _ & _ & _ & ->); apply Hframe.
  - apply makeAccusation_Return in H as (_ & _ & _ & _ & ->).
    rewrite <- Hp. eapply is_processed_insert_ne; [reflexivity|].
    intros Heq. apply (is_processed_stored s requestId Hp).
    rewrite <- Heq. by apply Hfresh.
  - apply requestBatchSolution_Return in H as (_ & _ & _ & _ & ->).
    rewrite <- Hp. eapply is_processed_insert_ne; [reflexivity|].
    intros Heq. apply (is_processed_stored s requestId Hp).
    rewrite <- Heq. by apply Hfresh.
  - apply handleAccusationCallback_Return in H as (_ & _ & ->).
    by apply is_processed_mark.
  - apply handleBatchSolutionCallback_Return in H as (_ & _ & ->).
    by apply is_processed_mark.
Qed.

Lemma run_is_processed txs s requestId :
  oracle_fresh txs s →
  is_processed s requestId = true → is_processed (run txs s) requestId = true.
Proof.
  revert s. induction txs as [|[env c] rest IH]; intros s Hfresh Hp; simpl; [done|].
  destruct Hfresh as [Hhere Hrest]. apply IH; [done|].
  destruct (exec env c s) as [[s' logs]|e] eqn:Hstep; simpl; [|done].
  by eapply exec_is_processed.
Qed.

(** C5.  The processed flag of a disclosure context goes from false to
    true at the one successful settlement of its request id and never
    back: a callback that goes through finds the flag false and leaves it
    true; once true it stays true through every later transaction (the
    oracle never reusing a request id); and every later callback for that
    request id fails with AlreadyProcessed, leaving storage as it was and
    emitting nothing. *)
Theorem C5_processed_set_once (env : Env) (c : Call) (requestId : uint256)
    (s s1 : State) (logs : list Event.t) (txs : list (Env * Call)) :
  settles c = Some requestId →
  exec env c s = Return (s1, logs) →
  oracle_fresh txs s1 →
  is_processed s requestId = false ∧
  is_processed s1 requestId = true ∧
  is_processed (run txs s1) requestId = true ∧
  ∀ env' cleartexts proof,
    let s2 := run txs s1 in
    let again1 := handleAccusationCallback env' requestId cleartexts proof s2 in
    let again2 := handleBatchSolutionCallback env' requestId cleartexts proof s2 in
    again1 = Revert Error.AlreadyProcessed ∧
    again2 = Revert Error.AlreadyProcessed ∧
    commit s2 again1 = s2 ∧ commit s2 again2 = s2 ∧
    emitted again1 = [] ∧ emitted again2 = [].
Proof.
  intros Hc Hres Hfresh.
  assert (Hfirst : is_processed s requestId = false ∧ s1 = mark_processed requestId s).
  { destruct c; try discriminate; injection Hc as ->; simpl in Hres.
    - by apply handleAccusationCallback_Return in Hres as (? & _ & ->).
    - by apply handleBatchSolutionCallback_Return in Hres as (? & _ & ->). }
  destruct Hfirst as [Hbefore ->].
  pose proof (is_processed_mark_eq s requestId) as Hafter.
  pose proof (run_is_processed txs _ requestId Hfresh Hafter) as Hlater.
  repeat split; try done.
  all: destruct (callbacks_already_processed env' requestId cleartexts proof _ Hlater)
         as [H1 H2]; by rewrite ?H1, ?H2.
Qed.

End Settlement.

(** ** The provider role *)

Section Providers.
Context {fhe : FHEVM}.

Lemma providers_aside_refl s : providers_aside s s.
Proof. by destruct s. Qed.

Lemma providers_aside_set P s : providers_aside s (set_providers P s).
Proof. by destruct s. Qed.

(** Every call commutes with rewriting the providers mapping. *)
Lemma exec_providers_aside env c s P :
  same_outcome (exec env c s) (exec env c (set_providers P s)).
Proof.
  destruct s as [o p cd cur mv prov lsa lra bs ctxs hs hr].
  destruct c; cbn [exec set_providers].
  - unfold addProvider, onlyOwner. fields. guards; done.
  - unfold removeProvider, onlyOwner. fields. guards; done.
  - unfold pause, onlyOwner. fields. guards; done.
  - unfold unpause, onlyOwner. fields. guards; done.
  - unfold setCooldown, onlyOwner. fields. guards; done.
  - unfold openBatch, onlyOwner, update_batch, batch_at. fields. guards; done.
  - unfold closeBatch, onlyOwner, update_batch, batch_at. fields. guards; done.
  - unfold submitEncryptedGuess, whenNotPaused, checkCooldown, update_batch,
      batch_at, has_submitted. fields. guards; done.
  - unfold makeAccusation, whenNotPaused, checkCooldown, batch_at, has_submitted.
    fields. guards; done.
  - unfold requestBatchSolution, whenNotPaused, checkCooldown, batch_at, has_requested.
    fields. guards; done.
  - unfold handleAccusationCallback, _rebuildIsCorrect, _requireInitialized,
      mark_processed, context_at, batch_at. fields. guards; done.
  - unfold handleBatchSolutionCallback, _rebuildBatchSolution, _requireInitialized,
      mark_processed, context_at, batch_at. fields. guards; done.
Qed.

(** No call fails with NotProvider: no function carries [onlyProvider]. *)
Lemma exec_never_NotProvider env c s : exec env c s ≠ Revert Error.NotProvider.
Proof.
  destruct c; cbn [exec].
  - unfold addProvider, onlyOwner. guards; discriminate.
  - unfold removeProvider, onlyOwner. guards; discriminate.
  - unfold pause, onlyOwner. guards; discriminate.
  - unfold unpause, onlyOwner. guards; discriminate.
  - unfold setCooldown, onlyOwner. guards; discriminate.
  - unfold openBatch, onlyOwner. guards; discriminate.
  - unfold closeBatch, onlyOwner. guards; discriminate.
  - unfold submitEncryptedGuess, whenNotPaused, checkCooldown. guards; discriminate.
  - unfold makeAccusation, whenNotPaused, checkCooldown. guards; discriminate.
  - unfold requestBatchSolution, whenNotPaused, checkCooldown. guards; discriminate.
  - unfold handleAccusationCallback, _rebuildIsCorrect, _requireInitialized.
    guards; discriminate.
  - unfold handleBatchSolutionCallback, _rebuildBatchSolution, _requireInitialized.
    guards; discriminate.
Qed.

(** C10.  The provider role is inert.  For two storages that differ only
    in the providers mapping every call gives the same outcome: the same
    error, or the same events and storages that again differ only in the
    providers mapping.  No call fails with NotProvider.  [addProvider] and
    [removeProvider], when they go through, change nothing but the
    providers mapping. *)
Theorem C10_provider_role_inert (env : Env) (c : Call) (s1 s2 : State) :
  providers_aside s1 s2 →
  same_outcome (exec env c s1) (exec env c s2) ∧
  exec env c s1 ≠ Revert Error.NotProvider ∧
  (∀ provider s' logs,
     addProvider env provider s1 = Return (s', logs) ∨
     removeProvider env provider s1 = Return (s', logs) →
     providers_aside s1 s').
Proof.
  intros Hs. split; [|split].
  - rewrite <- Hs. apply exec_providers_aside.
  - apply exec_never_NotProvider.
  - intros provider s' logs [H|H];
      apply owner_call_Return in H as [_ ->]; apply providers_aside_set.
Qed.

End Providers.

(** * Further properties of the contract *)

(** ** Access control, the pause flag and the errors of each function *)

Section Access.
Context {fhe : FHEVM}.

(** No transaction writes [owner]. *)
Lemma exec_owner env c s s' logs :
  exec env c s = Return (s', logs) → owner s' = owner s.
Proof.
  destruct c; simpl; intros H.
  1-5: by apply owner_call_Return in H as [_ ->]; destruct s.
  - by apply openBatch_Return in H as [_ ->]; destruct s.
  - by apply closeBatch_Return in H as (_ & _ & ->); destruct s.
  - by apply submitEncryptedGuess_Return in H as (_ & _ & _ & _ & _ & ->).
  - by apply makeAccusation_Return in H as (_ & _ & _ & _ & ->).
  - by apply requestBatchSolution_Return in H as (_ & _ & _ & _ & ->).
  - by apply handleAccusationCallback_Return in H as (_ & _ & ->); destruct s.
  - by apply handleBatchSolutionCallback_Return in H as (_ & _ & ->); destruct s.
Qed.

Lemma run_owner txs s : owner (run txs s) = owner s.
Proof.
  revert s. induction txs as [|[env c] rest IH]; intros s; simpl; [done|].
  rewrite IH. destruct (exec env c s) as [[s' logs]|e] eqn:Hstep; simpl; [|done].
  by eapply exec_owner.
Qed.

Lemma onlyOwner_stop env s :
  msg_sender env ≠ owner s → onlyOwner env s = Revert Error.NotOwner.
Proof. intros Hne. unfold onlyOwner. apply N.eqb_neq in Hne. by rewrite Hne. Qed.

Lemma exec_NotOwner env c s :
  exec env c s = Revert Error.NotOwner ↔ is_admin c = true ∧ msg_sender env ≠ owner s.
Proof.
  split.
  - destruct c; cbn [exec is_admin].
    1-7: intros H; split; [done|]; intros Heq;
         apply onlyOwner_Return with (u := tt) in Heq.
    + unfold addProvider in H. by rewrite Heq in H.
    + unfold removeProvider in H. by rewrite Heq in H.
    + unfold pause in H. by rewrite Heq in H.
    + unfold unpause in H. by rewrite Heq in H.
    + unfold setCooldown in H. by rewrite Heq in H.
    + unfold openBatch in H. rewrite Heq in H. rewrite bind_pass in H.
      by destruct (checked_add _ _).
    + unfold closeBatch in H. rewrite Heq in H. rewrite bind_pass in H.
      revert H. guards; discriminate.
    + unfold submitEncryptedGuess, whenNotPaused, checkCooldown. guards; discriminate.
    + unfold makeAccusation, whenNotPaused, checkCooldown. guards; discriminate.
    + unfold requestBatchSolution, whenNotPaused, checkCooldown. guards; discriminate.
    + unfold handleAccusationCallback, _rebuildIsCorrect, _requireInitialized.
      guards; discriminate.
    + unfold handleBatchSolutionCallback, _rebuildBatchSolution, _requireInitialized.
      guards; discriminate.
  - intros [Hc Hne]. apply onlyOwner_stop in Hne.
    destruct c; try discriminate; cbn [exec].
    + unfold addProvider. by rewrite Hne.
    + unfold removeProvider. by rewrite Hne.
    + unfold pause. by rewrite Hne.
    + unfold unpause. by rewrite Hne.
    + unfold setCooldown. by rewrite Hne.
    + unfold openBatch. by rewrite Hne.
    + unfold closeBatch. by rewrite Hne.
Qed.

(** X1.  The owner is fixed at deployment: no transaction changes it.  A
    call reverts with NotOwner exactly when it is one of the seven
    administrative functions and the caller is not the owner, and this
    stays so after any run of transactions. *)
Theorem X1_NotOwner_exactly_for_admin_calls_by_others (env : Env) (c : Call)
    (s : State) (txs : list (Env * Call)) :
  owner (run txs s) = owner s ∧
  (exec env c (run txs s) = Revert Error.NotOwner ↔
   is_admin c = true ∧ msg_sender env ≠ owner s).
Proof.
  split; [apply run_owner|]. rewrite exec_NotOwner. by rewrite run_owner.
Qed.

(** A call without the pause gate never reverts with Paused. *)
Lemma ungated_not_Paused env c s :
  category_of c = None → exec env c s ≠ Revert Error.Paused.
Proof.
  destruct c; try discriminate; intros _; cbn [exec].
  - unfold addProvider, onlyOwner. guards; discriminate.
  - unfold removeProvider, onlyOwner. guards; discriminate.
  - unfold pause, onlyOwner. guards; discriminate.
  - unfold unpause, onlyOwner. guards; discriminate.
  - unfold setCooldown, onlyOwner. guards; discriminate.
  - unfold openBatch, onlyOwner. guards; discriminate.
  - unfold closeBatch, onlyOwner. guards; discriminate.
  - unfold handleAccusationCallback, _rebuildIsCorrect, _requireInitialized.
    guards; discriminate.
  - unfold handleBatchSolutionCallback, _rebuildBatchSolution, _requireInitialized.
    guards; discriminate.
Qed.

(** Behind the pause gate a gated call never reverts with Paused. *)
Lemma gated_body_not_Paused env c s :
  paused s = false → exec env c s ≠ Revert Error.Paused.
Proof.
  intros Hp. destruct (category_of c) eqn:Hcat; [|by apply ungated_not_Paused].
  destruct c; try discriminate; cbn [exec].
  - unfold submitEncryptedGuess. rewrite whenNotPaused_pass by done.
    rewrite bind_pass. unfold checkCooldown. guards; discriminate.
  - unfold makeAccusation. rewrite whenNotPaused_pass by done.
    rewrite bind_pass. unfold checkCooldown. guards; discriminate.
  - unfold requestBatchSolution. rewrite whenNotPaused_pass by done.
    rewrite bind_pass. unfold checkCooldown. guards; discriminate.
Qed.

(** Calls without the pause gate do not read the pause flag. *)
Lemma exec_paused_aside env c s p :
  category_of c = None →
  same_outcome_paused_aside (exec env c s) (exec env c (set_paused p s)).
Proof.
  destruct s as [o q cd cur mv prov lsa lra bs ctxs hs hr].
  destruct c; try discriminate; intros _; cbn [exec set_paused].
  - unfold addProvider, onlyOwner. fields. guards; done.
  - unfold removeProvider, onlyOwner. fields. guards; done.
  - unfold pause, onlyOwner. fields. guards; done.
  - unfold unpause, onlyOwner. fields. guards; done.
  - unfold setCooldown, onlyOwner. fields. guards; done.
  - unfold openBatch, onlyOwner, update_batch, batch_at. fields. guards; done.
  - unfold closeBatch, onlyOwner, update_batch, batch_at. fields. guards; done.
  - unfold handleAccusationCallback, _rebuildIsCorrect, _requireInitialized,
      mark_processed, context_at, batch_at. fields. guards; done.
  - unfold handleBatchSolutionCallback, _rebuildBatchSolution, _requireInitialized,
      mark_processed, context_at, batch_at. fields. guards; done.
Qed.

(** X2.  The pause flag stops the three player actions and nothing else: a
    call reverts with Paused exactly when the contract is paused and the
    call is submitEncryptedGuess, makeAccusation or requestBatchSolution;
    every other call (the administrative functions and both callbacks) has
    the same outcome whatever the pause flag, so a pending request can
    still be settled while the contract is paused. *)
Theorem X2_pause_stops_player_actions_only (env : Env) (c : Call) (s : State) :
  (exec env c s = Revert Error.Paused ↔ paused s = true ∧ is_Some (category_of c)) ∧
  (category_of c = None →
   ∀ p, same_outcome_paused_aside (exec env c s) (exec env c (set_paused p s))).
Proof.
  split.
  - split.
    + intros H. destruct (paused s) eqn:Hp.
      * split; [done|]. destruct (category_of c) eqn:Hcat; [by eexists|].
        by destruct (ungated_not_Paused env c s).
      * by destruct (gated_body_not_Paused env c s).
    + intros [Hp [cat Hcat]].
      apply (proj1 (gated_call_gates env c cat s Hcat)). by apply whenNotPaused_stop.
  - intros Hcat p. by apply exec_paused_aside.
Qed.

(** X15.  The errors each function can fail with.  A call that reverts
    does so with one of the errors its modifiers and body name: NotOwner
    for the administrative functions (and a counter overflow for openBatch,
    BatchClosed for closeBatch); Paused, RateLimited, an arithmetic
    overflow and the body's own checks for the three player actions;
    AlreadyProcessed, StaleVersion, InvalidState or a failure of the
    signature check or of decoding for the callbacks.  In particular no
    callback fails with NotOwner, Paused or RateLimited, and no call at
    all fails with NotProvider. *)
Theorem X15_errors_by_function (env : Env) (c : Call) (s : State) (e : Error.t) :
  exec env c s = Revert e → e ∈ may_raise c ∧ e ≠ Error.NotProvider.
Proof.
  intros H. assert (Hin : e ∈ may_raise c); [|split; [done|]].
  2: { intros ->. destruct c; cbn [may_raise] in Hin;
         repeat (apply elem_of_cons in Hin as [Hin|Hin]; [discriminate|]);
         by apply elem_of_nil in Hin. }
  revert H. destruct c; cbn [exec may_raise].
  - unfold addProvider, onlyOwner. guards; intros [= <-]; set_solver.
  - unfold removeProvider, onlyOwner. guards; intros [= <-]; set_solver.
  - unfold pause, onlyOwner. guards; intros [= <-]; set_solver.
  - unfold unpause, onlyOwner. guards; intros [= <-]; set_solver.
  - unfold setCooldown, onlyOwner. guards; intros [= <-]; set_solver.
  - unfold openBatch, onlyOwner. guards; intros [= <-]; set_solver.
  - unfold closeBatch, onlyOwner. guards; intros [= <-]; set_solver.
  - unfold submitEncryptedGuess, whenNotPaused, checkCooldown.
    guards; intros [= <-]; set_solver.
  - unfold makeAccusation, whenNotPaused, checkCooldown.
    guards; intros [= <-]; set_solver.
  - unfold requestBatchSolution, whenNotPaused, checkCooldown.
    guards; intros [= <-]; set_solver.
  - unfold handleAccusationCallback, _rebuildIsCorrect, _requireInitialized.
    guards; intros [= <-]; set_solver.
  - unfold handleBatchSolutionCallback, _rebuildBatchSolution, _requireInitialized.
    guards; intros [= <-]; set_solver.
Qed.

End Access.

(** ** The life of a batch: allocation, closing, what changes it *)

Section Lifecycle.
Context {fhe : FHEVM}.

Lemma batch_at_frame s s' batchId :
  batches s' = batches s → batch_at s' batchId = batch_at s batchId.
Proof. intros Hb. unfold batch_at. by rewrite Hb. Qed.

(** What [openBatch] leaves behind. *)
Lemma openBatch_post s :
  let id := currentBatchId s + 1 in
  let s' := update_batch id (set_isOpen true) (set_currentBatchId id s) in
  currentBatchId s' = id ∧
  batch_at s' id = set_isOpen true (batch_at s id) ∧
  (∀ batchId, batchId ≠ id → batch_at s' batchId = batch_at s batchId).
Proof.
  cbv zeta. split; [by destruct s | split].
  - rewrite batch_at_update_batch_eq. f_equal. by destruct s.
  - intros batchId Hne. rewrite batch_at_update_batch_ne by done. by destruct s.
Qed.

(** How one transaction changes a batch: only [openBatch] (on the next id),
    [closeBatch] and an accepted submission write to it. *)
Lemma exec_batch_at env c s s' logs batchId :
  exec env c s = Return (s', logs) →
  (c = OpenBatch ∧ batchId = currentBatchId s + 1 ∧
   batch_at s' batchId = set_isOpen true (batch_at s batchId)) ∨
  (c = CloseBatch batchId ∧ isOpen (batch_at s batchId) = true ∧
   batch_at s' batchId = set_isOpen false (batch_at s batchId)) ∨
  (submits_to batchId c = true ∧ isOpen (batch_at s batchId) = true) ∨
  (submits_to batchId c = false ∧ batch_at s' batchId = batch_at s batchId).
Proof.
  destruct c; simpl; intros H.
  1-5: apply owner_call_Return in H as [_ ->]; do 3 right;
       split; [done|]; apply batch_at_frame; by destruct s.
  - apply openBatch_Return in H as [_ ->].
    destruct (openBatch_post s) as (_ & Hnew & Hold).
    destruct (decide (batchId = currentBatchId s + 1)) as [->|Hne].
    + left. done.
    + do 3 right. split; [done|]. by apply Hold.
  - apply closeBatch_Return in H as (_ & Hopen & ->).
    destruct (decide (batchId0 = batchId)) as [->|Hne].
    + right. left. by rewrite batch_at_update_batch_eq.
    + do 3 right. split; [done|]. by rewrite batch_at_update_batch_ne.
  - apply submitEncryptedGuess_Return in H as (_ & _ & Hopen & _ & _ & ->).
    destruct (decide (batchId0 = batchId)) as [->|Hne].
    + right. right. left. by rewrite N.eqb_refl.
    + do 3 right. split; [by apply N.eqb_neq|]. by rewrite batch_at_submit_post_ne.
  - apply makeAccusation_Return in H as (_ & _ & _ & _ & ->). do 3 right. done.
  - apply requestBatchSolution_Return in H as (_ & _ & _ & _ & ->). do 3 right. done.
  - apply handleAccusationCallback_Return in H as (_ & _ & ->). do 3 right.
    split; [done|]. apply batch_at_frame. by destruct s.
  - apply handleBatchSolutionCallback_Return in H as (_ & _ & ->). do 3 right.
    split; [done|]. apply batch_at_frame. by destruct s.
Qed.

(** The batch counter only grows, and only [openBatch] moves it. *)
Lemma exec_currentBatchId env c s s' logs :
  exec env c s = Return (s', logs) →
  (c = OpenBatch ∧ currentBatchId s' = currentBatchId s + 1) ∨
  (c ≠ OpenBatch ∧ currentBatchId s' = currentBatchId s).
Proof.
  destruct c; simpl; intros H.
  1-5: by apply owner_call_Return in H as [_ ->]; right; destruct s.
  - apply openBatch_Return in H as [_ ->]. left. by destruct s.
  - by apply closeBatch_Return in H as (_ & _ & ->); right; destruct s.
  - by apply submitEncryptedGuess_Return in H as (_ & _ & _ & _ & _ & ->); right.
  - by apply makeAccusation_Return in H as (_ & _ & _ & _ & ->); right.
  - by apply requestBatchSolution_Return in H as (_ & _ & _ & _ & ->); right.
  - by apply handleAccusationCallback_Return in H as (_ & _ & ->); right; destruct s.
  - by apply handleBatchSolutionCallback_Return in H as (_ & _ & ->); right; destruct s.
Qed.

Lemma exec_ids_allocated env c s s' logs :
  ids_allocated s → exec env c s = Return (s', logs) → ids_allocated s'.
Proof.
  intros Hs Hstep batchId Hid.
  pose proof (exec_currentBatchId env c s s' logs Hstep) as Hcur.
  assert (Hid' : batchId = 0 ∨ currentBatchId s < batchId)
    by (destruct Hcur as [[_ Hc]|[_ Hc]]; rewrite Hc in Hid; lia).
  pose proof (Hs batchId Hid') as Hzero.
  destruct (exec_batch_at env c s s' logs batchId Hstep)
    as [(-> & -> & _)|[(_ & Hopen & _)|[(_ & Hopen)|(_ & ->)]]].
  - destruct Hcur as [[_ Hc]|[Hc _]]; [rewrite Hc in Hid; lia | done].
  - by rewrite Hzero in Hopen.
  - by rewrite Hzero in Hopen.
  - done.
Qed.

Lemma reachable_ids_allocated s : reachable s → ids_allocated s.
Proof.
  induction 1 as [deployer | s s' env c logs _ IH Hstep].
  - intros batchId _. by apply read_absent.
  - by eapply exec_ids_allocated.
Qed.

(** X3.  Batch ids are consecutive from 1.  In a reachable state batch 0
    and every batch past currentBatchId is untouched (closed, empty, unset
    aggregates).  [openBatch] called by the owner goes through unless the
    counter is at the top of uint256 (then it panics): it moves the counter
    to currentBatchId + 1, emits BatchOpened for that id, leaves that batch
    open and empty, and leaves every other batch as it was. *)
Theorem X3_openBatch_allocates_next_empty_batch (env : Env) (s : State) :
  reachable s →
  msg_sender env = owner s →
  let id := currentBatchId s + 1 in
  ids_allocated s ∧
  (currentBatchId s = MAX_UINT256 → openBatch env s = Revert Error.Panic) ∧
  (currentBatchId s < MAX_UINT256 →
   ∃ s', openBatch env s = Return (s', [Event.BatchOpened id]) ∧
         currentBatchId s' = id ∧
         batch_at s' id = mkBatch true 0 0 0 0 ∅ ∧
         ∀ batchId, batchId ≠ id → batch_at s' batchId = batch_at s batchId).
Proof.
  intros Hs Howner id. subst id. pose proof (reachable_ids_allocated s Hs) as Hids.
  apply onlyOwner_Return with (u := tt) in Howner.
  split; [exact Hids | split].
  - intros Htop. unfold openBatch. rewrite Howner, bind_pass.
    assert (Hnone : checked_add (currentBatchId s) 1 = None)
      by (apply checked_add_None; lia).
    by rewrite Hnone.
  - intros Hroom. unfold openBatch. rewrite Howner, bind_pass.
    rewrite checked_add_fits by lia.
    destruct (openBatch_post s) as (Hcur & Hnew & Hold).
    eexists. split; [reflexivity|]. split; [exact Hcur | split; [|exact Hold]].
    rewrite Hnew. rewrite (Hids (currentBatchId s + 1)) by (right; lia). done.
Qed.

(** One transaction leaves a closed batch as it is. *)
Lemma exec_closed_frozen env c s s' logs batchId :
  batchId ≤ currentBatchId s →
  isOpen (batch_at s batchId) = false →
  exec env c s = Return (s', logs) →
  batch_at s' batchId = batch_at s batchId ∧ batchId ≤ currentBatchId s'.
Proof.
  intros Hid Hclosed Hstep. split.
  - destruct (exec_batch_at env c s s' logs batchId Hstep)
      as [(_ & Hnext & _)|[(_ & Hopen & _)|[(_ & Hopen)|(_ & ->)]]];
      [lia | congruence | congruence | done].
  - destruct (exec_currentBatchId env c s s' logs Hstep) as [[_ ->]|[_ ->]]; lia.
Qed.

Lemma run_closed_frozen txs s batchId :
  batchId ≤ currentBatchId s →
  isOpen (batch_at s batchId) = false →
  batch_at (run txs s) batchId = batch_at s batchId ∧
  batchId ≤ currentBatchId (run txs s).
Proof.
  revert s. induction txs as [|[env c] rest IH]; intros s Hid Hclosed; simpl; [done|].
  destruct (exec env c s) as [[s' logs]|e] eqn:Hstep; simpl; [|by apply IH].
  destruct (exec_closed_frozen env c s s' logs batchId Hid Hclosed Hstep) as [Hb Hid'].
  destruct (IH s' Hid' ltac:(by rewrite Hb)) as [Hb' Hid''].
  split; [by rewrite Hb', Hb | done].
Qed.

(** X4.  Closing is final.  Once [closeBatch] has gone through for a batch,
    whatever transactions follow, the batch record (open flag, submission
    count, the three aggregates) stays exactly as it was at closing, and
    every later submission, accusation or closeBatch for that batch
    reverts. *)
Theorem X4_closed_batch_is_frozen (env : Env) (batchId : uint256) (s s1 : State)
    (logs : list Event.t) (txs : list (Env * Call)) :
  reachable s →
  closeBatch env batchId s = Return (s1, logs) →
  isOpen (batch_at s1 batchId) = false ∧
  submissionCount (batch_at s1 batchId) = submissionCount (batch_at s batchId) ∧
  batch_at (run txs s1) batchId = batch_at s1 batchId ∧
  ∀ env' w r su,
    (∃ e, submitEncryptedGuess env' batchId w r su (run txs s1) = Revert e) ∧
    (∃ e, makeAccusation env' batchId w r su (run txs s1) = Revert e) ∧
    (∃ e, closeBatch env' batchId (run txs s1) = Revert e).
Proof.
  intros Hs Hclose.
  pose proof (reachable_ids_allocated s Hs batchId) as Hids.
  apply closeBatch_Return in Hclose as (_ & Hopen & ->).
  set (s1 := update_batch batchId (set_isOpen false) s).
  assert (Hb1 : batch_at s1 batchId = set_isOpen false (batch_at s batchId))
    by apply batch_at_update_batch_eq.
  assert (Hclosed : isOpen (batch_at s1 batchId) = false)
    by (rewrite Hb1; by destruct (batch_at s batchId)).
  assert (Hid : batchId ≤ currentBatchId s1).
  { replace (currentBatchId s1) with (currentBatchId s) by (by destruct s).
    destruct (decide (batchId ≤ currentBatchId s)) as [|Hgt]; [done|].
    rewrite Hids in Hopen by (right; lia). discriminate. }
  destruct (run_closed_frozen txs s1 batchId Hid Hclosed) as [Hfrozen _].
  split; [done | split; [by rewrite Hb1; destruct (batch_at s batchId) | split; [done|]]].
  intros env' w r su.
  assert (Hlater : isOpen (batch_at (run txs s1) batchId) = false) by by rewrite Hfrozen.
  repeat split.
  - destruct (submitEncryptedGuess _ _ _ _ _ _) as [[s' l]|e] eqn:Hres; [|by exists e].
    apply submitEncryptedGuess_Return in Hres as (_ & _ & Ho & _). congruence.
  - destruct (makeAccusation _ _ _ _ _ _) as [[s' l]|e] eqn:Hres; [|by exists e].
    apply makeAccusation_Return in Hres as (_ & _ & Ho & _). congruence.
  - destruct (closeBatch env' batchId (run txs s1)) as [[s' l]|e] eqn:Hres;
      [|by exists e].
    apply closeBatch_Return in Hres as (_ & Ho & _). congruence.
Qed.

(** A call that is not a submission to the batch leaves its count alone. *)
Lemma exec_count_frame env c s s' logs batchId :
  exec env c s = Return (s', logs) →
  submits_to batchId c = false →
  submissionCount (batch_at s' batchId) = submissionCount (batch_at s batchId).
Proof.
  intros Hstep Hc.
  destruct (exec_batch_at env c s s' logs batchId Hstep)
    as [(_ & _ & ->)|[(_ & _ & ->)|[(Hsub & _)|(_ & ->)]]];
    [by destruct (batch_at s batchId) | by destruct (batch_at s batchId)
     | congruence | done].
Qed.

(** X5.  Only an accepted submission to a batch changes its submission
    count or its aggregates: after any other accepted call (an accusation,
    a solution request, a callback, opening, closing, any administrative
    call, a submission to another batch) the count and the three
    aggregates of the batch are what they were. *)
Theorem X5_aggregates_change_only_by_submission (env : Env) (c : Call)
    (s s' : State) (logs : list Event.t) (batchId : uint256) :
  exec env c s = Return (s', logs) →
  submits_to batchId c = false →
  submissionCount (batch_at s' batchId) = submissionCount (batch_at s batchId) ∧
  encryptedWeapon (batch_at s' batchId) = encryptedWeapon (batch_at s batchId) ∧
  encryptedRoom (batch_at s' batchId) = encryptedRoom (batch_at s batchId) ∧
  encryptedSuspect (batch_at s' batchId) = encryptedSuspect (batch_at s batchId).
Proof.
  intros Hstep Hc.
  destruct (exec_batch_at env c s s' logs batchId Hstep)
    as [(_ & _ & ->)|[(_ & _ & ->)|[(Hsub & _)|(_ & ->)]]];
    [by destruct (batch_at s batchId) | by destruct (batch_at s batchId)
     | congruence | done].
Qed.

End Lifecycle.

(** ** Solution requests, accusations and the cooldown ledgers *)

Section Requests.
Context {fhe : FHEVM}.

(** X6.  The checks of a solution request, in order.  Once the pause gate
    and the caller's request cooldown have let the call through,
    [requestBatchSolution] fails with InvalidBatch if the batch has no
    submission, else with InvalidState if the caller has already requested
    this batch; otherwise it goes through, whether the batch is open or
    closed: it stores under the oracle's request id an unprocessed context
    holding the batch id, the current version and the digest of the three
    aggregates, marks the caller as having requested, emits
    DecryptionRequested with that id and digest, and leaves every batch as
    it was. *)
Theorem X6_solution_request_checks_in_order (env : Env) (batchId : uint256) (s : State) :
  request_gates_open s (msg_sender env) (block_timestamp env) →
  let b := batch_at s batchId in
  let res := requestBatchSolution env batchId s in
  let digest := _hashCiphertexts [FHE_toBytes32 (encryptedWeapon b);
                                  FHE_toBytes32 (encryptedRoom b);
                                  FHE_toBytes32 (encryptedSuspect b)] in
  (submissionCount b = 0 → res = Revert Error.InvalidBatch) ∧
  (submissionCount b ≠ 0 → has_requested s batchId (msg_sender env) = true →
   res = Revert Error.InvalidState) ∧
  (submissionCount b ≠ 0 → has_requested s batchId (msg_sender env) = false →
   res = Return (commit s res,
                 [Event.DecryptionRequested (oracle_requestId env) batchId digest]) ∧
   context_at (commit s res) (oracle_requestId env)
     = DecryptionContext.mk batchId (modelVersion s) digest false ∧
   has_requested (commit s res) batchId (msg_sender env) = true ∧
   batches (commit s res) = batches s).
Proof.
  intros (Hp & Hnow & Hcd) b res digest. subst b res digest.
  split; [|split].
  - intros Hempty. unfold requestBatchSolution.
    rewrite whenNotPaused_pass, checkCooldown_pass by done.
    by rewrite Hempty.
  - intros Hcount Hdup. unfold requestBatchSolution.
    rewrite whenNotPaused_pass, checkCooldown_pass by done.
    apply N.eqb_neq in Hcount. by rewrite Hcount, Hdup.
  - intros Hcount Hnew.
    rewrite requestBatchSolution_accepts by done. cbn [commit].
    split; [done | split; [|split]].
    + unfold context_at, request_post. fields. by rewrite read_insert_eq.
    + unfold has_requested, request_post. fields. by rewrite read_insert_eq.
    + done.
Qed.

(** X7.  The checks of an accusation, in order.  Once the pause gate and
    the caller's submission cooldown have let the call through,
    [makeAccusation] fails with BatchClosed if the batch is not open, else
    with InvalidState if the caller is already in the batch's submitted
    set; otherwise it goes through, also on a full batch (there is no
    capacity check): it stores under the oracle's request id an unprocessed
    context holding the digest of the encrypted verdict, puts the caller in
    the submitted set, and leaves every batch as it was: an accusation is
    not counted in submissionCount and does not touch the aggregates. *)
Theorem X7_accusation_checks_in_order (env : Env) (batchId : uint256)
    (w r su : euint32) (s : State) :
  gates_open s (msg_sender env) (block_timestamp env) →
  let b := batch_at s batchId in
  let res := makeAccusation env batchId w r su s in
  let isCorrect := FHE_and (FHE_and (FHE_eq (encryptedWeapon b) w)
                                    (FHE_eq (encryptedRoom b) r))
                           (FHE_eq (encryptedSuspect b) su) in
  let digest := _hashCiphertexts [FHE_toBytes32 isCorrect] in
  (isOpen b = false → res = Revert Error.BatchClosed) ∧
  (isOpen b = true → has_submitted s batchId (msg_sender env) = true →
   res = Revert Error.InvalidState) ∧
  (isOpen b = true → has_submitted s batchId (msg_sender env) = false →
   res = Return (commit s res,
                 [Event.DecryptionRequested (oracle_requestId env) batchId digest]) ∧
   context_at (commit s res) (oracle_requestId env)
     = DecryptionContext.mk batchId (modelVersion s) digest false ∧
   has_submitted (commit s res) batchId (msg_sender env) = true ∧
   batches (commit s res) = batches s).
Proof.
  intros (Hp & Hnow & Hcd) b res isCorrect digest. subst b res isCorrect digest.
  split; [|split].
  - intros Hopen. unfold makeAccusation.
    rewrite whenNotPaused_pass, checkCooldown_pass by done.
    by rewrite Hopen.
  - intros Hopen Hdup. unfold makeAccusation.
    rewrite whenNotPaused_pass, checkCooldown_pass by done.
    by rewrite Hopen, Hdup.
  - intros Hopen Hnew.
    rewrite makeAccusation_accepts by done. cbn [commit].
    split; [done | split; [|split]].
    + unfold context_at, accuse_post. fields. by rewrite read_insert_eq.
    + unfold has_submitted, accuse_post. fields. by rewrite read_insert_eq.
    + done.
Qed.

(** No transaction takes an address out of a batch's requested set. *)
Lemma exec_has_requested env c s s' logs batchId a :
  exec env c s = Return (s', logs) →
  has_requested s batchId a = true → has_requested s' batchId a = true.
Proof.
  unfold has_requested. destruct c; simpl; intros H Hin.
  1-5: by apply owner_call_Return in H as [_ ->]; destruct s.
  - by apply openBatch_Return in H as [_ ->]; destruct s.
  - by apply closeBatch_Return in H as (_ & _ & ->); destruct s.
  - by apply submitEncryptedGuess_Return in H as (_ & _ & _ & _ & _ & ->).
  - by apply makeAccusation_Return in H as (_ & _ & _ & _ & ->).
  - apply requestBatchSolution_Return in H as (_ & _ & _ & _ & ->).
    unfold request_post. fields. by apply read_insert_true.
  - by apply handleAccusationCallback_Return in H as (_ & _ & ->); destruct s.
  - by apply handleBatchSolutionCallback_Return in H as (_ & _ & ->); destruct s.
Qed.

Lemma run_has_requested txs s batchId a :
  has_requested s batchId a = true → has_requested (run txs s) batchId a = true.
Proof.
  revert s. induction txs as [|[env c] rest IH]; intros s Hin; simpl; [done|].
  apply IH. destruct (exec env c s) as [[s' logs]|e] eqn:Hstep; simpl; [|done].
  by eapply exec_has_requested.
Qed.

(** X8.  One solution request per address and batch, for good.  An accepted
    [requestBatchSolution] finds the caller outside the batch's requested
    set and puts it in; no transaction ever takes it out, so every later
    solution request of that address for that batch reverts, whatever
    happens in between.  The requested set is its own: contributing or
    accusing does not put an address into it. *)
Theorem X8_one_solution_request_per_address (env env' : Env) (batchId : uint256)
    (s s1 : State) (logs : list Event.t) (txs : list (Env * Call)) :
  requestBatchSolution env batchId s = Return (s1, logs) →
  msg_sender env' = msg_sender env →
  has_requested s batchId (msg_sender env) = false ∧
  has_requested (run txs s1) batchId (msg_sender env) = true ∧
  (∃ e, requestBatchSolution env' batchId (run txs s1) = Revert e) ∧
  (∀ env0 c s0 s0' logs0 a,
     exec env0 c s0 = Return (s0', logs0) →
     (∀ id, c ≠ RequestBatchSolution id) →
     has_requested s0' batchId a = has_requested s0 batchId a).
Proof.
  intros Hreq Hsender.
  apply requestBatchSolution_Return in Hreq as (_ & _ & _ & Hnew & ->).
  assert (Hin : has_requested (request_post env batchId s) batchId (msg_sender env) = true).
  { unfold has_requested, request_post. fields. by rewrite read_insert_eq. }
  pose proof (run_has_requested txs _ _ _ Hin) as Hlater.
  split; [done | split; [done | split]].
  - destruct (requestBatchSolution env' batchId _) as [[s' l]|e] eqn:Hres; [|by exists e].
    apply requestBatchSolution_Return in Hres as (_ & _ & _ & Hn & _).
    rewrite Hsender in Hn. congruence.
  - intros env0 c s0 s0' logs0 a Hstep Hc. unfold has_requested.
    destruct c; simpl in Hstep.
    1-5: by apply owner_call_Return in Hstep as [_ ->]; destruct s0.
    + by apply openBatch_Return in Hstep as [_ ->]; destruct s0.
    + by apply closeBatch_Return in Hstep as (_ & _ & ->); destruct s0.
    + by apply submitEncryptedGuess_Return in Hstep as (_ & _ & _ & _ & _ & ->).
    + by apply makeAccusation_Return in Hstep as (_ & _ & _ & _ & ->).
    + by destruct (Hc batchId0).
    + by apply handleAccusationCallback_Return in Hstep as (_ & _ & ->); destruct s0.
    + by apply handleBatchSolutionCallback_Return in Hstep as (_ & _ & ->); destruct s0.
Qed.

(** How one transaction changes the two ledgers. *)
Lemma exec_ledgers env c s s' logs :
  exec env c s = Return (s', logs) →
  (∃ cat, category_of c = Some cat ∧
     read 0 (ledger cat s) (msg_sender env) + cooldownSeconds s ≤ block_timestamp env ∧
     ledger cat s' = <[msg_sender env := block_timestamp env]> (ledger cat s) ∧
     ledger (other cat) s' = ledger (other cat) s) ∨
  (category_of c = None ∧
   lastSubmissionAt s' = lastSubmissionAt s ∧ lastRequestAt s' = lastRequestAt s).
Proof.
  destruct c; simpl; intros H.
  1-5: by apply owner_call_Return in H as [_ ->]; right; destruct s.
  - by apply openBatch_Return in H as [_ ->]; right; destruct s.
  - by apply closeBatch_Return in H as (_ & _ & ->); right; destruct s.
  - apply submitEncryptedGuess_Return in H as (_ & Hcd & _ & _ & _ & ->).
    left. by exists SubmissionAction.
  - apply makeAccusation_Return in H as (_ & Hcd & _ & _ & ->).
    left. by exists SubmissionAction.
  - apply requestBatchSolution_Return in H as (_ & Hcd & _ & _ & ->).
    left. by exists RequestAction.
  - by apply handleAccusationCallback_Return in H as (_ & _ & ->); right; destruct s.
  - by apply handleBatchSolutionCallback_Return in H as (_ & _ & ->); right; destruct s.
Qed.

Lemma exec_ledger_mono env c s s' logs cat a :
  exec env c s = Return (s', logs) →
  read 0 (ledger cat s) a ≤ read 0 (ledger cat s') a.
Proof.
  intros Hstep.
  destruct (exec_ledgers env c s s' logs Hstep)
    as [(cat' & _ & Hcd & Hown & Hother)|(_ & Hsub & Hreq)].
  - assert (Hcase : cat = cat' ∨ cat = other cat') by (destruct cat, cat'; auto).
    destruct Hcase as [->| ->]; [|by rewrite Hother].
    rewrite Hown. destruct (decide (msg_sender env = a)) as [<-|Ha].
    + rewrite read_insert_eq. lia.
    + by rewrite read_insert_ne.
  - destruct cat; simpl; [by rewrite Hsub | by rewrite Hreq].
Qed.

(** X9.  Last-action timestamps never go back.  Whatever transactions run,
    with whatever block timestamps, every entry of either cooldown ledger
    is at least what it was: an entry is only ever overwritten by a
    timestamp that passed the cooldown check against it. *)
Theorem X9_ledger_entries_never_decrease (txs : list (Env * Call)) (s : State)
    (cat : Category) (a : address) :
  read 0 (ledger cat s) a ≤ read 0 (ledger cat (run txs s)) a.
Proof.
  revert s. induction txs as [|[env c] rest IH]; intros s; simpl; [done|].
  destruct (exec env c s) as [[s' logs]|e] eqn:Hstep; simpl; [|apply IH].
  pose proof (exec_ledger_mono env c s s' logs cat a Hstep). specialize (IH s'). lia.
Qed.

End Requests.

(** ** Stored contexts and their settlement *)

Section Contexts.
Context {fhe : FHEVM}.

Lemma same_commitment_refl ctx : same_commitment ctx ctx.
Proof. by repeat split. Qed.

Lemma same_commitment_trans c1 c2 c3 :
  same_commitment c1 c2 → same_commitment c2 c3 → same_commitment c1 c3.
Proof.
  intros (Hb & Hv & Hh & Hp) (Hb' & Hv' & Hh' & Hp').
  repeat split; [congruence..|]. auto.
Qed.

(** How one transaction changes a stored context: a request writes under a
    fresh id, a callback sets the processed flag of its own context. *)
Lemma exec_context env c s s' logs requestId ctx :
  (issues_request c = true → decryptionContexts s !! oracle_requestId env = None) →
  exec env c s = Return (s', logs) →
  decryptionContexts s !! requestId = Some ctx →
  (settles c = Some requestId ∧
   decryptionContexts s' !! requestId = Some (set_processed true ctx)) ∨
  (settles c ≠ Some requestId ∧ decryptionContexts s' !! requestId = Some ctx).
Proof.
  intros Hfresh H Hctx.
  assert (Hframe : decryptionContexts s' = decryptionContexts s →
                   decryptionContexts s' !! requestId = Some ctx)
    by (by intros ->).
  assert (Hne : issues_request c = true → oracle_requestId env ≠ requestId)
    by (intros Hreq Heq; specialize (Hfresh Hreq); congruence).
  assert (Hread : context_at s requestId = ctx)
    by (unfold context_at, read; by rewrite Hctx).
  destruct c; simpl in H.
  1-5: by apply owner_call_Return in H as [_ ->]; right; split; [|apply Hframe; destruct s].
  - by apply openBatch_Return in H as [_ ->]; right; split; [|apply Hframe; destruct s].
  - by apply closeBatch_Return in H as (_ & _ & ->); right;
      split; [|apply Hframe; destruct s].
  - by apply submitEncryptedGuess_Return in H as (_ & _ & _ & _ & _ & ->); right;
      split; [|apply Hframe].
  - apply makeAccusation_Return in H as (_ & _ & _ & _ & ->). right.
    split; [done|]. unfold accuse_post. fields. rewrite lookup_insert_ne; auto.
  - apply requestBatchSolution_Return in H as (_ & _ & _ & _ & ->). right.
    split; [done|]. unfold request_post. fields. rewrite lookup_insert_ne; auto.
  - apply handleAccusationCallback_Return in H as (_ & _ & ->).
    unfold mark_processed. destruct (decide (requestId0 = requestId)) as [->|Hother].
    + left. split; [done|]. rewrite Hread. destruct s; fields.
      by rewrite lookup_insert_eq.
    + right. split; [simpl; congruence|]. destruct s; fields.
      by rewrite lookup_insert_ne.
  - apply handleBatchSolutionCallback_Return in H as (_ & _ & ->).
    unfold mark_processed. destruct (decide (requestId0 = requestId)) as [->|Hother].
    + left. split; [done|]. rewrite Hread. destruct s; fields.
      by rewrite lookup_insert_eq.
    + right. split; [simpl; congruence|]. destruct s; fields.
      by rewrite lookup_insert_ne.
Qed.

Lemma same_commitment_set_processed ctx : same_commitment ctx (set_processed true ctx).
Proof. by destruct ctx. Qed.

(** Along a run a stored context stays stored, with the same commitment. *)
Lemma run_context_commitment txs s requestId ctx :
  oracle_fresh txs s →
  decryptionContexts s !! requestId = Some ctx →
  ∃ ctx', decryptionContexts (run txs s) !! requestId = Some ctx' ∧
          same_commitment ctx ctx'.
Proof.
  revert s ctx. induction txs as [|[env c] rest IH]; intros s ctx Hfresh Hctx; simpl.
  - exists ctx. split; [done | apply same_commitment_refl].
  - destruct Hfresh as [Hhere Hrest].
    destruct (exec env c s) as [[s' logs]|e] eqn:Hstep; simpl in *; [|by apply IH].
    destruct (exec_context env c s s' logs requestId ctx Hhere Hstep Hctx)
      as [(_ & Hctx')|(_ & Hctx')].
    + destruct (IH s' _ Hrest Hctx') as (ctx' & Hfinal & Hsame).
      exists ctx'. split; [done|].
      eapply same_commitment_trans; [apply same_commitment_set_processed | done].
    + by apply IH.
Qed.

(** X10.  A stored context is never deleted and its commitment never
    changes.  Along any run in which the oracle reuses no request id, the
    context stored under a request id stays stored with the same batch id,
    version and digest; its processed flag can only go from false to
    true, and the whole context is unchanged when the run holds no
    callback for that request id. *)
Theorem X10_stored_context_keeps_its_commitment (txs : list (Env * Call)) (s : State)
    (requestId : uint256) (ctx : DecryptionContext.t) :
  oracle_fresh txs s →
  decryptionContexts s !! requestId = Some ctx →
  ∃ ctx', decryptionContexts (run txs s) !! requestId = Some ctx' ∧
          same_commitment ctx ctx' ∧
          (Forall (fun tx : Env * Call => settles tx.2 ≠ Some requestId) txs →
           ctx' = ctx).
Proof.
  revert s ctx. induction txs as [|[env c] rest IH]; intros s ctx Hfresh Hctx; simpl.
  - exists ctx. split; [done|]. split; [apply same_commitment_refl | done].
  - destruct Hfresh as [Hhere Hrest].
    destruct (exec env c s) as [[s' logs]|e] eqn:Hstep; simpl in *.
    + destruct (exec_context env c s s' logs requestId ctx Hhere Hstep Hctx)
        as [(Hsettles & Hctx')|(_ & Hctx')].
      * destruct (IH s' _ Hrest Hctx') as (ctx' & Hfinal & Hsame & _).
        exists ctx'. split; [done|]. split.
        -- eapply same_commitment_trans; [apply same_commitment_set_processed | done].
        -- intros Hnone. apply Forall_cons in Hnone as [Hhead _]. done.
      * destruct (IH s' _ Hrest Hctx') as (ctx' & Hfinal & Hsame & Hkeep).
        exists ctx'. split; [done|]. split; [done|].
        intros Hnone. apply Forall_cons in Hnone as [_ Htail]. by apply Hkeep.
    + destruct (IH s _ Hrest Hctx) as (ctx' & Hfinal & Hsame & Hkeep).
      exists ctx'. split; [done|]. split; [done|].
      intros Hnone. apply Forall_cons in Hnone as [_ Htail]. by apply Hkeep.
Qed.

(** Along a quiet run the request's context and the batch's aggregates stay
    what they were. *)
Lemma run_quiet txs s batchId requestId ctx :
  oracle_fresh txs s →
  quiet batchId requestId txs →
  decryptionContexts s !! requestId = Some ctx →
  decryptionContexts (run txs s) !! requestId = Some ctx ∧
  modelVersion (run txs s) = modelVersion s ∧
  encryptedWeapon (batch_at (run txs s) batchId) = encryptedWeapon (batch_at s batchId) ∧
  encryptedRoom (batch_at (run txs s) batchId) = encryptedRoom (batch_at s batchId) ∧
  encryptedSuspect (batch_at (run txs s) batchId) = encryptedSuspect (batch_at s batchId).
Proof.
  revert s. induction txs as [|[env c] rest IH]; intros s Hfresh Hquiet Hctx; simpl;
    [done|].
  destruct Hfresh as [Hhere Hrest]. apply Forall_cons in Hquiet as [[Hsub Hset] Hquiet].
  destruct (exec env c s) as [[s' logs]|e] eqn:Hstep; simpl in *; [|by apply IH].
  destruct (exec_context env c s s' logs requestId ctx Hhere Hstep Hctx)
    as [(Hs & _)|(_ & Hctx')]; [done|].
  destruct (IH s' Hrest Hquiet Hctx') as (Hc & Hv & Hw & Hr & Hsu).
  rewrite Hc, Hv, Hw, Hr, Hsu.
  rewrite (exec_modelVersion env c s s' logs Hstep).
  destruct (exec_batch_at env c s s' logs batchId Hstep)
    as [(_ & _ & ->)|[(_ & _ & ->)|[(Hsub' & _)|(_ & ->)]]];
    [by destruct (batch_at s batchId) | by destruct (batch_at s batchId)
     | congruence | done].
Qed.

(** X11.  Settlement of a solution request goes through when nothing
    touched the aggregates.  A solution request is accepted on a batch
    whose aggregates are initialised handles; then any run follows in
    which no submission to that batch is made, the request is not settled
    and the oracle reuses no request id (accusations, further requests,
    closing the batch, pausing, callbacks for other requests are all
    allowed); then the callback arrives with a proof that verifies and a
    cleartext that decodes: it goes through, marks the context processed
    and emits DecryptionComplete with the decoded solution. *)
Theorem X11_undisturbed_solution_request_settles
    (env env' : Env) (batchId : uint256) (cleartexts proof : bytes)
    (solution : uint256 * uint256 * uint256)
    (s0 s1 : State) (logs : list Event.t) (txs : list (Env * Call)) :
  requestBatchSolution env batchId s0 = Return (s1, logs) →
  aggregates_initialized s0 batchId →
  oracle_fresh txs s1 →
  quiet batchId (oracle_requestId env) txs →
  FHE_checkSignatures (oracle_requestId env) cleartexts proof = true →
  abi_decode_uint256x3 cleartexts = Some solution →
  handleBatchSolutionCallback env' (oracle_requestId env) cleartexts proof (run txs s1)
  = Return (mark_processed (oracle_requestId env) (run txs s1),
            [Event.DecryptionComplete (oracle_requestId env) batchId solution]).
Proof.
  intros Hreq (Hiw & Hir & His) Hfresh Hquiet Hsig Hdec.
  apply requestBatchSolution_Return in Hreq as (_ & _ & _ & _ & ->).
  set (rid := oracle_requestId env) in *.
  set (ctx := new_context s0 batchId (solution_cts s0 batchId)).
  assert (Hctx : decryptionContexts (request_post env batchId s0) !! rid = Some ctx)
    by (unfold request_post; fields; by rewrite lookup_insert_eq).
  destruct (run_quiet txs _ batchId rid ctx Hfresh Hquiet Hctx)
    as (Hc & Hv & Hw & Hr & Hsu).
  set (s2 := run txs (request_post env batchId s0)) in *.
  assert (Hread : context_at s2 rid = ctx) by (unfold context_at, read; by rewrite Hc).
  replace (batch_at (request_post env batchId s0) batchId)
    with (batch_at s0 batchId) in * by reflexivity.
  replace (modelVersion (request_post env batchId s0))
    with (modelVersion s0) in Hv by reflexivity.
  unfold handleBatchSolutionCallback. rewrite Hread. unfold ctx, new_context. fields.
  rewrite Hv, N.eqb_refl. cbn [require negb mbind outcome_bind].
  unfold _rebuildBatchSolution, _requireInitialized.
  rewrite Hw, Hr, Hsu, Hiw, Hir, His. cbn [require mbind outcome_bind].
  unfold solution_cts. rewrite N.eqb_refl. cbn [require mbind outcome_bind].
  rewrite Hsig, Hdec. reflexivity.
Qed.

(** X12.  The callback of an accusation checks the commitment against a
    constant.  [handleAccusationCallback] rebuilds FHE.asEbool(false), not
    the verdict that [makeAccusation] committed to.  So, with a
    collision-free digest and handles determined by their bytes32 form, an
    accusation whose encrypted verdict is any handle other than that of
    FHE.asEbool(false) can never be settled: along any run in which the
    oracle reuses no request id, its callback reverts (with InvalidState
    when it comes right after the accusation). *)
Theorem X12_accusation_callback_rebuilds_a_constant
    (env env' : Env) (batchId : uint256) (w r su : euint32) (cleartexts proof : bytes)
    (s0 s1 : State) (logs : list Event.t) (txs : list (Env * Call)) :
  collision_free → handles_faithful →
  makeAccusation env batchId w r su s0 = Return (s1, logs) →
  verdict s0 batchId w r su ≠ FHE_asEbool false →
  oracle_fresh txs s1 →
  handleAccusationCallback env' (oracle_requestId env) cleartexts proof s1
    = Revert Error.InvalidState ∧
  ∃ e, handleAccusationCallback env' (oracle_requestId env) cleartexts proof (run txs s1)
       = Revert e.
Proof.
  intros Hdigest Hhandle Hacc Hverdict Hfresh.
  apply makeAccusation_Return in Hacc as (_ & _ & _ & _ & ->).
  set (rid := oracle_requestId env) in *.
  set (ctx := new_context s0 batchId (accusation_cts s0 batchId w r su)).
  assert (Hctx : decryptionContexts (accuse_post env batchId w r su s0) !! rid = Some ctx)
    by (unfold accuse_post; fields; by rewrite lookup_insert_eq).
  assert (Hmismatch : ∀ ctx', same_commitment ctx ctx' →
            (_hashCiphertexts [FHE_toBytes32 (FHE_asEbool false)]
             =? DecryptionContext.stateHash ctx') = false).
  { intros ctx' (_ & _ & Hh & _). rewrite Hh. apply N.eqb_neq. intros Heq.
    unfold ctx, new_context in Heq. fields. apply Hdigest in Heq.
    unfold accusation_cts in Heq. injection Heq as Heq. apply Hhandle in Heq.
    apply Hverdict. unfold verdict. done. }
  assert (Hstop : ∀ s ctx', decryptionContexts s !! rid = Some ctx' →
            same_commitment ctx ctx' →
            ∃ e, handleAccusationCallback env' rid cleartexts proof s = Revert e ∧
                 (DecryptionContext.processed ctx' = false →
                  DecryptionContext.modelVersion ctx' = modelVersion s →
                  e = Error.InvalidState)).
  { intros s ctx' Hs Hsame.
    assert (Hread : context_at s rid = ctx') by (unfold context_at, read; by rewrite Hs).
    unfold handleAccusationCallback, _rebuildIsCorrect, _requireInitialized.
    rewrite Hread.
    destruct (DecryptionContext.processed ctx');
      cbn [require negb mbind outcome_bind]; [by eexists|].
    destruct (DecryptionContext.modelVersion ctx' =? modelVersion s) eqn:Hv;
      cbn [require negb mbind outcome_bind];
      [|eexists; split; [done|]; intros _ Heq; apply N.eqb_neq in Hv; done].
    repeat match goal with
    | |- context [require (FHE_isInitialized ?x) _] =>
        destruct (FHE_isInitialized x); cbn [require mbind outcome_bind];
        [|by eexists]
    end.
    rewrite (Hmismatch ctx' Hsame). cbn [require mbind outcome_bind]. by eexists. }
  split.
  - destruct (Hstop _ ctx Hctx (same_commitment_refl ctx)) as (e & -> & He).
    f_equal. by apply He.
  - destruct (run_context_commitment txs _ rid ctx Hfresh Hctx)
      as (ctx' & Hfinal & Hsame).
    destruct (Hstop _ ctx' Hfinal Hsame) as (e & -> & _). by exists e.
Qed.

End Contexts.

(** ** Only allocated batches are referred to *)

Section Allocation.
Context {fhe : FHEVM}.

Lemma used_batch_allocated s batchId :
  ids_allocated s → batch_at s batchId ≠ Batch_zero → allocated s batchId.
Proof.
  intros Hids Hused. unfold allocated.
  destruct (decide (batchId = 0 ∨ currentBatchId s < batchId)) as [Hout|Hin]; [|lia].
  by destruct Hused; apply Hids.
Qed.

Lemma open_batch_allocated s batchId :
  ids_allocated s → isOpen (batch_at s batchId) = true → allocated s batchId.
Proof. intros Hids Hopen. apply used_batch_allocated; [done|]. by intros Hz; rewrite Hz in Hopen. Qed.

Lemma nonempty_batch_allocated s batchId :
  ids_allocated s → submissionCount (batch_at s batchId) ≠ 0 → allocated s batchId.
Proof. intros Hids Hcount. apply used_batch_allocated; [done|]. by intros Hz; rewrite Hz in Hcount. Qed.

Lemma read_insert_true_inv {K : Type} `{Countable K} (m : gmap K bool) (k k' : K) :
  read false (<[k := true]> m) k' = true → k' = k ∨ read false m k' = true.
Proof.
  destruct (decide (k = k')) as [->|Hne]; [by left|].
  rewrite read_insert_ne by done. by right.
Qed.

Lemma allocated_mono s s' batchId :
  currentBatchId s ≤ currentBatchId s' → allocated s batchId → allocated s' batchId.
Proof. unfold allocated. lia. Qed.

Lemma refers_to_allocated_frame s s' :
  currentBatchId s ≤ currentBatchId s' →
  hasSubmitted s' = hasSubmitted s → hasRequested s' = hasRequested s →
  decryptionContexts s' = decryptionContexts s →
  refers_to_allocated s → refers_to_allocated s'.
Proof.
  intros Hcur Hs Hr Hc (Hsub & Hreq & Hctx). unfold has_submitted, has_requested in *.
  split; [|split]; unfold has_submitted, has_requested.
  - intros batchId a. rewrite Hs. intros. eapply allocated_mono; eauto.
  - intros batchId a. rewrite Hr. intros. eapply allocated_mono; eauto.
  - intros requestId ctx. rewrite Hc. intros. eapply allocated_mono; eauto.
Qed.

Lemma exec_refers_to_allocated env c s s' logs :
  modelVersion s ≠ 0 → ids_allocated s → refers_to_allocated s →
  exec env c s = Return (s', logs) → refers_to_allocated s'.
Proof.
  intros Hv Hids Hinv H. pose proof Hinv as (Hsub & Hreq & Hctx).
  destruct c; simpl in H.
  1-5: apply owner_call_Return in H as [_ ->];
       apply (refers_to_allocated_frame s); try done; by destruct s.
  - apply openBatch_Return in H as [_ ->].
    destruct (openBatch_post s) as (Hcur & _ & _).
    apply (refers_to_allocated_frame s); [rewrite Hcur; lia | by destruct s.. | done].
  - apply closeBatch_Return in H as (_ & _ & ->).
    apply (refers_to_allocated_frame s); try done; by destruct s.
  - apply submitEncryptedGuess_Return in H as (_ & _ & Hopen & _ & _ & ->).
    apply (open_batch_allocated s batchId Hids) in Hopen.
    split; [|split]; unfold has_submitted, has_requested in *;
      unfold submit_post; fields.
    + intros id a Hin. apply read_insert_true_inv in Hin as [[= -> ->]|Hin]; eauto.
    + apply Hreq.
    + apply Hctx.
  - apply makeAccusation_Return in H as (_ & _ & Hopen & _ & ->).
    apply (open_batch_allocated s batchId Hids) in Hopen.
    split; [|split]; unfold has_submitted, has_requested in *;
      unfold accuse_post; fields.
    + intros id a Hin. apply read_insert_true_inv in Hin as [[= -> ->]|Hin]; eauto.
    + apply Hreq.
    + intros rid ctx. destruct (decide (oracle_requestId env = rid)) as [->|Hne].
      * rewrite lookup_insert_eq. intros [= <-]. done.
      * rewrite lookup_insert_ne by done. apply Hctx.
  - apply requestBatchSolution_Return in H as (_ & _ & Hcount & _ & ->).
    apply (nonempty_batch_allocated s batchId Hids) in Hcount.
    split; [|split]; unfold has_submitted, has_requested in *;
      unfold request_post; fields.
    + apply Hsub.
    + intros id a Hin. apply read_insert_true_inv in Hin as [[= -> ->]|Hin]; eauto.
    + intros rid ctx. destruct (decide (oracle_requestId env = rid)) as [->|Hne].
      * rewrite lookup_insert_eq. intros [= <-]. done.
      * rewrite lookup_insert_ne by done. apply Hctx.
  - apply handleAccusationCallback_Return in H as (_ & Hver & ->).
    split; [|split]; unfold has_submitted, has_requested in *;
      unfold mark_processed; destruct s; fields; [apply Hsub | apply Hreq |].
    intros rid ctx. destruct (decide (requestId = rid)) as [->|Hne].
    + rewrite lookup_insert_eq. intros [= <-].
      unfold context_at, read in *. fields.
      match goal with
      | |- context [default _ (?m !! rid)] => destruct (m !! rid) as [ctx|] eqn:Hl
      end; simpl in *.
      * destruct ctx. apply (Hctx rid _ Hl).
      * congruence.
    + rewrite lookup_insert_ne by done. apply Hctx.
  - apply handleBatchSolutionCallback_Return in H as (_ & Hver & ->).
    split; [|split]; unfold has_submitted, has_requested in *;
      unfold mark_processed; destruct s; fields; [apply Hsub | apply Hreq |].
    intros rid ctx. destruct (decide (requestId = rid)) as [->|Hne].
    + rewrite lookup_insert_eq. intros [= <-].
      unfold context_at, read in *. fields.
      match goal with
      | |- context [default _ (?m !! rid)] => destruct (m !! rid) as [ctx|] eqn:Hl
      end; simpl in *.
      * destruct ctx. apply (Hctx rid _ Hl).
      * congruence.
    + rewrite lookup_insert_ne by done. apply Hctx.
Qed.

(** X13.  Nothing refers to a batch that was never opened.  In every
    reachable state, an address marked as having submitted to or requested
    a batch, and the batch id recorded in any stored disclosure context,
    belong to a batch id between 1 and currentBatchId; a submission, an
    accusation or a solution request for batch 0 or for an id past
    currentBatchId always reverts. *)
Theorem X13_only_allocated_batches_are_used (s : State) :
  reachable s →
  refers_to_allocated s ∧
  ∀ env batchId w r su,
    batchId = 0 ∨ currentBatchId s < batchId →
    (∃ e, submitEncryptedGuess env batchId w r su s = Revert e) ∧
    (∃ e, makeAccusation env batchId w r su s = Revert e) ∧
    (∃ e, requestBatchSolution env batchId s = Revert e).
Proof.
  intros Hs. split.
  - induction Hs as [deployer | s s' env c logs Hs IH Hstep].
    + split; [|split]; unfold has_submitted, has_requested; simpl.
      * intros id a. by rewrite read_absent by apply lookup_empty.
      * intros id a. by rewrite read_absent by apply lookup_empty.
      * intros rid ctx. by rewrite lookup_empty.
    + apply (exec_refers_to_allocated env c s s' logs); try done.
      * by rewrite (reachable_modelVersion s Hs).
      * by apply reachable_ids_allocated.
  - intros env batchId w r su Hout.
    pose proof (reachable_ids_allocated s Hs batchId Hout) as Hzero.
    repeat split.
    + destruct (submitEncryptedGuess _ _ _ _ _ _) as [[s' l]|e] eqn:Hres; [|by exists e].
      apply submitEncryptedGuess_Return in Hres as (_ & _ & Ho & _).
      by rewrite Hzero in Ho.
    + destruct (makeAccusation _ _ _ _ _ _) as [[s' l]|e] eqn:Hres; [|by exists e].
      apply makeAccusation_Return in Hres as (_ & _ & Ho & _).
      by rewrite Hzero in Ho.
    + destruct (requestBatchSolution _ _ _) as [[s' l]|e] eqn:Hres; [|by exists e].
      apply requestBatchSolution_Return in Hres as (_ & _ & Hc & _).
      by rewrite Hzero in Hc.
Qed.

End Allocation.

(** ** The submission count and the submitted set *)

Section Counting.
Context {fhe : FHEVM}.

Lemma marked_insert_same (m : gmap (N * N) bool) (batchId : uint256) (a : address) :
  read false m (batchId, a) = false →
  size (filter (fun kv : (N * N) * bool => kv.1.1 = batchId ∧ kv.2 = true)
               (<[(batchId, a) := true]> m))
  = S (size (filter (fun kv : (N * N) * bool => kv.1.1 = batchId ∧ kv.2 = true) m)).
Proof.
  intros Hnew. rewrite map_filter_insert_True by done.
  apply map_size_insert_None. apply map_lookup_filter_None.
  unfold read in Hnew. destruct (m !! (batchId, a)) as [v|]; [|by left].
  right. intros x [= <-] [_ Hx]. simpl in *. congruence.
Qed.

Lemma marked_insert_other (m : gmap (N * N) bool) (batchId batchId' : uint256)
    (a : address) :
  batchId' ≠ batchId →
  filter (fun kv : (N * N) * bool => kv.1.1 = batchId ∧ kv.2 = true)
         (<[(batchId', a) := true]> m)
  = filter (fun kv : (N * N) * bool => kv.1.1 = batchId ∧ kv.2 = true) m.
Proof. intros Hne. apply map_filter_insert_not. intros y [Hk _]. done. Qed.

(** How one transaction changes the submitted sets: an accepted submission
    or accusation adds the caller, who was not in, to the set of its batch. *)
Lemma exec_hasSubmitted env c s s' logs :
  exec env c s = Return (s', logs) →
  (∃ batchId, has_submitted s batchId (msg_sender env) = false ∧
     hasSubmitted s' = <[(batchId, msg_sender env) := true]> (hasSubmitted s) ∧
     ((submits_to batchId c = true ∧
       submissionCount (batch_at s' batchId) = submissionCount (batch_at s batchId) + 1)
      ∨ (∃ w r su, c = MakeAccusation batchId w r su))) ∨
  (hasSubmitted s' = hasSubmitted s ∧ ∀ batchId, submits_to batchId c = false).
Proof.
  destruct c; simpl; intros H.
  1-5: by apply owner_call_Return in H as [_ ->]; right; destruct s.
  - by apply openBatch_Return in H as [_ ->]; right; destruct s.
  - by apply closeBatch_Return in H as (_ & _ & ->); right; destruct s.
  - apply submitEncryptedGuess_Return in H as (_ & _ & _ & _ & Hnew & ->).
    left. exists batchId. split; [done | split; [done|]]. left.
    rewrite N.eqb_refl, batch_at_submit_post. done.
  - apply makeAccusation_Return in H as (_ & _ & _ & Hnew & ->).
    left. exists batchId. split; [done | split; [done|]]. right. by eexists _, _, _.
  - by apply requestBatchSolution_Return in H as (_ & _ & _ & _ & ->); right.
  - by apply handleAccusationCallback_Return in H as (_ & _ & ->); right; destruct s.
  - by apply handleBatchSolutionCallback_Return in H as (_ & _ & ->); right; destruct s.
Qed.

Lemma exec_count_le_marked env c s s' logs batchId :
  submissionCount (batch_at s batchId) ≤ N.of_nat (size (marked s batchId)) →
  exec env c s = Return (s', logs) →
  submissionCount (batch_at s' batchId) ≤ N.of_nat (size (marked s' batchId)).
Proof.
  intros Hs Hstep. unfold marked in *.
  destruct (exec_hasSubmitted env c s s' logs Hstep)
    as [(id & Hnew & -> & Hkind)|[-> Hnone]].
  - destruct (decide (id = batchId)) as [->|Hne].
    + rewrite marked_insert_same by done.
      destruct Hkind as [[_ ->]|(w & r & su & ->)]; [lia|].
      rewrite (exec_count_frame env _ s s' logs batchId Hstep) by done. lia.
    + rewrite marked_insert_other by done.
      assert (Hsub : submits_to batchId c = false).
      { destruct Hkind as [[Hc _]|(w & r & su & ->)]; [|done].
        destruct c; try done. simpl in *. apply N.eqb_eq in Hc as ->.
        by apply N.eqb_neq. }
      by rewrite (exec_count_frame env _ s s' logs batchId Hstep).
  - by rewrite (exec_count_frame env _ s s' logs batchId Hstep).
Qed.

(** X14.  Every counted submission has an address of its own.  In every
    reachable state the submission count of a batch is at most the number
    of distinct addresses marked in the batch's submitted set (the set
    also holds the addresses that accused, which are not counted). *)
Theorem X14_count_bounded_by_marked_addresses (s : State) (batchId : uint256) :
  reachable s →
  submissionCount (batch_at s batchId) ≤ N.of_nat (size (marked s batchId)).
Proof.
  induction 1 as [deployer | s s' env c logs Hs IH Hstep].
  - unfold batch_at. rewrite read_absent by apply lookup_empty. simpl. lia.
  - by eapply exec_count_le_marked.
Qed.

End Counting.

(** ** Which callback can settle which request *)

Section Callbacks.
Context {fhe : FHEVM}.

(** The accusation callback is stopped unless the stored digest is that of
    the constant false. *)
Lemma accusation_callback_stops env requestId cleartexts proof s :
  _hashCiphertexts [FHE_toBytes32 (FHE_asEbool false)]
    ≠ DecryptionContext.stateHash (context_at s requestId) →
  ∃ e, handleAccusationCallback env requestId cleartexts proof s = Revert e ∧
       e ∈ [Error.AlreadyProcessed; Error.StaleVersion; Error.InvalidState].
Proof.
  intros Hne. apply N.eqb_neq in Hne.
  unfold handleAccusationCallback, _rebuildIsCorrect, _requireInitialized.
  destruct (DecryptionContext.processed _);
    cbn [require negb mbind outcome_bind]; [eexists; split; [done|set_solver]|].
  destruct (_ =? modelVersion s);
    cbn [require negb mbind outcome_bind]; [|eexists; split; [done|set_solver]].
  repeat match goal with
  | |- context [require (FHE_isInitialized ?x) _] =>
      destruct (FHE_isInitialized x); cbn [require mbind outcome_bind];
      [|eexists; split; [done|set_solver]]
  end.
  rewrite Hne. cbn [require mbind outcome_bind]. eexists; split; [done|set_solver].
Qed.

(** The solution callback is stopped unless the stored digest is that of
    the batch's three aggregates. *)
Lemma solution_callback_stops env requestId cleartexts proof s :
  (∀ x y z : bytes32,
     _hashCiphertexts [x; y; z] ≠ DecryptionContext.stateHash (context_at s requestId)) →
  ∃ e, handleBatchSolutionCallback env requestId cleartexts proof s = Revert e ∧
       e ∈ [Error.AlreadyProcessed; Error.StaleVersion; Error.InvalidState].
Proof.
  intros Hne.
  unfold handleBatchSolutionCallback, _rebuildBatchSolution, _requireInitialized.
  destruct (DecryptionContext.processed _);
    cbn [require negb mbind outcome_bind]; [eexists; split; [done|set_solver]|].
  destruct (_ =? modelVersion s);
    cbn [require negb mbind outcome_bind]; [|eexists; split; [done|set_solver]].
  repeat match goal with
  | |- context [require (FHE_isInitialized ?x) _] =>
      destruct (FHE_isInitialized x); cbn [require mbind outcome_bind];
      [|eexists; split; [done|set_solver]]
  end.
  match goal with
  | |- context [?h =? ?h'] => destruct (h =? h') eqn:Heq
  end; cbn [require mbind outcome_bind]; [|eexists; split; [done|set_solver]].
  apply N.eqb_eq in Heq. by apply Hne in Heq.
Qed.

(** X16.  A request can only be settled by the callback of its own kind.
    With a collision-free digest, once an accusation or a solution request
    has gone through, the other callback called with its request id
    reverts, whoever calls it, with whatever cleartexts and proof, and
    whatever happened in between (the oracle reusing no request id): the
    digest of one handle is never the digest of three. *)
Theorem X16_callback_of_the_other_kind_is_refused (env env' : Env) (c : Call)
    (cleartexts proof : bytes) (s0 s1 : State) (logs : list Event.t)
    (txs : list (Env * Call)) :
  collision_free →
  issues_request c = true →
  exec env c s0 = Return (s1, logs) →
  oracle_fresh txs s1 →
  ∃ e, exec env' (other_callback c (oracle_requestId env) cleartexts proof) (run txs s1)
       = Revert e ∧
       e ∈ [Error.AlreadyProcessed; Error.StaleVersion; Error.InvalidState].
Proof.
  intros Hdigest Hc Hstep Hfresh. set (rid := oracle_requestId env).
  destruct c; try discriminate; clear Hc; simpl in Hstep; cbn [other_callback exec].
  - apply makeAccusation_Return in Hstep as (_ & _ & _ & _ & ->).
    set (ctx := new_context s0 batchId (accusation_cts s0 batchId encWeapon encRoom encSuspect)).
    assert (Hctx : decryptionContexts (accuse_post env batchId encWeapon encRoom encSuspect s0)
                     !! rid = Some ctx)
      by (unfold accuse_post; fields; by rewrite lookup_insert_eq).
    destruct (run_context_commitment txs _ rid ctx Hfresh Hctx)
      as (ctx' & Hfinal & (_ & _ & Hhash & _)).
    apply solution_callback_stops. intros x y z.
    unfold context_at, read. rewrite Hfinal. simpl. rewrite Hhash.
    unfold ctx, new_context, accusation_cts. fields.
    intros Heq. apply Hdigest in Heq. discriminate Heq.
  - apply requestBatchSolution_Return in Hstep as (_ & _ & _ & _ & ->).
    set (ctx := new_context s0 batchId (solution_cts s0 batchId)).
    assert (Hctx : decryptionContexts (request_post env batchId s0) !! rid = Some ctx)
      by (unfold request_post; fields; by rewrite lookup_insert_eq).
    destruct (run_context_commitment txs _ rid ctx Hfresh Hctx)
      as (ctx' & Hfinal & (_ & _ & Hhash & _)).
    apply accusation_callback_stops.
    unfold context_at, read. rewrite Hfinal. simpl. rewrite Hhash.
    unfold ctx, new_context, solution_cts. fields.
    intros Heq. apply Hdigest in Heq. discriminate Heq.
Qed.

(** Every stored context was written by an accusation or by a solution
    request. *)
Lemma exec_contexts_have_origin env c s s' logs :
  modelVersion s ≠ 0 →
  contexts_have_origin s → exec env c s = Return (s', logs) → contexts_have_origin s'.
Proof.
  intros Hv Hinv H.
  assert (Hframe : decryptionContexts s' = decryptionContexts s → contexts_have_origin s').
  { intros Heq rid ctx. rewrite Heq. apply Hinv. }
  assert (Hmark : ∀ requestId,
            DecryptionContext.modelVersion (context_at s requestId) = modelVersion s →
            s' = mark_processed requestId s → contexts_have_origin s').
  { intros requestId Hver -> rid ctx. revert Hver. unfold mark_processed, context_at, read.
    destruct s; fields. intros Hver. destruct (decide (requestId = rid)) as [->|Hne].
    - rewrite lookup_insert_eq. intros [= <-].
      match goal with
      | |- context [default _ (?m !! rid)] => destruct (m !! rid) as [old|] eqn:Hl
      end; simpl.
      + destruct (Hinv rid old Hl) as [Hacc|Hsol]; [left|right]; by destruct old.
      + simpl in Hver. congruence.
    - rewrite lookup_insert_ne by done. apply Hinv. }
  destruct c; simpl in H.
  1-5: by apply owner_call_Return in H as [_ ->]; apply Hframe; destruct s.
  - by apply openBatch_Return in H as [_ ->]; apply Hframe; destruct s.
  - by apply closeBatch_Return in H as (_ & _ & ->); apply Hframe; destruct s.
  - by apply submitEncryptedGuess_Return in H as (_ & _ & _ & _ & _ & ->); apply Hframe.
  - apply makeAccusation_Return in H as (_ & _ & _ & _ & ->).
    intros rid ctx. unfold accuse_post. fields.
    destruct (decide (oracle_requestId env = rid)) as [->|Hne].
    + rewrite lookup_insert_eq. intros [= <-]. left.
      unfold from_accusation, new_context, accusation_cts. fields. by repeat eexists.
    + rewrite lookup_insert_ne by done. apply Hinv.
  - apply requestBatchSolution_Return in H as (_ & _ & _ & _ & ->).
    intros rid ctx. unfold request_post. fields.
    destruct (decide (oracle_requestId env = rid)) as [->|Hne].
    + rewrite lookup_insert_eq. intros [= <-]. right.
      unfold from_solution_request, new_context, solution_cts. fields. by repeat eexists.
    + rewrite lookup_insert_ne by done. apply Hinv.
  - apply handleAccusationCallback_Return in H as (_ & Hver & H). by eapply Hmark.
  - apply handleBatchSolutionCallback_Return in H as (_ & Hver & H). by eapply Hmark.
Qed.

Lemma reachable_contexts_have_origin s : reachable s → contexts_have_origin s.
Proof.
  induction 1 as [deployer | s s' env c logs Hs IH Hstep].
  - intros rid ctx Hl. simpl in Hl. by rewrite lookup_empty in Hl.
  - apply (exec_contexts_have_origin env c s s' logs); [|done..].
    by rewrite (reachable_modelVersion s Hs).
Qed.

(** Only the accusation callback emits Accusation. *)
Lemma exec_Accusation env c s s' logs e :
  exec env c s = Return (s', logs) → e ∈ logs → is_Accusation e = true →
  ∃ requestId cleartexts proof, c = HandleAccusationCallback requestId cleartexts proof.
Proof.
  destruct c; cbn [exec]; intros H Hin He.
  12: { revert H. unfold handleBatchSolutionCallback, _rebuildBatchSolution,
          _requireInitialized. guards; intros [= <- <-] || intros [=].
        apply list_elem_of_singleton in Hin as ->. discriminate He. }
  11: by eexists _, _, _.
  all: exfalso; revert H.
  - unfold addProvider, onlyOwner. guards; intros [= <- <-] || intros [=].
    apply list_elem_of_singleton in Hin as ->. discriminate He.
  - unfold removeProvider, onlyOwner. guards; intros [= <- <-] || intros [=].
    apply list_elem_of_singleton in Hin as ->. discriminate He.
  - unfold pause, onlyOwner. guards; intros [= <- <-] || intros [=].
    apply list_elem_of_singleton in Hin as ->. discriminate He.
  - unfold unpause, onlyOwner. guards; intros [= <- <-] || intros [=].
    apply list_elem_of_singleton in Hin as ->. discriminate He.
  - unfold setCooldown, onlyOwner. guards; intros [= <- <-] || intros [=].
    apply list_elem_of_singleton in Hin as ->. discriminate He.
  - unfold openBatch, onlyOwner. guards; intros [= <- <-] || intros [=].
    apply list_elem_of_singleton in Hin as ->. discriminate He.
  - unfold closeBatch, onlyOwner. guards; intros [= <- <-] || intros [=].
    apply list_elem_of_singleton in Hin as ->. discriminate He.
  - unfold submitEncryptedGuess, whenNotPaused, checkCooldown.
    guards; intros [= <- <-] || intros [=].
    apply list_elem_of_singleton in Hin as ->. discriminate He.
  - unfold makeAccusation, whenNotPaused, checkCooldown.
    guards; intros [= <- <-] || intros [=].
    apply list_elem_of_singleton in Hin as ->. discriminate He.
  - unfold requestBatchSolution, whenNotPaused, checkCooldown.
    guards; intros [= <- <-] || intros [=].
    apply list_elem_of_singleton in Hin as ->. discriminate He.
Qed.

(** X17.  No accusation is ever settled.  [handleAccusationCallback]
    compares the stored digest with that of FHE.asEbool(false), which is
    the digest no request stores: with a collision-free digest, handles
    determined by their bytes32 form and an encrypted verdict never being
    the handle of the constant false, in every reachable state the
    accusation callback reverts for every request id, caller, cleartext and
    proof, so no transaction ever emits an Accusation event. *)
Theorem X17_accusation_callback_always_reverts (s : State) :
  collision_free → handles_faithful → verdicts_fresh →
  reachable s →
  (∀ env requestId cleartexts proof,
     ∃ e, handleAccusationCallback env requestId cleartexts proof s = Revert e ∧
          e ∈ [Error.AlreadyProcessed; Error.StaleVersion; Error.InvalidState]) ∧
  (∀ env c s' logs e,
     exec env c s = Return (s', logs) → e ∈ logs → is_Accusation e = false).
Proof.
  intros Hdigest Hhandle Hverdict Hs.
  assert (Hstop : ∀ env requestId cleartexts proof,
     ∃ e, handleAccusationCallback env requestId cleartexts proof s = Revert e ∧
          e ∈ [Error.AlreadyProcessed; Error.StaleVersion; Error.InvalidState]).
  { intros env requestId cleartexts proof.
    destruct (decryptionContexts s !! requestId) as [ctx|] eqn:Hl.
    - apply accusation_callback_stops. unfold context_at, read. rewrite Hl. simpl.
      destruct (reachable_contexts_have_origin s Hs requestId ctx Hl)
        as [(a & w & b & r & c & su & ->)|(x & y & z & ->)]; intros Heq;
        apply Hdigest in Heq; [|discriminate Heq].
      injection Heq as Heq. apply Hhandle in Heq. symmetry in Heq.
      by apply Hverdict in Heq.
    - exists Error.StaleVersion. split; [|set_solver].
      unfold handleAccusationCallback, context_at, read. rewrite Hl. simpl.
      rewrite (reachable_modelVersion s Hs). reflexivity. }
  split; [exact Hstop|].
  intros env c s' logs e Hstep Hin. destruct (is_Accusation e) eqn:He; [|done].
  destruct (exec_Accusation env c s s' logs e Hstep Hin He)
    as (requestId & cleartexts & proof & ->).
  destruct (Hstop env requestId cleartexts proof) as (err & Hrev & _).
  simpl in Hstep. congruence.
Qed.

End Callbacks.

(** * Aggregation and the commitment along runs *)

(** ** Aggregation: what a submission stores *)

Section Aggregation.
Context {fhe : FHEVM}.



(** An accepted submission stores, per field, the combine primitive applied
    to the handle found in storage and the contribution. *)
Lemma submit_aggregates env batchId w r su s s' logs :
  submitEncryptedGuess env batchId w r su s = Return (s', logs) →
  encryptedWeapon (batch_at s' batchId) = FHE_add (encryptedWeapon (batch_at s batchId)) w ∧
  encryptedRoom (batch_at s' batchId) = FHE_add (encryptedRoom (batch_at s batchId)) r ∧
  encryptedSuspect (batch_at s' batchId) = FHE_add (encryptedSuspect (batch_at s batchId)) su.
Proof.
  intros H. apply submitEncryptedGuess_Return in H as (_ & _ & _ & _ & _ & ->).
  by rewrite batch_at_submit_post.
Qed.


(** A call that is not a submission to the batch leaves its count and its
    aggregates alone. *)
Lemma exec_record_frame env c s s' logs batchId :
  exec env c s = Return (s', logs) →
  submits_to batchId c = false →
  submissionCount (batch_at s' batchId) = submissionCount (batch_at s batchId) ∧
  encryptedWeapon (batch_at s' batchId) = encryptedWeapon (batch_at s batchId) ∧
  encryptedRoom (batch_at s' batchId) = encryptedRoom (batch_at s batchId) ∧
  encryptedSuspect (batch_at s' batchId) = encryptedSuspect (batch_at s batchId).
Proof.
  intros Hstep Hc.
  destruct (exec_batch_at env c s s' logs batchId Hstep)
    as [(_ & _ & ->)|[(_ & _ & ->)|[(Hsub & _)|(_ & ->)]]];
    [by destruct (batch_at s batchId) | by destruct (batch_at s batchId)
     | congruence | done].
Qed.

(** A submission to the batch, taken apart. *)
Lemma submits_to_inv batchId c :
  submits_to batchId c = true → ∃ w r su, c = SubmitEncryptedGuess batchId w r su.
Proof.
  destruct c; try discriminate. simpl. intros Heq. apply N.eqb_eq in Heq as ->.
  by eexists _, _, _.
Qed.




End Aggregation.

(** ** The commitment hash binds a request to the aggregates it saw *)

Section Commitment.
Context {fhe : FHEVM}.

Lemma run_app txs1 txs2 s : run (txs1 ++ txs2) s = run txs2 (run txs1 s).
Proof.
  revert s. induction txs1 as [|[env c] rest IH]; intros s; simpl; [done | apply IH].
Qed.

Lemma oracle_fresh_app txs1 txs2 s :
  oracle_fresh (txs1 ++ txs2) s ↔ oracle_fresh txs1 s ∧ oracle_fresh txs2 (run txs1 s).
Proof.
  revert s. induction txs1 as [|[env c] rest IH]; intros s; simpl; [tauto|].
  rewrite IH. tauto.
Qed.

Lemma run_modelVersion txs s : modelVersion (run txs s) = modelVersion s.
Proof.
  revert s. induction txs as [|[env c] rest IH]; intros s; simpl; [done|].
  rewrite IH. destruct (exec env c s) as [[s' logs]|e] eqn:Hstep; simpl; [|done].
  by eapply exec_modelVersion.
Qed.

(** One transaction combines at most one contribution into the weapon
    aggregate of a batch. *)
Lemma exec_weapon_chain env c s s' logs batchId :
  exec env c s = Return (s', logs) →
  ∃ cs, encryptedWeapon (batch_at s' batchId)
        = foldl FHE_add (encryptedWeapon (batch_at s batchId)) cs.
Proof.
  intros Hstep. destruct (submits_to batchId c) eqn:Hc.
  - apply submits_to_inv in Hc as (w & r & su & ->). simpl in Hstep.
    destruct (submit_aggregates env batchId w r su s s' logs Hstep) as (-> & _).
    by exists [w].
  - destruct (exec_record_frame env c s s' logs batchId Hstep Hc) as (_ & -> & _).
    by exists [].
Qed.

Lemma run_weapon_chain txs s batchId :
  ∃ cs, encryptedWeapon (batch_at (run txs s) batchId)
        = foldl FHE_add (encryptedWeapon (batch_at s batchId)) cs.
Proof.
  revert s. induction txs as [|[env c] rest IH]; intros s; simpl; [by exists []|].
  destruct (exec env c s) as [[s' logs]|e] eqn:Hstep; simpl; [|apply IH].
  destruct (exec_weapon_chain env c s s' logs batchId Hstep) as (cs1 & Hstep1).
  destruct (IH s') as (cs2 & Hrest). exists (cs1 ++ cs2).
  by rewrite Hrest, Hstep1, foldl_app.
Qed.

(** The callback of a solution request whose commitment no longer is the
    digest of the batch's aggregates. *)
Lemma solution_callback_mismatch env requestId cleartexts proof s :
  let context := context_at s requestId in
  DecryptionContext.processed context = false →
  DecryptionContext.modelVersion context = modelVersion s →
  _hashCiphertexts (solution_cts s (DecryptionContext.batchId context))
    ≠ DecryptionContext.stateHash context →
  handleBatchSolutionCallback env requestId cleartexts proof s
  = Revert Error.InvalidState.
Proof.
  intros context Hp Hv Hne. subst context.
  unfold handleBatchSolutionCallback, _rebuildBatchSolution, _requireInitialized.
  rewrite Hp, Hv, N.eqb_refl. cbn [require negb mbind outcome_bind].
  repeat match goal with
  | |- context [require (FHE_isInitialized ?x) _] =>
      destruct (FHE_isInitialized x); cbn [require mbind outcome_bind];
      [|reflexivity]
  end.
  apply N.eqb_neq in Hne. unfold solution_cts in Hne. by rewrite Hne.
Qed.

(** The state of a request that a submission has overtaken: its context
    is stored unprocessed with the digest of the aggregates it saw, and
    the weapon aggregate has had contributions combined into it since. *)
Lemma overtaken_step env c s s' logs requestId batchId (w0 r0 su0 : euint32) :
  collision_free → handles_faithful → combine_acyclic →
  (issues_request c = true → decryptionContexts s !! oracle_requestId env = None) →
  exec env c s = Return (s', logs) →
  overtaken requestId batchId w0 r0 su0 s →
  overtaken requestId batchId w0 r0 su0 s'.
Proof.
  intros Hdigest Hhandle Hacyclic Hfresh Hstep (Hctx & cs & Hcs & Hchain).
  set (ctx := DecryptionContext.mk batchId (modelVersion s)
                (_hashCiphertexts [FHE_toBytes32 w0; FHE_toBytes32 r0; FHE_toBytes32 su0])
                false) in *.
  assert (Hread : context_at s requestId = ctx)
    by (unfold context_at, read; by rewrite Hctx).
  split.
  - rewrite (exec_modelVersion env c s s' logs Hstep).
    destruct (exec_context env c s s' logs requestId ctx Hfresh Hstep Hctx)
      as [(Hsettles & _)|(_ & Hkeep)]; [exfalso | exact Hkeep].
    destruct c; try discriminate; injection Hsettles as ->; simpl in Hstep.
    + destruct (accusation_callback_stops env requestId cleartexts proof s)
        as (e & Hrev & _); [|congruence].
      rewrite Hread. unfold ctx. simpl. intros Heq. apply Hdigest in Heq.
      discriminate Heq.
    + rewrite solution_callback_mismatch in Hstep; [discriminate|by rewrite Hread..|].
      rewrite Hread. unfold ctx, solution_cts. simpl. intros Heq.
      apply Hdigest in Heq. injection Heq as Heq _ _. apply Hhandle in Heq.
      rewrite Hchain in Heq. by apply Hacyclic in Heq.
  - destruct (exec_weapon_chain env c s s' logs batchId Hstep) as (cs' & Hstep').
    exists (cs ++ cs'). split; [by destruct cs|].
    by rewrite Hstep', Hchain, foldl_app.
Qed.

Lemma overtaken_run txs s requestId batchId (w0 r0 su0 : euint32) :
  collision_free → handles_faithful → combine_acyclic →
  oracle_fresh txs s →
  overtaken requestId batchId w0 r0 su0 s →
  overtaken requestId batchId w0 r0 su0 (run txs s).
Proof.
  intros Hdigest Hhandle Hacyclic. revert s.
  induction txs as [|[env c] rest IH]; intros s Hfresh Hinv; simpl; [done|].
  destruct Hfresh as [Hhere Hrest]. apply IH; [done|].
  destruct (exec env c s) as [[s' logs]|e] eqn:Hstep; simpl; [|done].
  by eapply overtaken_step.
Qed.

(** C2.  A solution-disclosure request for a batch goes through; later, at
    a moment when the request has not been settled, a submission to the
    same batch goes through; then the request's callback arrives.
    Whatever other transactions come before the submission or between the
    submission and the callback (further submissions, earlier attempts to
    settle, requests, closing, pausing), the digest of the batch's
    aggregates no longer is the committed one, the callback fails with
    InvalidState, storage stays as it was (the context is still
    unprocessed) and nothing is emitted. *)
Theorem C2_submission_after_request_voids_settlement
    (env1 env2 env3 : Env) (batchId : uint256) (w r su : euint32)
    (cleartexts proof : bytes) (s0 s1 : State) (logs1 : list Event.t)
    (before after : list (Env * Call)) :
  collision_free → handles_faithful → combine_acyclic →
  requestBatchSolution env1 batchId s0 = Return (s1, logs1) →
  let requestId := oracle_requestId env1 in
  let txs := before ++ (env2, SubmitEncryptedGuess batchId w r su) :: after in
  oracle_fresh txs s1 →
  is_processed (run before s1) requestId = false →
  (∃ s' logs2, submitEncryptedGuess env2 batchId w r su (run before s1)
               = Return (s', logs2)) →
  let s2 := run txs s1 in
  let res := handleBatchSolutionCallback env3 requestId cleartexts proof s2 in
  _hashCiphertexts (solution_cts s2 batchId)
    ≠ DecryptionContext.stateHash (context_at s2 requestId) ∧
  res = Revert Error.InvalidState ∧
  commit s2 res = s2 ∧
  emitted res = [] ∧
  DecryptionContext.processed (context_at (commit s2 res) requestId) = false.
Proof.
  intros Hdigest Hhandle Hacyclic Hreq requestId txs Hfresh Hopen (s' & logs2 & Hsub) s2 res.
  subst txs s2 res.
  apply requestBatchSolution_Return in Hreq as (_ & _ & _ & _ & ->).
  apply oracle_fresh_app in Hfresh as [Hfresh1 Hfresh2].
  destruct Hfresh2 as [_ Hfresh2]. cbn [exec] in Hfresh2.
  rewrite Hsub in Hfresh2. cbn [commit] in Hfresh2.
  rewrite run_app. cbn [run exec]. rewrite Hsub. cbn [commit].
  set (b0 := batch_at s0 batchId) in *.
  set (ctx := new_context s0 batchId (solution_cts s0 batchId)).
  assert (Hctx : decryptionContexts (request_post env1 batchId s0) !! requestId = Some ctx)
    by (unfold request_post; fields; by rewrite lookup_insert_eq).
  (* the request's context when the submission lands *)
  destruct (run_context_commitment before _ requestId ctx Hfresh1 Hctx)
    as (ctx1 & Hctx1 & (Hb1 & Hv1 & Hh1 & _)).
  assert (Hread1 : context_at (run before (request_post env1 batchId s0)) requestId = ctx1)
    by (unfold context_at, read; by rewrite Hctx1).
  unfold is_processed in Hopen. rewrite Hread1 in Hopen.
  (* the weapon aggregate when the submission lands *)
  destruct (run_weapon_chain before (request_post env1 batchId s0) batchId)
    as (cs1 & Hchain1).
  replace (batch_at (request_post env1 batchId s0) batchId) with b0 in Hchain1
    by reflexivity.
  (* after the submission the request is overtaken, and stays so *)
  assert (Hinv : overtaken requestId batchId (encryptedWeapon b0) (encryptedRoom b0)
                   (encryptedSuspect b0) s').
  { pose proof Hsub as Hpost.
    apply submitEncryptedGuess_Return in Hpost as (_ & _ & _ & _ & _ & Hpost).
    destruct (submit_aggregates _ _ _ _ _ _ _ _ Hsub) as (Hw & _).
    split.
    - subst s'. replace (decryptionContexts (submit_post _ _ _ _ _ _))
        with (decryptionContexts (run before (request_post env1 batchId s0)))
        by reflexivity.
      replace (modelVersion (submit_post _ _ _ _ _ _))
        with (modelVersion (run before (request_post env1 batchId s0))) by reflexivity.
      rewrite Hctx1, run_modelVersion. f_equal.
      destruct ctx1 as [b1 v1 h1 p1]. simpl in *. subst. done.
    - exists (cs1 ++ [w]). split; [by destruct cs1|].
      by rewrite Hw, Hchain1, foldl_app. }
  apply (overtaken_run after s' _ _ _ _ _ Hdigest Hhandle Hacyclic Hfresh2) in Hinv.
  destruct Hinv as (Hfinal & cs & Hcs & Hchain).
  set (s2 := run after s') in *.
  assert (Hread : context_at s2 requestId
                  = DecryptionContext.mk batchId (modelVersion s2)
                      (_hashCiphertexts (solution_cts s0 batchId)) false)
    by (unfold context_at, read; by rewrite Hfinal).
  assert (Hmismatch : _hashCiphertexts (solution_cts s2 batchId)
                      ≠ DecryptionContext.stateHash (context_at s2 requestId)).
  { rewrite Hread. simpl. unfold solution_cts. intros Heq. apply Hdigest in Heq.
    injection Heq as Heq _ _. apply Hhandle in Heq. rewrite Hchain in Heq.
    by apply Hacyclic in Heq. }
  assert (Hres : handleBatchSolutionCallback env3 requestId cleartexts proof s2
                 = Revert Error.InvalidState).
  { apply solution_callback_mismatch; rewrite Hread; simpl; try done.
    by rewrite Hread in Hmismatch. }
  split; [exact Hmismatch|]. rewrite Hres. cbn [commit emitted]. by rewrite Hread.
Qed.

End Commitment.

(** * The web client *)

(** ** Reading back, verdicts and statistics *)

Section ClientFacts.
Import Frontend.
Context {js : JSRuntime}.

Lemma prefix_app (s t : string) : String.prefix s (s +:+ t) = true.
Proof.
  induction s as [|a s IH].
  - change ("" +:+ t) with t. by destruct t.
  - change (String a s +:+ t) with (String a (s +:+ t)). simpl.
    by destruct (Ascii.ascii_dec a a).
Qed.

Lemma substring_whole (s : string) : String.substring 0 (String.length s) s = s.
Proof. induction s as [|c s IH]; simpl; [done | by rewrite IH]. Qed.

Lemma substring_from_app (s t : string) : substring_from (String.length s) (s +:+ t) = t.
Proof.
  unfold substring_from. induction s as [|a s IH].
  - change ("" +:+ t) with t. simpl. rewrite Nat.sub_0_r. apply substring_whole.
  - change (String a s +:+ t) with (String a (s +:+ t)). simpl. apply IH.
Qed.

(** Decrypting a tagged string: the tag is recognised and cut off. *)
Lemma decrypt_tagged (b : string) :
  FHEDecryptNumber ("FHE-" +:+ b) = (s ← atob b; Some (parseFloat s)).
Proof.
  unfold FHEDecryptNumber. rewrite prefix_app.
  change 4%nat with (String.length "FHE-"). by rewrite substring_from_app.
Qed.

(** Membership and [indexOf]. *)
Lemma indexOf_bounds arr x : (-1 ≤ indexOf arr x < Z.of_nat (length arr))%Z.
Proof.
  induction arr as [|y rest IH]; simpl; [lia|].
  destruct (decide (y = x)); [lia|].
  destruct (decide (indexOf rest x = -1)%Z); lia.
Qed.

Lemma indexOf_absent arr x : indexOf arr x = (-1)%Z ↔ x ∉ arr.
Proof.
  induction arr as [|y rest IH]; simpl; [split; [intros _; apply not_elem_of_nil | done]|].
  rewrite not_elem_of_cons. destruct (decide (y = x)) as [->|Hne].
  - split; [lia | intros [? _]; done].
  - destruct (decide (indexOf rest x = -1)%Z) as [Hi|Hi].
    + split; [intros _; split; [done | by apply IH] | done].
    + pose proof (indexOf_bounds rest x). split; [lia|]. intros [_ Hx]. by apply IH in Hx.
Qed.

Lemma indexOf_lookup arr x i :
  (0 ≤ i)%Z → indexOf arr x = i → arr !! Z.to_nat i = Some x.
Proof.
  revert i. induction arr as [|y rest IH]; intros i Hi; simpl; [lia|].
  destruct (decide (y = x)) as [->|Hne]; [by intros <-|].
  destruct (decide (indexOf rest x = -1)%Z) as [Hm|Hm]; [lia|].
  intros <-. pose proof (indexOf_bounds rest x).
  replace (Z.to_nat (1 + indexOf rest x)) with (S (Z.to_nat (indexOf rest x))) by lia.
  simpl. apply IH; [lia | done].
Qed.

Lemma indexOf_inj arr x y :
  x ∈ arr → indexOf arr x = indexOf arr y → x = y.
Proof.
  intros Hx Heq. assert (Hi : indexOf arr x ≠ (-1)%Z) by (by rewrite indexOf_absent; auto).
  pose proof (indexOf_bounds arr x) as Hb.
  assert (Hpos : (0 ≤ indexOf arr x)%Z) by lia.
  pose proof (indexOf_lookup arr x (indexOf arr x) Hpos eq_refl) as H1.
  pose proof (indexOf_lookup arr y (indexOf arr x) Hpos (eq_sym Heq)) as H2.
  congruence.
Qed.

Lemma index_in_range arr x : (length arr ≤ 9)%nat → (-1 ≤ indexOf arr x < 9)%Z.
Proof. intros Hlen. pose proof (indexOf_bounds arr x). lia. Qed.

Lemma round_trip_index (i : Z) :
  indices_round_trip → (-1 ≤ i < 9)%Z →
  ∃ c, FHEEncryptNumber (Number_of_Z i) = Some c ∧
       FHEDecryptNumber c = Some (Number_of_Z i).
Proof.
  intros Hrt Hi. destruct (Hrt i Hi) as ((b & Hb & Hback) & Hparse & _).
  exists ("FHE-" +:+ b). unfold FHEEncryptNumber. rewrite Hb. split; [done|].
  rewrite decrypt_tagged, Hback. simpl. by rewrite Hparse.
Qed.

(** X18.  What [FHEEncryptNumber] produces, [FHEDecryptNumber] reads back.
    For a number whose numeral survives base64 and [parseFloat], the
    ciphertext is the tag FHE- followed by the base64 of the numeral, and
    decrypting it gives the number back: the tag is recognised and exactly
    the four characters of the tag are cut off.  A string without the tag
    is read by [parseFloat] as it stands. *)
Theorem X18_decrypt_reads_back_encrypt (value : number) (b : string) :
  btoa (Number_toString value) = Some b →
  atob b = Some (Number_toString value) →
  parseFloat (Number_toString value) = value →
  FHEEncryptNumber value = Some ("FHE-" +:+ b) ∧
  FHEDecryptNumber ("FHE-" +:+ b) = Some value ∧
  ∀ plain, String.prefix "FHE-" plain = false →
    FHEDecryptNumber plain = Some (parseFloat plain).
Proof.
  intros Hb Hback Hparse. split; [|split].
  - unfold FHEEncryptNumber. by rewrite Hb.
  - rewrite decrypt_tagged, Hback. simpl. by rewrite Hparse.
  - intros plain Hplain. unfold FHEDecryptNumber. by rewrite Hplain.
Qed.

(** X19.  An accusation is judged correct exactly when it names the
    solution.  [initializeGame] stores the encrypted indices of a
    murderer, a weapon and a room drawn from the three arrays;
    [verifyAccusation] then computes true for an accusation exactly when
    its suspect, weapon and room are the names drawn (an accusation naming
    something outside the arrays has index -1 and is judged incorrect). *)
Theorem X19_verdict_true_iff_names_match
    (randomMurderer randomWeapon randomRoom : string) (acc : PlayerAccusation) :
  indices_round_trip →
  randomMurderer ∈ SUSPECTS → randomWeapon ∈ WEAPONS → randomRoom ∈ ROOMS →
  ∃ game, encrypt_solution randomMurderer randomWeapon randomRoom = Some game ∧
    ∃ v, verdict_of game acc = Some v ∧
      (v = true ↔ suspect acc = randomMurderer ∧ weapon acc = randomWeapon ∧
                  room acc = randomRoom).
Proof.
  intros Hrt Hm Hw Hr.
  assert (Im : suspect acc = randomMurderer ↔
               indexOf SUSPECTS randomMurderer = indexOf SUSPECTS (suspect acc))
    by (split; [by intros -> | intros H; symmetry; by eapply indexOf_inj]).
  assert (Iw : weapon acc = randomWeapon ↔
               indexOf WEAPONS randomWeapon = indexOf WEAPONS (weapon acc))
    by (split; [by intros -> | intros H; symmetry; by eapply indexOf_inj]).
  assert (Ir : room acc = randomRoom ↔
               indexOf ROOMS randomRoom = indexOf ROOMS (room acc))
    by (split; [by intros -> | intros H; symmetry; by eapply indexOf_inj]).
  pose proof (index_in_range SUSPECTS randomMurderer ltac:(simpl; lia)) as Bm.
  pose proof (index_in_range WEAPONS randomWeapon ltac:(simpl; lia)) as Bw.
  pose proof (index_in_range ROOMS randomRoom ltac:(simpl; lia)) as Br.
  pose proof (index_in_range SUSPECTS (suspect acc) ltac:(simpl; lia)) as Bm'.
  pose proof (index_in_range WEAPONS (weapon acc) ltac:(simpl; lia)) as Bw'.
  pose proof (index_in_range ROOMS (room acc) ltac:(simpl; lia)) as Br'.
  unfold encrypt_solution, verdict_of.
  revert Im Iw Ir Bm Bw Br Bm' Bw' Br'.
  generalize (indexOf SUSPECTS randomMurderer) (indexOf WEAPONS randomWeapon)
    (indexOf ROOMS randomRoom) (indexOf SUSPECTS (suspect acc))
    (indexOf WEAPONS (weapon acc)) (indexOf ROOMS (room acc)).
  intros im iw ir jm jw jr Im Iw Ir Bm Bw Br Bm' Bw' Br'.
  destruct (round_trip_index im Hrt Bm) as (cm & Em & Dm).
  destruct (round_trip_index iw Hrt Bw) as (cw & Ew & Dw).
  destruct (round_trip_index ir Hrt Br) as (cr & Er & Dr).
  exists (mkGame cm cw cr). rewrite Em, Ew, Er. split; [done|].
  cbn [murderer game_weapon game_room]. rewrite Dm. cbn [mbind option_bind].
  rewrite (proj2 (proj2 (Hrt im Bm)) jm Bm').
  destruct (bool_decide_reflect (im = jm)) as [H1|H1].
  2: { exists false. split; [done|]. split; [done|]. intros (H & _ & _). by apply Im in H. }
  rewrite Dw. cbn [mbind option_bind].
  rewrite (proj2 (proj2 (Hrt iw Bw)) jw Bw').
  destruct (bool_decide_reflect (iw = jw)) as [H2|H2].
  2: { exists false. split; [done|]. split; [done|]. intros (_ & H & _). by apply Iw in H. }
  rewrite Dr. cbn [mbind option_bind].
  rewrite (proj2 (proj2 (Hrt ir Br)) jr Br').
  eexists. split; [done|]. rewrite bool_decide_eq_true.
  apply Im in H1. apply Iw in H2. rewrite <- Ir. by intuition.
Qed.

Lemma counts_cons (a : PlayerAccusation) (l : list PlayerAccusation) :
  correctCount (a :: l) = ((if decide (isCorrect a = Some true) then 1 else 0) + correctCount l)%nat ∧
  incorrectCount (a :: l) = ((if decide (isCorrect a = Some false) then 1 else 0) + incorrectCount l)%nat ∧
  pendingCount (a :: l) = ((if decide (isCorrect a = None) then 1 else 0) + pendingCount l)%nat.
Proof.
  unfold correctCount, incorrectCount, pendingCount. rewrite !filter_cons.
  repeat split; by destruct (decide _).
Qed.

Lemma counts_total (l : list PlayerAccusation) :
  (correctCount l + incorrectCount l + pendingCount l = length l)%nat.
Proof.
  induction l as [|a l IH]; [done|].
  destruct (counts_cons a l) as (-> & -> & ->). simpl.
  destruct (isCorrect a) as [[|]|]; repeat (destruct (decide _); try congruence); lia.
Qed.

(** Setting the verdict of one entry: the length stays, and the entry
    leaves the pending ones if it was pending. *)
Lemma counts_set_isCorrect (l : list PlayerAccusation) (index : nat)
    (acc : PlayerAccusation) (v : bool) :
  l !! index = Some acc →
  let l' := <[index := set_isCorrect v acc]> l in
  length l' = length l ∧
  (isCorrect acc = None → S (pendingCount l') = pendingCount l) ∧
  (isCorrect acc ≠ None → pendingCount l' = pendingCount l).
Proof.
  intros Hacc l'. subst l'. split; [apply length_insert|].
  revert index Hacc. induction l as [|a l IH]; intros [|n] Hacc; try done; simpl in *.
  - injection Hacc as ->.
    destruct (counts_cons (set_isCorrect v acc) l) as (_ & _ & ->).
    destruct (counts_cons acc l) as (_ & _ & ->). simpl.
    split; intros Hp; repeat destruct (decide _); try done; lia.
  - destruct (counts_cons a (<[n := set_isCorrect v acc]> l)) as (_ & _ & ->).
    destruct (counts_cons a l) as (_ & _ & ->).
    destruct (IH n Hacc) as [IH1 IH2]. split; intros Hp; [specialize (IH1 Hp) | specialize (IH2 Hp)]; lia.
Qed.

(** X20.  The statistics partition the accusations and follow an
    accusation through its life.  For every stored list, correct,
    incorrect and pending add up to the total.  [submitAccusation] stores
    nothing when the wallet is not connected or a part of the accusation
    has not been chosen; otherwise it stores the list with one pending
    entry appended: total and pending go up by one, correct and incorrect
    stay.  When [verifyAccusation] stores a list back, the total is
    unchanged; if the entry verified was pending, pending goes down by one
    and correct plus incorrect goes up by one; if it was not, pending
    stays. *)
Theorem X20_statistics_partition_the_accusations (accList : list PlayerAccusation) :
  (correctCount accList + incorrectCount accList + pendingCount accList
   = length accList)%nat ∧
  (∀ (isConnected : bool) (address : option string) (s w r : string) (now : Z),
     match submitted isConnected address s w r accList now with
     | None => isConnected = false ∨ s = "" ∨ w = "" ∨ r = ""
     | Some accList' =>
         isConnected = true ∧ s ≠ "" ∧ w ≠ "" ∧ r ≠ "" ∧
         accList' = accList ++ [mkAccusation (default "" address) s w r now None] ∧
         length accList' = S (length accList) ∧
         pendingCount accList' = S (pendingCount accList) ∧
         correctCount accList' = correctCount accList ∧
         incorrectCount accList' = incorrectCount accList
     end) ∧
  (∀ (isConnected : bool) (game : EncryptedGameState) (index : nat)
     (accList' : list PlayerAccusation),
     verified isConnected game accList index = Some accList' →
     isConnected = true ∧
     ∃ acc v, accList !! index = Some acc ∧ verdict_of game acc = Some v ∧
       accList' = <[index := set_isCorrect v acc]> accList ∧
       length accList' = length accList ∧
       (isCorrect acc = None →
          S (pendingCount accList') = pendingCount accList ∧
          (correctCount accList' + incorrectCount accList'
           = S (correctCount accList + incorrectCount accList))%nat) ∧
       (isCorrect acc ≠ None → pendingCount accList' = pendingCount accList)).
Proof.
  split; [apply counts_total|]. split.
  - intros isConnected address s w r now. unfold submitted.
    destruct isConnected; simpl; [|by left].
    destruct (bool_decide_reflect (s = "")) as [?|Hs]; simpl; [by right; left|].
    destruct (bool_decide_reflect (w = "")) as [?|Hw]; simpl; [by right; right; left|].
    destruct (bool_decide_reflect (r = "")) as [?|Hr]; simpl; [by right; right; right|].
    repeat (split; [done|]).
    unfold pendingCount, correctCount, incorrectCount.
    rewrite !filter_app, !length_app. simpl. repeat split; lia.
  - intros isConnected game index accList' Hver. unfold verified in Hver.
    destruct isConnected; simpl in Hver; [|done]. split; [done|].
    destruct (_ || _) in Hver; [done|].
    destruct (accList !! index) as [acc|] eqn:Hacc; simpl in Hver; [|done].
    destruct (verdict_of game acc) as [v|] eqn:Hv; simpl in Hver; [|done].
    injection Hver as <-. exists acc, v. do 3 (split; [done|]).
    destruct (counts_set_isCorrect accList index acc v Hacc) as (Hlen & Hpending & Hother).
    split; [done|]. split; [|done].
    intros Hp. specialize (Hpending Hp). split; [done|].
    pose proof (counts_total accList).
    pose proof (counts_total (<[index := set_isCorrect v acc]> accList)). lia.
Qed.

End ClientFacts.

(** * Worked instances in the test double *)

Module PlainFacts.
Lemma digest_collision_free : collision_free (fhe := Plain.fhe).
Proof.
  intros cts cts' Heq. unfold _hashCiphertexts in Heq. cbn in Heq.
  unfold Plain.digest in Heq. injection Heq as Heq.
  apply (inj encode) in Heq. by injection Heq.
Qed.

Lemma handles_are_faithful : handles_faithful (fhe := Plain.fhe).
Proof. intros h h' Heq. exact Heq. Qed.

Lemma combine_grows (cs : list N) (a : N) :
  a + N.of_nat (length cs) ≤ foldl (FHE_add (FHEVM := Plain.fhe)) a cs.
Proof.
  revert a. induction cs as [|c cs IH]; intros a; [simpl; lia|].
  cbn [foldl length]. change (FHE_add a c) with (a + c + 1).
  specialize (IH (a + c + 1)). lia.
Qed.

Lemma combine_is_acyclic : combine_acyclic (fhe := Plain.fhe).
Proof.
  intros a cs Hcs Heq. pose proof (combine_grows cs a) as Hle. rewrite Heq in Hle.
  destruct cs; [done | simpl in Hle; lia].
Qed.
End PlainFacts.

Module NormalisingFacts.

End NormalisingFacts.

#[local] Existing Instance Plain.fhe.

Import Scenario.

Section ScenarioFacts.
Lemma reachable_opened : reachable opened.
Proof. unfold opened. apply reachable_run. apply reachable_deploy. Qed.
Lemma reachable_one_submission : reachable one_submission.
Proof. unfold one_submission. apply reachable_run. exact reachable_opened. Qed.
Lemma reachable_solution_requested : reachable solution_requested.
Proof. unfold solution_requested. apply reachable_run. exact reachable_one_submission. Qed.
Lemma reachable_full : reachable full.
Proof. unfold full. apply reachable_run. exact reachable_opened. Qed.
Lemma reachable_full_paused : reachable full_paused.
Proof. unfold full_paused. apply reachable_run. exact reachable_full. Qed.
End ScenarioFacts.


(** C2, instance: Bob's request 77; then Carol's submission, a failed
    attempt to settle with the accusation callback, a further submission
    and a failed attempt to settle; then the callback for 77. *)
Lemma C2_witness :
  handleBatchSolutionCallback (mkEnv oracle_node 3000 0) 77 [1; 2; 3] []
    (run ([] ++ (mkEnv carol 2500 0, SubmitEncryptedGuess 1 1 2 3) :: after_submission)
         solution_requested)
  = Revert Error.InvalidState.
Proof.
  assert (Hreq : requestBatchSolution (mkEnv bob 2000 77) 1 one_submission
    = Return (solution_requested,
              [Event.DecryptionRequested 77 1 (_hashCiphertexts [6; 7; 8])]))
    by (vm_compute; reflexivity).
  assert (Hsub : ∃ s' logs2,
            submitEncryptedGuess (mkEnv carol 2500 0) 1 1 2 3 (run [] solution_requested)
            = Return (s', logs2))
    by (exists submission_after_request, [Event.Submission carol 1 1 2 3];
        vm_compute; reflexivity).
  assert (Hopen : is_processed (run [] solution_requested) 77 = false)
    by (vm_compute; reflexivity).
  assert (Hfresh : oracle_fresh
            ([] ++ (mkEnv carol 2500 0, SubmitEncryptedGuess 1 1 2 3) :: after_submission)
            solution_requested).
  { unfold after_submission. cbn [oracle_fresh app].
    repeat split; intros Hrequest; discriminate Hrequest. }
  pose proof (C2_submission_after_request_voids_settlement
    (mkEnv bob 2000 77) (mkEnv carol 2500 0) (mkEnv oracle_node 3000 0) 1 1 2 3
    [1; 2; 3] [] one_submission solution_requested _ [] after_submission
    PlainFacts.digest_collision_free PlainFacts.handles_are_faithful
    PlainFacts.combine_is_acyclic Hreq Hfresh Hopen Hsub) as H.
  cbv zeta in H. destruct H as (_ & Hres & _). exact Hres.
Defined.

(** C3, refuted as stated: no call of the contract, administrative or
  not, changes the version counter. *)
Lemma C3_counterexample :
  ¬ ∃ (fhe : FHEVM) (env : Env) (c : Call) (s s' : State) (logs : list Event.t),
      exec env c s = Return (s', logs) ∧ modelVersion s' ≠ modelVersion s.
Proof.
  intros (fhe & env & c & s & s' & logs & Hstep & Hbump).
  apply Hbump. by apply (exec_modelVersion env c s s' logs).
Qed.

(** C3, instance: after Bob's request the counter is still 1, the stored
  context carries version 1, and a callback for an id with no context
  behind it (version 0) is stopped by the version guard. *)
Lemma C3_witness :
  modelVersion solution_requested = 1 ∧
  DecryptionContext.modelVersion (context_at solution_requested 77) = 1 ∧
  handleBatchSolutionCallback (mkEnv oracle_node 3000 0) 5 [] [] solution_requested
    = Revert Error.StaleVersion.
Proof.
  destruct (C3_version_fixed_and_guard_compares (mkEnv oracle_node 3000 0)
              solution_requested) as (_ & Hreach & Hguard).
  destruct (Hreach reachable_solution_requested) as [Hv Hctx].
  split; [exact Hv | split].
  - rewrite <- Hv. apply (Hctx 77). vm_compute. reflexivity.
  - apply Hguard; vm_compute; [reflexivity | discriminate].
Defined.

(** C4, refuted as stated: for request id 5, under which nothing is
  stored, the specification's lookup step answers with the
  unknown-request condition, while both callbacks fail with the
  contract's StaleVersion error. *)
Lemma C4_counterexample :
  decryptionContexts solution_requested !! 5 = None ∧
  spec_settle_lookup solution_requested 5 = Some UnknownRequest ∧
  failure_of (handleAccusationCallback (mkEnv oracle_node 3000 0) 5 [] []
                solution_requested) = Some (ContractError Error.StaleVersion) ∧
  failure_of (handleBatchSolutionCallback (mkEnv oracle_node 3000 0) 5 [] []
                solution_requested) = Some (ContractError Error.StaleVersion) ∧
  failure_of (handleBatchSolutionCallback (mkEnv oracle_node 3000 0) 5 [] []
                solution_requested) ≠ spec_settle_lookup solution_requested 5.
Proof. repeat split; vm_compute; (reflexivity || discriminate). Qed.

(** C4, instance: request id 5 after Bob's request 77. *)
Lemma C4_witness :
  reachable solution_requested ∧
  decryptionContexts solution_requested !! 5 = None ∧
  handleAccusationCallback (mkEnv oracle_node 3000 0) 5 [] [] solution_requested
    = Revert Error.StaleVersion ∧
  handleBatchSolutionCallback (mkEnv oracle_node 3000 0) 5 [] [] solution_requested
    = Revert Error.StaleVersion.
Proof.
  assert (Habsent : decryptionContexts solution_requested !! 5 = None)
    by (vm_compute; reflexivity).
  split; [exact reachable_solution_requested | split; [exact Habsent|]].
  exact (proj2 (C4_unknown_request_fails_as_stale (mkEnv oracle_node 3000 0) 5 [] []
                  solution_requested reachable_solution_requested Habsent)).
Defined.

(** Closing side conditions on concrete storages by evaluation. *)
Ltac by_evaluation :=
    lazymatch goal with
    | |- (_ ≤ _)%N => apply (proj1 (N.leb_le _ _)); vm_compute; reflexivity
    | |- (_ < _)%N => apply (proj1 (N.ltb_lt _ _)); vm_compute; reflexivity
    | |- _ ≠ _ => vm_compute; discriminate
    | |- _ => vm_compute; reflexivity
    end.


(** C5, instance: the callback for Bob's request 77 goes through once;
    after Alice's later request (id 78) and the closing of the batch a
    second callback for 77 is turned away. *)
Lemma C5_witness :
    is_processed solution_requested 77 = false ∧
    is_processed settled 77 = true ∧
    is_processed (run afterwards settled) 77 = true ∧
    handleBatchSolutionCallback (mkEnv oracle_node 7000 0) 77 [1; 2; 3] []
      (run afterwards settled) = Revert Error.AlreadyProcessed ∧
    handleAccusationCallback (mkEnv oracle_node 7000 0) 77 [1] []
      (run afterwards settled) = Revert Error.AlreadyProcessed.
Proof.
  assert (Hsettle : exec (mkEnv oracle_node 3000 0)
                      (HandleBatchSolutionCallback 77 [1; 2; 3] []) solution_requested
                    = Return (settled, [Event.DecryptionComplete 77 1 (1, 2, 3)]))
    by by_evaluation.
  assert (Hfresh : oracle_fresh afterwards settled).
  { unfold afterwards. cbn [oracle_fresh]. split; [|split; [|exact I]].
    - intros _. by_evaluation.
    - intros Hreq. discriminate Hreq. }
  pose proof (C5_processed_set_once (mkEnv oracle_node 3000 0)
                (HandleBatchSolutionCallback 77 [1; 2; 3] []) 77 solution_requested settled
                _ afterwards eq_refl Hsettle Hfresh) as (Hbefore & Hafter & Hlater & Hagain).
  split; [exact Hbefore | split; [exact Hafter | split; [exact Hlater | split]]].
  - exact (proj1 (proj2 (Hagain (mkEnv oracle_node 7000 0) [1; 2; 3] []))).
  - exact (proj1 (Hagain (mkEnv oracle_node 7000 0) [1] [])).
Defined.

(** C6, refuted as stated: batch 2 was never opened, yet a submission to
    it fails with Paused while the contract is paused, and with RateLimited
    while the caller is inside the cooldown window, not with BatchClosed. *)
Lemma C6_counterexample :
    (isOpen (batch_at opened_paused 2) = false ∧
     submitEncryptedGuess (mkEnv alice 2000 0) 2 5 6 7 opened_paused
       = Revert Error.Paused) ∧
    (isOpen (batch_at one_submission 2) = false ∧
     submitEncryptedGuess (mkEnv alice 2010 0) 2 5 6 7 one_submission
       = Revert Error.RateLimited).
Proof. repeat split; by_evaluation. Qed.

(** C6, instances: the four outcomes, each behind open gates. *)
Lemma C6_witness :
    submitEncryptedGuess (mkEnv bob 2000 0) 2 5 6 7 one_submission
      = Revert Error.BatchClosed ∧
    submitEncryptedGuess (mkEnv 12 2000 0) 1 5 6 7 full = Revert Error.BatchFull ∧
    submitEncryptedGuess (mkEnv alice 3000 0) 1 5 6 7 one_submission
      = Revert Error.InvalidState ∧
    submissionCount (batch_at
      (commit one_submission
         (submitEncryptedGuess (mkEnv bob 2000 0) 1 5 6 7 one_submission)) 1) = 1 + 1.
Proof.
  assert (Hbob : gates_open one_submission bob 2000) by (repeat split; by_evaluation).
  assert (Hlate : gates_open full 12 2000) by (repeat split; by_evaluation).
  assert (Halice : gates_open one_submission alice 3000) by (repeat split; by_evaluation).
  destruct Hbob as (Hp1 & Hn1 & Hc1), Hlate as (Hp2 & Hn2 & Hc2), Halice as (Hp3 & Hn3 & Hc3).
  pose proof (C6_submission_checks_in_order (mkEnv bob 2000 0) 2 5 6 7 one_submission
                Hp1 Hn1 Hc1) as H1.
  pose proof (C6_submission_checks_in_order (mkEnv 12 2000 0) 1 5 6 7 full
                Hp2 Hn2 Hc2) as H2.
  pose proof (C6_submission_checks_in_order (mkEnv alice 3000 0) 1 5 6 7 one_submission
                Hp3 Hn3 Hc3) as H3.
  pose proof (C6_submission_checks_in_order (mkEnv bob 2000 0) 1 5 6 7 one_submission
                Hp1 Hn1 Hc1) as H4.
  cbv zeta in H1, H2, H3, H4.
  destruct H1 as (H1 & _), H2 as (_ & H2 & _), H3 as (_ & _ & H3 & _), H4 as (_ & _ & _ & H4).
  split; [|split; [|split]].
  - apply H1. by_evaluation.
  - apply H2; by_evaluation.
  - apply H3; by_evaluation.
  - apply H4; by_evaluation.
Defined.

(** C7, refuted as stated: batch 1 is open and holds MAX_BATCH_SIZE
    submissions, yet a further submission fails with RateLimited when the
    caller is inside the cooldown window, and with Paused when the contract
    is paused, not with BatchFull. *)
Lemma C7_counterexample :
    (isOpen (batch_at full 1) = true ∧
     submissionCount (batch_at full 1) = MAX_BATCH_SIZE ∧
     submitEncryptedGuess (mkEnv alice 2010 0) 1 5 6 7 full = Revert Error.RateLimited) ∧
    (isOpen (batch_at full_paused 1) = true ∧
     submissionCount (batch_at full_paused 1) = MAX_BATCH_SIZE ∧
     submitEncryptedGuess (mkEnv 12 3000 0) 1 5 6 7 full_paused = Revert Error.Paused).
Proof. repeat split; by_evaluation. Qed.

(** C7, instance: the eleventh player on the full batch 1. *)
Lemma C7_witness :
    reachable full ∧
    submissionCount (batch_at full 1) ≤ MAX_BATCH_SIZE ∧
    submitEncryptedGuess (mkEnv 12 2000 0) 1 5 6 7 full = Revert Error.BatchFull.
Proof.
  assert (Hgates : gates_open full 12 2000) by (repeat split; by_evaluation).
  destruct Hgates as (Hp & Hnow & Hcd).
  assert (Hopen : isOpen (batch_at full 1) = true) by by_evaluation.
  assert (Hcount : submissionCount (batch_at full 1) = MAX_BATCH_SIZE) by by_evaluation.
  pose proof (C7_submission_count_bounded full reachable_full) as (Hbound & _ & Hfull).
  pose proof (Hfull (mkEnv 12 2000 0) 1 5 6 7 Hopen Hcount) as Hrej.
  cbv zeta in Hrej. destruct Hrej as (_ & _ & Hrej).
  split; [exact reachable_full | split; [exact (Hbound 1) | exact (Hrej Hp Hnow Hcd)]].
Defined.

(** C8, refuted as stated: thirty seconds have not passed since Alice's
    submission at 2000, yet her second submission at 2010 fails with Paused
    when the contract is paused, and with an arithmetic panic when
    lastAction + cooldownSeconds does not fit in a uint256, not with
    RateLimited. *)
Lemma C8_counterexample :
    (2010 < read 0 (lastSubmissionAt one_submission_paused) alice
            + cooldownSeconds one_submission_paused ∧
     submitEncryptedGuess (mkEnv alice 2010 0) 1 5 6 7 one_submission_paused
       = Revert Error.Paused) ∧
    (2010 < read 0 (lastSubmissionAt one_submission_max_cooldown) alice
            + cooldownSeconds one_submission_max_cooldown ∧
     submitEncryptedGuess (mkEnv alice 2010 0) 1 5 6 7 one_submission_max_cooldown
       = Revert Error.Panic).
Proof. repeat split; by_evaluation. Qed.

(** C8, instances: Alice again at 2010 is rate limited; Bob's accepted
    submission at 2000 stamps his entry of the submission ledger and leaves
    the request ledger alone. *)
Lemma C8_witness :
    submitEncryptedGuess (mkEnv alice 2010 0) 1 5 6 7 one_submission
      = Revert Error.RateLimited ∧
    (let s' := commit one_submission
                 (submitEncryptedGuess (mkEnv bob 2000 0) 1 5 6 7 one_submission) in
     read 0 (lastSubmissionAt s') bob = 2000 ∧
     lastRequestAt s' = lastRequestAt one_submission).
Proof.
  assert (Hp : paused one_submission = false) by by_evaluation.
  assert (Hfit : read 0 (lastSubmissionAt one_submission) alice
                 + cooldownSeconds one_submission ≤ MAX_UINT256) by by_evaluation.
  assert (Hearly : 2010 < read 0 (lastSubmissionAt one_submission) alice
                          + cooldownSeconds one_submission) by by_evaluation.
  assert (Hbob : submitEncryptedGuess (mkEnv bob 2000 0) 1 5 6 7 one_submission
                 = Return (commit one_submission
                             (submitEncryptedGuess (mkEnv bob 2000 0) 1 5 6 7 one_submission),
                           [Event.Submission bob 1 5 6 7])) by by_evaluation.
  pose proof (C8_cooldown_gate (mkEnv alice 2010 0) (SubmitEncryptedGuess 1 5 6 7)
                SubmissionAction one_submission eq_refl) as Halice.
  pose proof (C8_cooldown_gate (mkEnv bob 2000 0) (SubmitEncryptedGuess 1 5 6 7)
                SubmissionAction one_submission eq_refl) as Hstamp.
  cbv zeta in Halice, Hstamp.
  destruct Halice as (_ & Hiff & _), Hstamp as (_ & _ & Hstamp & _).
  split.
  - exact (proj2 (Hiff Hp Hfit) Hearly).
  - destruct (Hstamp _ _ Hbob) as (Hself & _ & Hother).
    split; [exact Hself | exact Hother].
Defined.

(** C9, refuted as stated: Alice has contributed to batch 1 and then
    accuses; the accusation fails with RateLimited inside her cooldown
    window, with BatchClosed once the batch is closed, with Paused while
    the contract is paused; and her second contribution to the batch, once
    it is full, fails with BatchFull. None of them is InvalidState. *)
Lemma C9_counterexample :
    (has_submitted one_submission 1 alice = true ∧
     makeAccusation (mkEnv alice 2010 0) 1 5 6 7 one_submission
       = Revert Error.RateLimited) ∧
    (has_submitted one_submission_closed 1 alice = true ∧
     makeAccusation (mkEnv alice 3000 0) 1 5 6 7 one_submission_closed
       = Revert Error.BatchClosed) ∧
    (has_submitted one_submission_paused 1 alice = true ∧
     makeAccusation (mkEnv alice 3000 0) 1 5 6 7 one_submission_paused
       = Revert Error.Paused) ∧
    (has_submitted full 1 alice = true ∧
     submitEncryptedGuess (mkEnv alice 3000 0) 1 5 6 7 full = Revert Error.BatchFull).
Proof. repeat split; by_evaluation. Qed.

(** C9, instances: Alice's contribution puts her in the submitted set of
    batch 1; from then on, also after later transactions, her accusation is
    turned away, with InvalidState once her cooldown has elapsed. *)
Lemma C9_witness :
    has_submitted opened 1 alice = false ∧
    has_submitted one_submission 1 alice = true ∧
    (∃ e, makeAccusation (mkEnv alice 9000 0) 1 5 6 7 (run afterwards one_submission)
          = Revert e) ∧
    makeAccusation (mkEnv alice 3000 0) 1 5 6 7 one_submission
      = Revert Error.InvalidState.
Proof.
  assert (Hin : has_submitted one_submission 1 alice = true) by by_evaluation.
  assert (Hfirst : submitEncryptedGuess (mkEnv alice 2000 0) 1 5 6 7 opened
                   = Return (one_submission, [Event.Submission alice 1 5 6 7]))
    by by_evaluation.
  assert (Hgates : gates_open one_submission alice 3000) by (repeat split; by_evaluation).
  destruct Hgates as (Hp & Hnow & Hcd).
  assert (Hopen : isOpen (batch_at one_submission 1) = true) by by_evaluation.
  pose proof (C9_contribution_accusation_exclusive (mkEnv alice 2000 0) 1 5 6 7 opened)
    as Hsubmit.
  pose proof (C9_contribution_accusation_exclusive (mkEnv alice 3000 0) 1 5 6 7
                one_submission) as Hthen.
  cbv zeta in Hsubmit, Hthen.
  destruct Hsubmit as (Hsubmit & _), Hthen as (_ & _ & Hlater & Hdedup).
  destruct (Hsubmit _ _ Hfirst) as (_ & Hbefore & _).
  split; [exact Hbefore | split; [exact Hin | split]].
  - exact (proj2 (proj2 (Hlater Hin afterwards (mkEnv alice 9000 0) 5 6 7 eq_refl))).
  - exact (proj1 (Hdedup Hin Hp Hnow Hcd Hopen)).
Defined.

(** C10, instance: with or without provider 7 registered, Alice's
    submission to batch 1 has the same outcome. *)
Lemma C10_witness :
    providers_aside opened with_provider ∧
    same_outcome
      (exec (mkEnv alice 2000 0) (SubmitEncryptedGuess 1 5 6 7) opened)
      (exec (mkEnv alice 2000 0) (SubmitEncryptedGuess 1 5 6 7) with_provider).
Proof.
  assert (Haside : providers_aside opened with_provider) by by_evaluation.
  split; [exact Haside|].
  exact (proj1 (C10_provider_role_inert (mkEnv alice 2000 0)
                  (SubmitEncryptedGuess 1 5 6 7) opened with_provider Haside)).
Defined.

(** ** Instances of the further properties *)

Lemma reachable_accused : reachable accused.
Proof. unfold accused. apply reachable_run. exact reachable_one_submission. Qed.

(** X3, instance: the owner opens a second batch. *)
Lemma X3_witness :
  ∃ s', openBatch (mkEnv admin 3000 0) one_submission
          = Return (s', [Event.BatchOpened (currentBatchId one_submission + 1)]) ∧
        currentBatchId s' = currentBatchId one_submission + 1 ∧
        batch_at s' (currentBatchId one_submission + 1) = mkBatch true 0 0 0 0 ∅.
Proof.
  assert (Howner : msg_sender (mkEnv admin 3000 0) = owner one_submission) by by_evaluation.
  assert (Hroom : currentBatchId one_submission < MAX_UINT256) by by_evaluation.
  pose proof (X3_openBatch_allocates_next_empty_batch (mkEnv admin 3000 0) one_submission
                reachable_one_submission Howner) as H.
  cbv zeta in H. destruct H as (_ & _ & H).
  destruct (H Hroom) as (s' & Hres & Hid & Hbatch & _).
  exists s'. split; [exact Hres | split; [exact Hid | exact Hbatch]].
Defined.

(** X4, instance: batch 1 is closed after Alice's submission; a second
    batch is opened and Bob tries to submit to batch 1. *)
Lemma X4_witness :
  batch_at (run after_closing one_submission_closed) 1
    = batch_at one_submission_closed 1 ∧
  ∃ e, submitEncryptedGuess (mkEnv carol 4000 0) 1 1 2 3
         (run after_closing one_submission_closed) = Revert e.
Proof.
  assert (Hclose : closeBatch (mkEnv admin 2100 0) 1 one_submission
                   = Return (one_submission_closed, [Event.BatchClosed 1]))
    by by_evaluation.
  pose proof (X4_closed_batch_is_frozen (mkEnv admin 2100 0) 1 one_submission
                one_submission_closed _ after_closing reachable_one_submission Hclose)
    as (_ & _ & Hfrozen & Hlater).
  split; [exact Hfrozen|].
  exact (proj1 (Hlater (mkEnv carol 4000 0) 1 2 3)).
Defined.

(** X5, instance: Bob's accusation leaves the count and the aggregates of
    batch 1 as Alice's submission left them. *)
Lemma X5_witness :
  submissionCount (batch_at accused 1) = submissionCount (batch_at one_submission 1) ∧
  encryptedWeapon (batch_at accused 1) = encryptedWeapon (batch_at one_submission 1).
Proof.
  assert (Hacc : exec (mkEnv bob 2000 80) (MakeAccusation 1 5 6 7) one_submission
                 = Return (accused, [Event.DecryptionRequested 80 1
                                       (_hashCiphertexts [44])]))
    by by_evaluation.
  pose proof (X5_aggregates_change_only_by_submission (mkEnv bob 2000 80)
                (MakeAccusation 1 5 6 7) one_submission accused _ 1 Hacc eq_refl)
    as (Hcount & Hweapon & _).
  split; [exact Hcount | exact Hweapon].
Defined.

(** X6, instances: a request for the empty batch 2, a second request by
    Bob, and Alice's request for batch 1. *)
Lemma X6_witness :
  requestBatchSolution (mkEnv bob 2000 77) 2 one_submission = Revert Error.InvalidBatch ∧
  requestBatchSolution (mkEnv bob 3000 78) 1 solution_requested
    = Revert Error.InvalidState ∧
  has_requested
    (commit solution_requested
       (requestBatchSolution (mkEnv alice 3000 78) 1 solution_requested)) 1 alice = true.
Proof.
  assert (H1 : request_gates_open one_submission bob 2000) by (repeat split; by_evaluation).
  assert (H2 : request_gates_open solution_requested bob 3000)
    by (repeat split; by_evaluation).
  assert (H3 : request_gates_open solution_requested alice 3000)
    by (repeat split; by_evaluation).
  pose proof (X6_solution_request_checks_in_order (mkEnv bob 2000 77) 2 one_submission H1)
    as G1.
  pose proof (X6_solution_request_checks_in_order (mkEnv bob 3000 78) 1
                solution_requested H2) as G2.
  pose proof (X6_solution_request_checks_in_order (mkEnv alice 3000 78) 1
                solution_requested H3) as G3.
  cbv zeta in G1, G2, G3.
  destruct G1 as (G1 & _), G2 as (_ & G2 & _), G3 as (_ & _ & G3).
  split; [|split].
  - apply G1. by_evaluation.
  - apply G2; by_evaluation.
  - apply G3; by_evaluation.
Defined.

(** X7, instances: an accusation on the unopened batch 2, Alice accusing
    after she has contributed, and a late accusation on the full batch. *)
Lemma X7_witness :
  makeAccusation (mkEnv bob 2000 80) 2 5 6 7 one_submission = Revert Error.BatchClosed ∧
  makeAccusation (mkEnv alice 3000 80) 1 5 6 7 one_submission
    = Revert Error.InvalidState ∧
  batches (commit full (makeAccusation (mkEnv 12 2000 80) 1 5 6 7 full)) = batches full.
Proof.
  assert (H1 : gates_open one_submission bob 2000) by (repeat split; by_evaluation).
  assert (H2 : gates_open one_submission alice 3000) by (repeat split; by_evaluation).
  assert (H3 : gates_open full 12 2000) by (repeat split; by_evaluation).
  pose proof (X7_accusation_checks_in_order (mkEnv bob 2000 80) 2 5 6 7 one_submission H1)
    as G1.
  pose proof (X7_accusation_checks_in_order (mkEnv alice 3000 80) 1 5 6 7
                one_submission H2) as G2.
  pose proof (X7_accusation_checks_in_order (mkEnv 12 2000 80) 1 5 6 7 full H3) as G3.
  cbv zeta in G1, G2, G3.
  destruct G1 as (G1 & _), G2 as (_ & G2 & _), G3 as (_ & _ & G3).
  split; [|split].
  - apply G1. by_evaluation.
  - apply G2; by_evaluation.
  - apply G3; by_evaluation.
Defined.

(** X8, instance: Bob has requested the solution of batch 1; after Carol's
    accusation, the closing of the batch and a pause he cannot request it
    again. *)
Lemma X8_witness :
  has_requested (run meanwhile solution_requested) 1 bob = true ∧
  ∃ e, requestBatchSolution (mkEnv bob 9000 90) 1 (run meanwhile solution_requested)
       = Revert e.
Proof.
  assert (Hreq : requestBatchSolution (mkEnv bob 2000 77) 1 one_submission
                 = Return (solution_requested,
                           [Event.DecryptionRequested 77 1 (_hashCiphertexts [6; 7; 8])]))
    by by_evaluation.
  pose proof (X8_one_solution_request_per_address (mkEnv bob 2000 77) (mkEnv bob 9000 90)
                1 one_submission solution_requested _ meanwhile Hreq eq_refl)
    as (_ & Hin & Hagain & _).
  split; [exact Hin | exact Hagain].
Defined.

Lemma oracle_fresh_meanwhile : oracle_fresh meanwhile solution_requested.
Proof.
  unfold meanwhile. cbn [oracle_fresh]. split; [|split; [|split; [|exact I]]].
  - intros _. by_evaluation.
  - intros Hreq. discriminate Hreq.
  - intros Hreq. discriminate Hreq.
Qed.

(** X10, instance: the context of Bob's request 77 through Carol's
    accusation, the closing of the batch and a pause. *)
Lemma X10_witness :
  ∃ ctx', decryptionContexts (run meanwhile solution_requested) !! 77 = Some ctx' ∧
          DecryptionContext.stateHash ctx' = _hashCiphertexts [6; 7; 8].
Proof.
  assert (Hctx : decryptionContexts solution_requested !! 77
                 = Some (DecryptionContext.mk 1 1 (_hashCiphertexts [6; 7; 8]) false))
    by by_evaluation.
  pose proof (X10_stored_context_keeps_its_commitment meanwhile solution_requested 77 _
                oracle_fresh_meanwhile Hctx) as (ctx' & Hfinal & (_ & _ & Hhash & _) & _).
  exists ctx'. split; [exact Hfinal | exact Hhash].
Defined.

(** X11, instance: Bob's request 77 is settled after Carol's accusation,
    the closing of the batch and a pause. *)
Lemma X11_witness :
  handleBatchSolutionCallback (mkEnv oracle_node 3000 0) 77 [1; 2; 3] []
    (run meanwhile solution_requested)
  = Return (mark_processed 77 (run meanwhile solution_requested),
            [Event.DecryptionComplete 77 1 (1, 2, 3)]).
Proof.
  assert (Hreq : requestBatchSolution (mkEnv bob 2000 77) 1 one_submission
                 = Return (solution_requested,
                           [Event.DecryptionRequested 77 1 (_hashCiphertexts [6; 7; 8])]))
    by by_evaluation.
  assert (Hinit : aggregates_initialized one_submission 1) by (repeat split; by_evaluation).
  assert (Hquiet : quiet 1 77 meanwhile).
  { unfold quiet, meanwhile. repeat apply Forall_cons_2; try apply Forall_nil_2;
      (split; [reflexivity | discriminate]). }
  exact (X11_undisturbed_solution_request_settles (mkEnv bob 2000 77)
           (mkEnv oracle_node 3000 0) 1 [1; 2; 3] [] (1, 2, 3) one_submission
           solution_requested _ meanwhile Hreq Hinit oracle_fresh_meanwhile Hquiet
           eq_refl eq_refl).
Defined.

(** X12, instance: Bob's accusation (request id 80) cannot be settled. *)
Lemma X12_witness :
  handleAccusationCallback (mkEnv oracle_node 3000 0) 80 [1] [] accused
    = Revert Error.InvalidState.
Proof.
  assert (Hacc : makeAccusation (mkEnv bob 2000 80) 1 5 6 7 one_submission
                 = Return (accused, [Event.DecryptionRequested 80 1
                                       (_hashCiphertexts [44])]))
    by by_evaluation.
  assert (Hverdict : verdict one_submission 1 5 6 7 ≠ FHE_asEbool false) by by_evaluation.
  exact (proj1 (X12_accusation_callback_rebuilds_a_constant (mkEnv bob 2000 80)
                  (mkEnv oracle_node 3000 0) 1 5 6 7 [1] [] one_submission accused _ []
                  PlainFacts.digest_collision_free PlainFacts.handles_are_faithful
                  Hacc Hverdict I)).
Defined.

(** X13, instance: after Bob's accusation nothing can be done on batch 2,
    which was never opened. *)
Lemma X13_witness :
  (∃ e, submitEncryptedGuess (mkEnv carol 5000 0) 2 1 2 3 accused = Revert e) ∧
  (∃ e, requestBatchSolution (mkEnv carol 5000 91) 2 accused = Revert e).
Proof.
  assert (Hpast : 2 = 0 ∨ currentBatchId accused < 2) by (right; by_evaluation).
  pose proof (X13_only_allocated_batches_are_used accused reachable_accused)
    as (_ & Hunused).
  destruct (Hunused (mkEnv carol 5000 0) 2 1 2 3 Hpast) as (Hsub & _ & _).
  destruct (Hunused (mkEnv carol 5000 91) 2 1 2 3 Hpast) as (_ & _ & Hreq).
  split; [exact Hsub | exact Hreq].
Defined.

(** X14, instance: after Alice's submission and Bob's accusation the count
    of batch 1 is within the number of addresses marked for it. *)
Lemma X14_witness :
  submissionCount (batch_at accused 1) ≤ N.of_nat (size (marked accused 1)).
Proof. exact (X14_count_bounded_by_marked_addresses accused 1 reachable_accused). Defined.

(** X15, instance: a stranger calling pause is turned away with NotOwner. *)
Lemma X15_witness :
  exec (mkEnv bob 2000 0) Pause one_submission = Revert Error.NotOwner ∧
  Error.NotOwner ∈ may_raise Pause.
Proof.
  assert (Hrev : exec (mkEnv bob 2000 0) Pause one_submission = Revert Error.NotOwner)
    by by_evaluation.
  split; [exact Hrev|].
  exact (proj1 (X15_errors_by_function (mkEnv bob 2000 0) Pause one_submission _ Hrev)).
Defined.

(** X16, instance: the accusation callback is called with the id of Bob's
    solution request 77. *)
Lemma X16_witness :
  ∃ e, exec (mkEnv oracle_node 3000 0) (HandleAccusationCallback 77 [1] [])
         (run meanwhile solution_requested) = Revert e.
Proof.
  assert (Hreq : exec (mkEnv bob 2000 77) (RequestBatchSolution 1) one_submission
                 = Return (solution_requested,
                           [Event.DecryptionRequested 77 1 (_hashCiphertexts [6; 7; 8])]))
    by by_evaluation.
  destruct (X16_callback_of_the_other_kind_is_refused (mkEnv bob 2000 77)
              (mkEnv oracle_node 3000 0) (RequestBatchSolution 1) [1] [] one_submission
              solution_requested _ meanwhile PlainFacts.digest_collision_free eq_refl
              Hreq oracle_fresh_meanwhile) as (e & Hrev & _).
  exists e. exact Hrev.
Defined.

Lemma plain_verdicts_fresh : verdicts_fresh.
Proof. intros a w b r c su. unfold FHE_and, FHE_eq, FHE_asEbool. simpl. lia. Qed.

(** X17, instance: the callback for Bob's accusation 80 is turned away. *)
Lemma X17_witness :
  ∃ e, handleAccusationCallback (mkEnv oracle_node 3000 0) 80 [1] [] accused = Revert e.
Proof.
  pose proof (X17_accusation_callback_always_reverts accused
                PlainFacts.digest_collision_free PlainFacts.handles_are_faithful
                plain_verdicts_fresh reachable_accused) as [Hstop _].
  pose proof (Hstop (mkEnv oracle_node 3000 0) 80 [1] []) as (e & Hrev & _).
  exists e. exact Hrev.
Defined.

(** ** Instances in the web client *)

Section ClientInstances.
Import Frontend.
#[local] Existing Instance PlainJS.js.

Lemma plain_indices_round_trip : indices_round_trip.
Proof.
  intros i Hi.
  assert (Hcases : i ∈ seqZ (-1) 10) by (apply elem_of_seqZ; lia).
  split; [by eexists | split].
  - vm_compute in Hcases. repeat (apply elem_of_cons in Hcases as [->|Hcases]; [by vm_compute|]).
    by apply elem_of_nil in Hcases.
  - intros j _. reflexivity.
Qed.

(** X18, instance: the index 3 in the test double. *)
Lemma X18_witness :
  FHEEncryptNumber (Some 3%Z) = Some "FHE-3"%string ∧
  FHEDecryptNumber "FHE-3" = Some (Some 3%Z).
Proof.
  pose proof (X18_decrypt_reads_back_encrypt (Some 3%Z) "3" eq_refl eq_refl eq_refl)
    as (Henc & Hdec & _).
  split; [exact Henc | exact Hdec].
Defined.

(** X19, instance: the solution is Mr. Green with the rope in the hall, and
    so is the accusation. *)
Lemma X19_witness :
  ∃ game, encrypt_solution "Mr. Green" "Rope" "Hall" = Some game ∧
          verdict_of game (mkAccusation "0xA1" "Mr. Green" "Rope" "Hall" 1700000000 None)
          = Some true.
Proof.
  assert (Hm : "Mr. Green"%string ∈ SUSPECTS) by (unfold SUSPECTS; repeat constructor).
  assert (Hw : "Rope"%string ∈ WEAPONS) by (unfold WEAPONS; repeat constructor).
  assert (Hr : "Hall"%string ∈ ROOMS) by (unfold ROOMS; repeat constructor).
  destruct (X19_verdict_true_iff_names_match "Mr. Green" "Rope" "Hall"
              (mkAccusation "0xA1" "Mr. Green" "Rope" "Hall" 1700000000 None)
              plain_indices_round_trip Hm Hw Hr) as (game & Hgame & v & Hv & Hiff).
  exists game. split; [exact Hgame|].
  rewrite Hv. f_equal. apply Hiff. done.
Defined.

(** X20, instance: one pending accusation, which names the solution, is
    verified. *)
Lemma X20_witness :
  let game := mkGame "FHE-3" "FHE-4" "FHE-7" in
  let acc := mkAccusation "0xA1" "Mr. Green" "Rope" "Hall" 1700000000 None in
  verified true game [acc] 0 = Some [set_isCorrect true acc] ∧
  S (pendingCount [set_isCorrect true acc]) = pendingCount [acc].
Proof.
  intros game acc.
  assert (Hver : verified true game [acc] 0 = Some [set_isCorrect true acc])
    by (vm_compute; reflexivity).
  split; [exact Hver|].
  destruct (proj2 (proj2 (X20_statistics_partition_the_accusations [acc]))
              true game 0%nat [set_isCorrect true acc] Hver)
    as (_ & acc' & v & Hacc & _ & _ & _ & Hpending & _).
  injection Hacc as <-. exact (proj1 (Hpending eq_refl)).
Defined.

End ClientInstances.
